(** * The Christmas-tree scene: transform generation, progress damping,
      drag physics, gesture mapping and ambient dust

    A shallow embedding of the algorithmic parts of
    [src/components/{Ornaments,PhotoFrames,Foliage,GestureController,MagicalDust}.tsx].

    Conventions.
    - A JavaScript number is an exact number: a real ([R]) in the components
      whose formulas use [Math.cos], [Math.exp] or [Math.PI] (Ornaments,
      PhotoFrames, ChristmasTree), a rational ([Q]) in the components that
      only add, multiply and compare (GestureController, MagicalDust), so
      that these can be run.  Rounding of doubles and of [Float32Array]
      slots is not modelled.
    - [Math.random()] reads the next element of an explicit source
      [nat -> T]; the position in the source is threaded through the code.
    - A React ref or state cell is a field of the component's state record;
      a handler is a function from state to state.
    - [CONSTANTS] and [TreeState] are declared in [src/types.ts]: the
      enumeration is the one every component compares against, the
      constants are a record the definitions take as argument. *)

From Stdlib Require Import Reals Lra Lia String Bool Arith ZArith List.
From Stdlib Require Import QArith Qabs Machin.
From Stdlib Require Lqa Qpower.
Import ListNotations.

(* Numerals are read as [nat] unless a scope is opened. *)
Close Scope Q_scope.
Close Scope R_scope.

(** ** [types.ts] *)

Module Types.

(** Modelled from the spec: [TreeState], which the components import from
    [types.ts], a file that is not among them; section 3 gives it as the
    enumeration {CHAOS, FORMED}, and the components only compare values
    of it. *)
Inductive TreeState : Type := CHAOS | FORMED.

(** The fields of [CONSTANTS] the components read; their values are set
    in [types.ts], so every definition that uses them takes the record as
    an argument. *)
Record Constants : Type := {
  TREE_HEIGHT : R;
  TREE_RADIUS : R;
  ORNAMENT_COUNT : nat;
  PHOTO_COUNT : nat
}.

(** The colours of [THEME] used by the ornament palette, and the literal
    ['#efefef']. *)
Inductive Color : Type := gold | goldHighlight | red | silver | emerald.

End Types.

(** ** [Math.random] as a state-passing computation *)

Module Random.

(** A computation that may draw from a source of [T]s: it receives the
    source and the index of the next draw, and returns its value with the
    index after its draws. *)
Definition Rand (T A : Type) : Type := (nat -> T) -> nat -> A * nat.

Definition ret {T A : Type} (a : A) : Rand T A := fun _ n => (a, n).

Definition bind {T A B : Type} (c : Rand T A) (k : A -> Rand T B) : Rand T B :=
  fun src n => let (a, n') := c src n in k a src n'.

Definition Math_random {T : Type} : Rand T T := fun src n => (src n, S n).

(** [for (const i of idxs) acc = body(acc, i)] *)
Fixpoint forEach {T A : Type} (body : A -> nat -> Rand T A) (idxs : list nat) (acc : A)
  : Rand T A :=
  match idxs with
  | [] => ret acc
  | i :: rest => bind (body acc i) (forEach body rest)
  end.

End Random.

Declare Scope rand_scope.
Delimit Scope rand_scope with rand.
Notation "x <- c ;; k" := (Random.bind c (fun x => k))
  (at level 61, c at next level, right associativity) : rand_scope.

(** ** The parts of three.js the components call *)

Module THREE.

Local Open Scope R_scope.

Module Vector3.
Record t : Type := mk { x : R; y : R; z : R }.
End Vector3.

Module Euler.
Record t : Type := mk { x : R; y : R; z : R }.
End Euler.

(** [MathUtils.lerp(x, y, t) = (1 - t) * x + t * y] *)
Definition lerp (x y t : R) : R := (1 - t) * x + t * y.

(** [MathUtils.damp(x, y, lambda, dt) = lerp(x, y, 1 - Math.exp(-lambda * dt))] *)
Definition damp (x y lambda dt : R) : R := lerp x y (1 - exp (- lambda * dt)).

(** [target.lerpVectors(v1, v2, alpha)]: [v1 + (v2 - v1) * alpha] on each
    axis. *)
Definition lerpVectors (v1 v2 : Vector3.t) (alpha : R) : Vector3.t :=
  Vector3.mk (Vector3.x v1 + (Vector3.x v2 - Vector3.x v1) * alpha)
             (Vector3.y v1 + (Vector3.y v2 - Vector3.y v1) * alpha)
             (Vector3.z v1 + (Vector3.z v2 - Vector3.z v1) * alpha).

(** [v.lerp(w, alpha)]: [v += (w - v) * alpha] on each axis; the result is
    the new value of [v]. *)
Definition Vector3_lerp (v w : Vector3.t) (alpha : R) : Vector3.t :=
  Vector3.mk (Vector3.x v + (Vector3.x w - Vector3.x v) * alpha)
             (Vector3.y v + (Vector3.y w - Vector3.y v) * alpha)
             (Vector3.z v + (Vector3.z w - Vector3.z v) * alpha).

End THREE.

(** ** [Ornaments.tsx] *)

Module Ornaments.

Import Types Random THREE.
Local Open Scope R_scope.
Local Open Scope rand_scope.

Inductive OrnamentType : Type := sphere | box.

Definition isBox (type : OrnamentType) : bool :=
  match type with box => true | sphere => false end.

Record ChaosDatum : Type := {
  chaos_pos : Vector3.t;
  chaos_rot : Euler.t;
  chaos_scale : R
}.

Record TargetDatum : Type := {
  pos : Vector3.t;
  rot : Euler.t;
  scale : R
}.

Record TransformData : Type := {
  chaosData : list ChaosDatum;
  targetData : list TargetDatum;
  colors : list (option Color)
}.

(** [Math.pow(t, 1.1)] for [t >= 0]: zero at zero, [exp (1.1 * ln t)]
    elsewhere. *)
Definition Math_pow (t e : R) : R :=
  if Req_dec_T t 0 then 0 else Rpower t e.

(** [Math.floor] of a number, as an index. *)
Definition Math_floor (r : R) : nat := Z.to_nat (Int_part r).

Definition palette (type : OrnamentType) : list Color :=
  [gold; goldHighlight; red; silver] ++ (if isBox type then [emerald] else []).

Section Generate.

Variable C : Constants.
Variable count : nat.
Variable type : OrnamentType.

Definition height : R := TREE_HEIGHT C.
Definition radius : R := TREE_RADIUS C + (if isBox type then 0.8 else 0.5).

(** What one turn of the [for] loop of [generateTransformData] computes
    for index [i]: the draws are made in the order the source evaluates
    them. *)
Definition entity (i : nat) : Rand R (ChaosDatum * TargetDatum * option Color) :=
  r1 <- Math_random ;;
  let chaosR := 12 + r1 * 8 in
  r2 <- Math_random ;;
  let theta := r2 * PI * 2 in
  r3 <- Math_random ;;
  let phi := r3 * PI in
  r4 <- Math_random ;;
  r5 <- Math_random ;;
  r6 <- Math_random ;;
  r7 <- Math_random ;;
  let chaos := {|
    chaos_pos := Vector3.mk (chaosR * sin phi * cos theta)
                            (chaosR * cos phi)
                            (chaosR * sin phi * sin theta);
    chaos_rot := Euler.mk (r4 * PI * 0.5) (r5 * PI * 0.5) (r6 * PI * 0.5);
    chaos_scale := if isBox type then 0.5 + r7 * 0.4 else 0.3 + r7 * 0.4
  |} in
  let t := INR i / INR count in
  let hNormalized := if isBox type then Math_pow t 1.1 else t in
  let h := hNormalized * height - height / 2 in
  let rAtHeight := (1 - (h + height / 2) / height) * radius in
  r8 <- Math_random ;;
  let angle := INR i * 137.5 + r8 * 0.5 in
  r9 <- Math_random ;;
  let target := {|
    pos := Vector3.mk (cos angle * rAtHeight) h (sin angle * rAtHeight);
    rot := Euler.mk 0 angle 0;
    scale := if isBox type then 0.6 + r9 * 0.3 else 0.4 + r9 * 0.3
  |} in
  r10 <- Math_random ;;
  let color := nth_error (palette type)
                 (Math_floor (r10 * INR (length (palette type)))) in
  ret (chaos, target, color).

(** The three [push]es of a turn. *)
Definition push (acc : TransformData) (e : ChaosDatum * TargetDatum * option Color)
  : TransformData :=
  let '(chaos, target, color) := e in
  {| chaosData := chaosData acc ++ [chaos];
     targetData := targetData acc ++ [target];
     colors := colors acc ++ [color] |}.

Definition body (acc : TransformData) (i : nat) : Rand R TransformData :=
  e <- entity i ;; ret (push acc e).

Definition generateTransformData : Rand R TransformData :=
  forEach body (seq 0 count) {| chaosData := []; targetData := []; colors := [] |}.

End Generate.

(** [Math.floor(CONSTANTS.ORNAMENT_COUNT * 0.75)] *)
Definition sphereCount (C : Constants) : nat := (3 * ORNAMENT_COUNT C) / 4.
Definition boxCount (C : Constants) : nat := ORNAMENT_COUNT C - sphereCount C.

(** The two populations of the component, in the order the memos run. *)
Definition populations (C : Constants) : Rand R (TransformData * TransformData) :=
  spheres <- generateTransformData C (sphereCount C) sphere ;;
  boxes <- generateTransformData C (boxCount C) box ;;
  ret (spheres, boxes).

(** [tempObj] when its matrix is written to an instance: the position,
    rotation and scale the matrix is composed from. *)
Record Object3D : Type := {
  obj_position : Vector3.t;
  obj_rotation : Euler.t;
  obj_scale : Vector3.t
}.

(** The body of the loop over the spheres in the frame callback. *)
Definition sphereTransform (progress time : R) (i : nat)
    (chaos : ChaosDatum) (target : TargetDatum) : Object3D :=
  let wobble := (1 - progress) * 0.3 * sin (time * 0.5 + INR i) in
  let sc := lerp (chaos_scale chaos) (scale target) progress in
  {| obj_position := lerpVectors (chaos_pos chaos) (pos target) progress;
     obj_rotation :=
       Euler.mk (lerp (Euler.x (chaos_rot chaos) + wobble) (Euler.x (rot target)) progress)
                (lerp (Euler.y (chaos_rot chaos) + wobble) (Euler.y (rot target)) progress)
                (lerp (Euler.z (chaos_rot chaos) + wobble) (Euler.z (rot target)) progress);
     obj_scale := Vector3.mk sc sc sc |}.

(** The body of the loop over the boxes. *)
Definition boxTransform (progress time : R) (i : nat)
    (chaos : ChaosDatum) (target : TargetDatum) : Object3D :=
  let tumble := (1 - progress) * 1.5 in
  let sc := lerp (chaos_scale chaos) (scale target) progress in
  {| obj_position := lerpVectors (chaos_pos chaos) (pos target) progress;
     obj_rotation :=
       Euler.mk (lerp (Euler.x (chaos_rot chaos) + tumble * sin (INR i + time * 0.2))
                      (Euler.x (rot target)) progress)
                (lerp (Euler.y (chaos_rot chaos) + tumble * cos (INR i + time * 0.2))
                      (Euler.y (rot target)) progress)
                (lerp (Euler.z (chaos_rot chaos) + tumble * sin (INR i * 0.5 + time * 0.2))
                      (Euler.z (rot target)) progress);
     obj_scale := Vector3.mk sc sc sc |}.

(** A loop [for (i of idxs)] that reads [chaosData[i]] and [targetData[i]]
    and writes the instance of index [i]: the instances written, in order.
    [None] is the [TypeError] of reading a field of [undefined] when an
    index is out of range. *)
Fixpoint setMatrices (transform : nat -> ChaosDatum -> TargetDatum -> Object3D)
    (d : TransformData) (idxs : list nat) : option (list Object3D) :=
  match idxs with
  | [] => Some []
  | i :: rest =>
      match nth_error (chaosData d) i, nth_error (targetData d) i with
      | Some chaos, Some target =>
          option_map (cons (transform i chaos target)) (setMatrices transform d rest)
      | _, _ => None
      end
  end.

(** The two blocks of the frame callback, each under the guard that its
    mesh is mounted. *)
Definition updateSpheres (C : Constants) (progress time : R) (spheres : TransformData)
  : option (list Object3D) :=
  setMatrices (sphereTransform progress time) spheres (seq 0 (sphereCount C)).

Definition updateBoxes (C : Constants) (progress time : R) (boxes : TransformData)
  : option (list Object3D) :=
  setMatrices (boxTransform progress time) boxes (seq 0 (boxCount C)).

End Ornaments.

(** ** [PhotoFrames.tsx] *)

Module PhotoFrames.

Import Types Random THREE.
Local Open Scope R_scope.
Local Open Scope rand_scope.

(** The orientation three.js computes for the scratch [Object3D]: the
    model keeps the arguments of the calls that build it
    ([position.copy], [lookAt], [rotateY], [rotateZ], [rotateX]); the
    Euler angles themselves are three.js's business. *)
Record Orientation : Type := {
  at_position : Vector3.t;
  lookAt : Vector3.t;
  rotateY : R;
  rotateZ : R;
  rotateX : R
}.

Record Frame : Type := {
  chaosPos : Vector3.t;
  chaosRot : Euler.t;
  targetPos : Vector3.t;
  targetRot : Orientation
}.

Section Generate.

Variable C : Constants.

Definition count : nat := PHOTO_COUNT C.
Definition height : R := TREE_HEIGHT C.
Definition baseRadius : R := TREE_RADIUS C + 0.8.

(** The height of frame [i] before and after the clamp. *)
Definition rawHeight (i : nat) (heightJitter : R) : R :=
  let t := INR i / INR count in
  (t * 0.7 + 0.15) * height - height / 2 + heightJitter.

Definition clampHeight (h : R) : R :=
  Rmax (- height / 2 + 1) (Rmin (height / 2 - 2) h).

(** [i * 137.5 * (Math.PI / 180)] *)
Definition angleOf (i : nat) : R := INR i * 137.5 * (PI / 180).

(** What one turn of the [for] loop of the [frames] memo computes for
    index [i]. *)
Definition frame (i : nat) : Rand R Frame :=
  r1 <- Math_random ;;
  let chaosR := 15 + r1 * 10 in
  r2 <- Math_random ;;
  let theta := r2 * PI * 2 in
  r3 <- Math_random ;;
  let phi := r3 * PI in
  let chaosPos := Vector3.mk (chaosR * sin phi * cos theta)
                             (chaosR * cos phi)
                             (chaosR * sin phi * sin theta) in
  r4 <- Math_random ;;
  r5 <- Math_random ;;
  r6 <- Math_random ;;
  let chaosRot := Euler.mk (r4 * PI) (r5 * PI) (r6 * PI) in
  r7 <- Math_random ;;
  let heightJitter := (r7 - 0.5) * 1.5 in
  let h := clampHeight (rawHeight i heightJitter) in
  let rAtHeight := (1 - (h + height / 2) / height) * baseRadius in
  r8 <- Math_random ;;
  let depthJitter := (r8 - 0.5) * 0.4 in
  let finalRadius := rAtHeight + depthJitter in
  let angle := angleOf i in
  let targetPos := Vector3.mk (cos angle * finalRadius) h (sin angle * finalRadius) in
  r9 <- Math_random ;;
  r10 <- Math_random ;;
  let targetRot := {|
    at_position := targetPos;
    lookAt := Vector3.mk 0 h 0;
    rotateY := PI;
    rotateZ := (r9 - 0.5) * 0.3;
    rotateX := (r10 - 0.5) * 0.2
  |} in
  ret {| chaosPos := chaosPos; chaosRot := chaosRot;
         targetPos := targetPos; targetRot := targetRot |}.

(** [data.push(...)] *)
Definition push (data : list Frame) (f : Frame) : list Frame := data ++ [f].

Definition body (data : list Frame) (i : nat) : Rand R (list Frame) :=
  f <- frame i ;; ret (push data f).

Definition frames : Rand R (list Frame) := forEach body (seq 0 count) [].

End Generate.

(** [isFocused={focusedIndex === i}] *)
Definition isFocused (focusedIndex : option nat) (i : nat) : bool :=
  match focusedIndex with
  | Some j => Nat.eqb j i
  | None => false
  end.

(** The [onClick] of frame [i]:
    [setFocusedIndex(focusedIndex === i ? null : i)]; the result is the
    new value of the selection. *)
Definition onClick (focusedIndex : option nat) (i : nat) : option nat :=
  if isFocused focusedIndex i then None else Some i.

(** The photo of frame [i]:
    [userPhotos.length > 0 ? userPhotos[i % userPhotos.length] : null]. *)
Definition photoUrl (userPhotos : list string) (i : nat) : option string :=
  if (0 <? length userPhotos)%nat
  then nth_error userPhotos (i mod length userPhotos)
  else None.

End PhotoFrames.

(** ** The window-level custom events *)

Module Events.

(** The [detail] of a ['hand-move'] event: [{ x, y, active: true }] or
    [{ active: false }]. *)
Inductive HandMoveDetail : Type :=
| active_at (x y : Q)
| inactive.

Inductive Event : Type :=
| hand_move (detail : HandMoveDetail)
| tree_spin (velocity : Q).

Definition is_tree_spin (e : Event) : bool :=
  match e with tree_spin _ => true | hand_move _ => false end.

End Events.

(** ** [ChristmasTree] (in [Foliage.tsx]) *)

Module ChristmasTree.

Import Types THREE.
Local Open Scope R_scope.

(** [lastPointer.current] *)
Record Pointer : Type := { x : R; y : R }.

(** [groupRef.current.rotation], of which the code uses [x] and [y]. *)
Record Rotation : Type := { rotation_x : R; rotation_y : R }.

(** A pointer or touch event.  [clientX] and [clientY] are the values of
    [e.clientX || (e.touches && e.touches[0].clientX)] and of its [Y]
    twin. *)
Record PointerEvent : Type := {
  defaultPrevented : bool;
  clientX : R;
  clientY : R
}.

(** The refs and the state cell of the component; [groupRef] is [None]
    while the group is not mounted. *)
Record Tree : Type := {
  velocityY : R;
  velocityX : R;
  isDragging : bool;
  lastPointer : Pointer;
  progressRef : R;
  focusedPhotoIndex : option nat;
  groupRef : option Rotation
}.

Definition initial : Tree := {|
  velocityY := 0; velocityX := 0; isDragging := false;
  lastPointer := {| x := 0; y := 0 |};
  progressRef := 0; focusedPhotoIndex := None; groupRef := None
|}.

Definition handlePointerDown (e : PointerEvent) (s : Tree) : Tree :=
  if defaultPrevented e then s
  else {|
    velocityY := 0;
    velocityX := 0;
    isDragging := true;
    lastPointer := {| x := clientX e; y := clientY e |};
    progressRef := progressRef s;
    focusedPhotoIndex := focusedPhotoIndex s;
    groupRef := groupRef s
  |}.

Definition sensitivity : R := 0.0025.

Definition handlePointerMove (state : TreeState) (e : PointerEvent) (s : Tree) : Tree :=
  if negb (isDragging s) then s
  else
    let deltaX := clientX e - x (lastPointer s) in
    let deltaY := clientY e - y (lastPointer s) in
    let velocityY' := deltaX * sensitivity in
    let velocityX' :=
      match state with
      | CHAOS => deltaY * sensitivity
      | FORMED => velocityX s
      end in
    {|
      velocityY := velocityY';
      velocityX := velocityX';
      isDragging := isDragging s;
      lastPointer := {| x := clientX e; y := clientY e |};
      progressRef := progressRef s;
      focusedPhotoIndex := focusedPhotoIndex s;
      groupRef :=
        match groupRef s with
        | Some r => Some {| rotation_x := rotation_x r + velocityX';
                            rotation_y := rotation_y r + velocityY' |}
        | None => None
        end
    |}.

Definition handlePointerUp (s : Tree) : Tree := {|
  velocityY := velocityY s;
  velocityX := velocityX s;
  isDragging := false;
  lastPointer := lastPointer s;
  progressRef := progressRef s;
  focusedPhotoIndex := focusedPhotoIndex s;
  groupRef := groupRef s
|}.

(** The ['tree-spin'] listener. *)
Definition onSpin (velocity : R) (s : Tree) : Tree :=
  if isDragging s then s
  else {|
    velocityY := velocityY s + velocity;
    velocityX := velocityX s;
    isDragging := isDragging s;
    lastPointer := lastPointer s;
    progressRef := progressRef s;
    focusedPhotoIndex := focusedPhotoIndex s;
    groupRef := groupRef s
  |}.

(** [state === TreeState.FORMED ? 1 : 0] *)
Definition target (state : TreeState) : R :=
  match state with FORMED => 1 | CHAOS => 0 end.

(** Step 1 of the frame callback: the new value of [progressRef.current]. *)
Definition advance (state : TreeState) (progress delta : R) : R :=
  damp progress (target state) 2.0 delta.

(** [if (Math.abs(v) < 0.0001) v = 0] *)
Definition stopTiny (v : R) : R :=
  if Rlt_dec (Rabs v) 0.0001 then 0 else v.

(** Step 2 of the frame callback, on a mounted group that is not
    dragged: the new rotation and the new velocities [(velocityY,
    velocityX)]. *)
Definition physics (state : TreeState) (r : Rotation) (vY vX : R)
  : Rotation * (R * R) :=
  let r1 := {| rotation_x := rotation_x r + vX; rotation_y := rotation_y r + vY |} in
  let friction := 0.98 in
  let vY' := stopTiny (vY * friction) in
  let vX' := stopTiny (vX * friction) in
  let r2 :=
    if Rlt_dec (Rabs vY') 0.001 then
      if Rlt_dec (Rabs vX') 0.001 then
        match state with
        | FORMED => {| rotation_x := lerp (rotation_x r1) 0 0.05;
                       rotation_y := rotation_y r1 + 0.001 |}
        | CHAOS => {| rotation_x := rotation_x r1 + 0.0003;
                      rotation_y := rotation_y r1 + 0.0005 |}
        end
      else r1
    else r1 in
  (r2, (vY', vX')).

Definition useFrame (state : TreeState) (delta : R) (s : Tree) : Tree :=
  let progress' := advance state (progressRef s) delta in
  match groupRef s, isDragging s with
  | Some r, false =>
      let '(r', (vY', vX')) := physics state r (velocityY s) (velocityX s) in
      {| velocityY := vY'; velocityX := vX';
         isDragging := isDragging s; lastPointer := lastPointer s;
         progressRef := progress';
         focusedPhotoIndex := focusedPhotoIndex s;
         groupRef := Some r' |}
  | _, _ =>
      {| velocityY := velocityY s; velocityX := velocityX s;
         isDragging := isDragging s; lastPointer := lastPointer s;
         progressRef := progress';
         focusedPhotoIndex := focusedPhotoIndex s;
         groupRef := groupRef s |}
  end.

(** [setFocusedPhotoIndex] *)
Definition setFocusedPhotoIndex (v : option nat) (s : Tree) : Tree := {|
  velocityY := velocityY s;
  velocityX := velocityX s;
  isDragging := isDragging s;
  lastPointer := lastPointer s;
  progressRef := progressRef s;
  focusedPhotoIndex := v;
  groupRef := groupRef s
|}.

(** [onPointerMissed]: a click that hits no object of the group. *)
Definition onBackgroundClick (s : Tree) : Tree :=
  match isDragging s, focusedPhotoIndex s with
  | false, Some _ => setFocusedPhotoIndex None s
  | _, _ => s
  end.

(** A click on photo frame [i]: the frame's [onClick], with the
    selection and its setter as [TreeComponents] passes them down. *)
Definition onFrameClick (i : nat) (s : Tree) : Tree :=
  setFocusedPhotoIndex (PhotoFrames.onClick (focusedPhotoIndex s) i) s.

(** The progress after each frame of a run of frames with the tree state
    held fixed. *)
Fixpoint trajectory (state : TreeState) (progress : R) (deltas : list R) : list R :=
  match deltas with
  | [] => []
  | delta :: rest =>
      let p := advance state progress delta in
      p :: trajectory state p rest
  end.

(** The progress at the end of such a run. *)
Definition progressAfter (state : TreeState) (progress : R) (deltas : list R) : R :=
  fold_left (advance state) deltas progress.

(** The simulated time of a run. *)
Definition elapsed (deltas : list R) : R := fold_right Rplus 0 deltas.

(** The component after each frame of a run of frame callbacks, the tree
    state held fixed and no handler running in between. *)
Fixpoint frames (state : TreeState) (s : Tree) (deltas : list R) : list Tree :=
  match deltas with
  | [] => []
  | delta :: rest =>
      let s' := useFrame state delta s in
      s' :: frames state s' rest
  end.

(** The component at the end of such a run. *)
Definition run (state : TreeState) (s : Tree) (deltas : list R) : Tree :=
  fold_left (fun s delta => useFrame state delta s) deltas s.

End ChristmasTree.

(** ** [GestureController.tsx] *)

Module GestureController.

Import Types Events.
Local Open Scope Q_scope.

(** A normalized landmark of MediaPipe; the code reads [x] and [y]. *)
Record Landmark : Type := { x : Q; y : Q }.

Record Category : Type := { categoryName : string }.

(** What [recognizeForVideo] returns: per hand, the ranked categories and
    the landmarks. *)
Record Results : Type := {
  gestures : list (list Category);
  landmarks : list (list Landmark)
}.

(** One run of [predictWebcam], seen from its guards. *)
Inductive VideoFrame : Type :=
| stale
    (* no video or recognizer yet, [readyState < 2], or [currentTime] is
       that of the last processed frame: nothing is done *)
| fresh (results : option Results)
    (* a new video frame; [None] when [recognizeForVideo] threw and
       [results] stayed [undefined] *).

(** The state cells and refs the polling loop writes; [treeState] is the
    cell behind [setTreeState]. *)
Record State : Type := {
  treeState : TreeState;
  previousHandX : option Q;
  handPos : option (Q * Q);
  detectedGesture : string
}.

(** [Math.abs(delta) > 0.008] *)
Definition isSwipe (delta : Q) : bool :=
  if Qlt_le_dec 0.008 (Qabs delta) then true else false.

(** Section 1 of the detection branch. *)
Definition classify (name : string) (current : TreeState) : TreeState :=
  if String.eqb name "Open_Palm" then CHAOS
  else if String.eqb name "Closed_Fist" then FORMED
  else current.

(** Section 3 of the detection branch: the ['tree-spin'] events it
    dispatches. *)
Definition swipe (previous : option Q) (handX : Q) : list Event :=
  match previous with
  | Some prev =>
      let delta := handX - prev in
      if isSwipe delta then [tree_spin (delta * 1.2)] else []
  | None => []
  end.

(** The detection branch, for the first category of the first hand and
    the landmarks 0 and 9 of the first hand. *)
Definition detected (gesture : Category) (wrist middleFinger : Landmark) (s : State)
  : State * list Event :=
  let centerX := (x wrist + x middleFinger) / 2 in
  let centerY := (y wrist + y middleFinger) / 2 in
  let ndcX := (1 - centerX) * 2 - 1 in
  let ndcY := - (centerY * 2 - 1) in
  let handX := 1 - centerX in
  ({| treeState := classify (categoryName gesture) (treeState s);
      previousHandX := Some handX;
      handPos := Some (1 - centerX, centerY);
      detectedGesture := categoryName gesture |},
   hand_move (active_at ndcX ndcY) :: swipe (previousHandX s) handX).

(** The [else] branch: hand lost. *)
Definition handLost (s : State) : State * list Event :=
  ({| treeState := treeState s;
      previousHandX := None;
      handPos := None;
      detectedGesture := "" |},
   [hand_move inactive]).

(** One run of [predictWebcam]: the new state and the events dispatched,
    in order.  [None] is the [TypeError] JavaScript raises when
    [gestures[0][0]], [landmarks[0][0]] or [landmarks[0][9]] is
    [undefined]. *)
Definition predictWebcam (s : State) (f : VideoFrame) : option (State * list Event) :=
  match f with
  | stale => Some (s, [])
  | fresh (Some {| gestures := g0 :: _; landmarks := l0 :: _ |}) =>
      match nth_error g0 0, nth_error l0 0, nth_error l0 9 with
      | Some gesture, Some wrist, Some middleFinger =>
          Some (detected gesture wrist middleFinger s)
      | _, _, _ => None
      end
  | fresh _ => Some (handLost s)
  end.

(** The polling loop over a stream of video frames: for each run, the
    state it leaves and the events it dispatches; the loop stops at a
    [TypeError], after which no further run is scheduled. *)
Fixpoint poll (s : State) (fs : list VideoFrame) : list (State * list Event) :=
  match fs with
  | [] => []
  | f :: rest =>
      match predictWebcam s f with
      | Some (s', es) => (s', es) :: poll s' rest
      | None => []
      end
  end.

(** A result with one hand, as MediaPipe builds it: 21 landmarks, of which
    only 0 and 9 matter here. *)
Definition oneHand (name : string) (wrist middleFinger : Landmark) : VideoFrame :=
  fresh (Some {|
    gestures := [[ {| categoryName := name |} ]];
    landmarks := [ wrist :: repeat wrist 8 ++ middleFinger :: repeat middleFinger 11 ]
  |}).

(** A hand whose wrist and middle-finger base are at the same point, so
    that the palm centre is that point: [handX = 1 - cx]. *)
Definition handAt (name : string) (handX : Q) : VideoFrame :=
  let p := {| x := 1 - handX; y := 0.5 |} in
  oneHand name p p.

End GestureController.

(** ** [MagicalDust.tsx] *)

Module MagicalDust.

Import Random Events.
Local Open Scope Q_scope.
Local Open Scope rand_scope.

(** [handTarget.current] *)
Record HandTarget : Type := { x : Q; y : Q; active : bool }.

Definition initialHandTarget : HandTarget := {| x := 0; y := 0; active := false |}.

(** The ['hand-move'] listener. *)
Definition onHandMove (detail : HandMoveDetail) (h : HandTarget) : HandTarget :=
  match detail with
  | active_at ex ey => {| x := ex; y := ey; active := true |}
  | inactive => {| x := x h; y := y h; active := false |}
  end.

Record Viewport : Type := { width : Q; height : Q }.

(** [pointer], in normalized device coordinates. *)
Record Pointer : Type := { pointer_x : Q; pointer_y : Q }.

(** Particle [i]: the slots [3i], [3i+1], [3i+2] of the position array
    and of [particles.vel]. *)
Record Particle : Type := {
  px : Q; py : Q; pz : Q;
  vx : Q; vy : Q; vz : Q
}.

(** [a !== 0] *)
Definition nonzero (a : Q) : bool := negb (Qeq_bool a 0).

(** [a < b] *)
Definition Qltb (a b : Q) : bool := if Qlt_le_dec a b then true else false.

(** The attraction point of the frame: [(targetX, targetY, isActive)]. *)
Definition attraction (viewport : Viewport) (pointer : Pointer) (h : HandTarget)
  : Q * Q * bool :=
  if active h then
    (x h * width viewport / 2, y h * height viewport / 2, true)
  else if nonzero (pointer_x pointer) || nonzero (pointer_y pointer) then
    (pointer_x pointer * width viewport / 2, pointer_y pointer * height viewport / 2, true)
  else (0, 0, false).

Definition targetZ : Q := 8.

(** The velocity of a particle after the [if (!isActive) ... else ...] of
    the loop body. *)
Definition updateVelocity (handActive isActive : bool) (targetX targetY : Q)
    (p : Particle) : Rand Q (Q * Q * Q) :=
  if negb isActive then
    ret (vx p * 0.95, vy p * 0.95, vz p * 0.95)
  else
    let dx := targetX - px p in
    let dy := targetY - py p in
    let dz := targetZ - pz p in
    let distSq := dx * dx + dy * dy + dz * dz in
    let vy1 := vy p - 0.0001 in
    let '(vx2, vy2, vz2) :=
      if Qltb distSq 200 then
        let force := if handActive then 0.005 else 0.008 in
        (vx p + (dx * force * 0.02 + dy * 0.002),
         vy1 + (dy * force * 0.02 - dx * 0.002),
         vz p + dz * force * 0.02)
      else (vx p, vy1, vz p) in
    t1 <- Math_random ;;
    t2 <- Math_random ;;
    t3 <- Math_random ;;
    ret ((vx2 + (t1 - 0.5) * 0.001) * 0.97,
         (vy2 + (t2 - 0.5) * 0.001) * 0.97,
         (vz2 + (t3 - 0.5) * 0.001) * 0.97).

(** [positions[idx..] += velocities[idx..]] *)
Definition integrate (p : Particle) (v : Q * Q * Q) : Particle :=
  let '(vx', vy', vz') := v in
  {| px := px p + vx'; py := py p + vy'; pz := pz p + vz';
     vx := vx'; vy := vy'; vz := vz' |}.

(** The respawn test and its effect.  [py] is the local of the loop body,
    read from the position array before the velocity is integrated. *)
Definition respawn (py0 : Q) (p : Particle) : Rand Q Particle :=
  if Qltb py0 (-15) then
    r1 <- Math_random ;;
    r2 <- Math_random ;;
    ret {| px := (r1 - 0.5) * 20; py := 15; pz := (r2 - 0.5) * 20;
           vx := 0; vy := 0; vz := 0 |}
  else ret p.

(** The body of the [for] loop, for one particle. *)
Definition stepParticle (handActive isActive : bool) (targetX targetY : Q)
    (p : Particle) : Rand Q Particle :=
  let py0 := py p in
  v <- updateVelocity handActive isActive targetX targetY p ;;
  respawn py0 (integrate p v).

(** The [for] loop over all particles. *)
Fixpoint stepAll (handActive isActive : bool) (targetX targetY : Q)
    (ps : list Particle) : Rand Q (list Particle) :=
  match ps with
  | [] => ret []
  | p :: rest =>
      p' <- stepParticle handActive isActive targetX targetY p ;;
      rest' <- stepAll handActive isActive targetX targetY rest ;;
      ret (p' :: rest')
  end.

(** The component: [meshRef.current] is set once the points are mounted;
    the particles are the position array of its geometry with
    [particles.vel]. *)
Record Dust : Type := {
  meshRef : bool;
  particles : list Particle;
  handTarget : HandTarget
}.

(** The frame callback. *)
Definition useFrame (viewport : Viewport) (pointer : Pointer) (d : Dust) : Rand Q Dust :=
  if negb (meshRef d) then ret d
  else
    let '(targetX, targetY, isActive) := attraction viewport pointer (handTarget d) in
    ps <- stepAll (active (handTarget d)) isActive targetX targetY (particles d) ;;
    ret {| meshRef := meshRef d; particles := ps; handTarget := handTarget d |}.

(** One turn of the loop of the [particles] memo: a position in the cube
    of side 25 and a zero velocity. *)
Definition initParticle : Rand Q Particle :=
  r1 <- Math_random ;;
  r2 <- Math_random ;;
  r3 <- Math_random ;;
  ret {| px := (r1 - 0.5) * 25; py := (r2 - 0.5) * 25; pz := (r3 - 0.5) * 25;
         vx := 0; vy := 0; vz := 0 |}.

(** The [particles] memo for [count] particles. *)
Fixpoint initParticles (count : nat) : Rand Q (list Particle) :=
  match count with
  | O => ret []
  | S k =>
      p <- initParticle ;;
      rest <- initParticles k ;;
      ret (p :: rest)
  end.

End MagicalDust.

(** ** The quantities the specification names *)

Module Spec.

Local Open Scope R_scope.

(** The golden angle of 137.5 degrees, in radians. *)
Definition goldenAngle : R := 137.5 * (PI / 180).

(** The target among what a turn of the ornament loop computes. *)
Definition targetOf
    (e : Ornaments.ChaosDatum * Ornaments.TargetDatum * option Types.Color)
  : Ornaments.TargetDatum :=
  snd (fst e).

(** The bounds of the clamp of a photo frame's height. *)
Definition frameFloor (C : Types.Constants) : R := - Types.TREE_HEIGHT C / 2 + 1.
Definition frameCeiling (C : Types.Constants) : R := Types.TREE_HEIGHT C / 2 - 2.

(** [q] lies between [p] and [tgt] (on either side). *)
Definition between (p q tgt : R) : Prop :=
  (p <= q <= tgt) \/ (tgt <= q <= p).

(** Every element of the run lies between its predecessor and the
    target. *)
Fixpoint approaches (tgt p : R) (run : list R) : Prop :=
  match run with
  | [] => True
  | q :: rest => between p q tgt /\ approaches tgt q rest
  end.

(** The classification of a video frame: the name of the first category
    of the first hand, when a hand is detected. *)
Definition classification (f : GestureController.VideoFrame) : option string :=
  match f with
  | GestureController.fresh
      (Some {| GestureController.gestures := g0 :: _;
               GestureController.landmarks := _ :: _ |}) =>
      option_map GestureController.categoryName (nth_error g0 0)
  | _ => None
  end.

(** A processed video frame on which no hand is detected: recognition
    failed, or it returned no gesture or no landmarks. *)
Definition noHand (f : GestureController.VideoFrame) : Prop :=
  match f with
  | GestureController.stale => False
  | GestureController.fresh None => True
  | GestureController.fresh (Some r) =>
      GestureController.gestures r = [] \/ GestureController.landmarks r = []
  end.

(** A run that detects no hand or processes no frame at all. *)
Definition quiet (f : GestureController.VideoFrame) : Prop :=
  f = GestureController.stale \/ noHand f.

(** The ['tree-spin'] events among those dispatched. *)
Definition spins (es : list Events.Event) : list Events.Event :=
  filter Events.is_tree_spin es.

(** The state a run of the polling loop ends in. *)
Definition stateAfter (s : GestureController.State)
    (fs : list GestureController.VideoFrame) : GestureController.State :=
  last (map fst (GestureController.poll s fs)) s.

(** The horizontal hand position the mapper derives from the landmarks. *)
Definition handX (wrist middleFinger : GestureController.Landmark) : Q :=
  (1 - (GestureController.x wrist + GestureController.x middleFinger) / 2)%Q.

(** The horizontal hand position of a video frame, when a hand is
    detected on it. *)
Definition handPosition (f : GestureController.VideoFrame) : option Q :=
  match f with
  | GestureController.fresh
      (Some {| GestureController.gestures := _ :: _;
               GestureController.landmarks := l0 :: _ |}) =>
      match nth_error l0 0, nth_error l0 9 with
      | Some wrist, Some middleFinger => Some (handX wrist middleFinger)
      | _, _ => None
      end
  | _ => None
  end.

(** An inactive frame of the dust: the velocity decayed by 0.95 on each
    axis and integrated into the position. *)
Definition decayed (p : MagicalDust.Particle) : MagicalDust.Particle :=
  {| MagicalDust.px := MagicalDust.px p + MagicalDust.vx p * 0.95;
     MagicalDust.py := MagicalDust.py p + MagicalDust.vy p * 0.95;
     MagicalDust.pz := MagicalDust.pz p + MagicalDust.vz p * 0.95;
     MagicalDust.vx := MagicalDust.vx p * 0.95;
     MagicalDust.vy := MagicalDust.vy p * 0.95;
     MagicalDust.vz := MagicalDust.vz p * 0.95 |}%Q.

End Spec.


(** ** [Foliage] (in [Foliage.tsx]) *)

Module Foliage.

Import Types Random THREE.
Local Open Scope R_scope.
Local Open Scope rand_scope.

(** [Math.cbrt] *)
Definition Math_cbrt (a : R) : R :=
  if Req_dec_T a 0 then 0
  else if Rlt_dec a 0 then - Rpower (- a) (/ 3)
  else Rpower a (/ 3).

(** Point [i] of the cloud: the slots [3i .. 3i+2] of [chaosPositions] and
    of [targetPositions], and slot [i] of [randoms]. *)
Record Point : Type := {
  aChaosPos : Vector3.t;
  aTargetPos : Vector3.t;
  aRandom : R
}.

Section Generate.

Variable C : Constants.

Definition radius : R := TREE_RADIUS C.
Definition height : R := TREE_HEIGHT C.

(** One turn of the loop of the memo. *)
Definition point : Rand R Point :=
  r1 <- Math_random ;;
  let r := Math_cbrt r1 * 18 in
  r2 <- Math_random ;;
  let theta := r2 * PI * 2 in
  r3 <- Math_random ;;
  let phi := acos (r3 * 2 - 1) in
  r4 <- Math_random ;;
  let h := r4 in
  let coneR := (1 - h) * radius in
  r5 <- Math_random ;;
  let angle := r5 * PI * 2 in
  r6 <- Math_random ;;
  let dist := sqrt r6 * coneR in
  r7 <- Math_random ;;
  ret {| aChaosPos := Vector3.mk (r * sin phi * cos theta)
                                 (r * sin phi * sin theta)
                                 (r * cos phi);
         aTargetPos := Vector3.mk (cos angle * dist)
                                  (h * height - height / 2)
                                  (sin angle * dist);
         aRandom := r7 |}.

(** The writes of a turn to the three arrays. *)
Definition push (ps : list Point) (p : Point) : list Point := ps ++ [p].

Definition body (ps : list Point) (i : nat) : Rand R (list Point) :=
  p <- point ;; ret (push ps p).

(** The memo, for [count] points. *)
Definition cloud (count : nat) : Rand R (list Point) := forEach body (seq 0 count) [].

End Generate.

(** GLSL [clamp], [smoothstep] and [mix]. *)
Definition clamp (a lo hi : R) : R := Rmin (Rmax a lo) hi.

Definition smoothstep (edge0 edge1 a : R) : R :=
  let t := clamp ((a - edge0) / (edge1 - edge0)) 0 1 in
  t * t * (3 - 2 * t).

Definition mix (a b t : R) : R := a * (1 - t) + b * t.

(** The vertex shader up to [pos]: the position of a point before the
    model-view and projection matrices are applied. *)
Definition vertexShader (uProgress uTime : R) (p : Point) : Vector3.t :=
  let pos := Vector3.mk (mix (Vector3.x (aChaosPos p)) (Vector3.x (aTargetPos p)) uProgress)
                        (mix (Vector3.y (aChaosPos p)) (Vector3.y (aTargetPos p)) uProgress)
                        (mix (Vector3.z (aChaosPos p)) (Vector3.z (aTargetPos p)) uProgress) in
  let windIntensity := smoothstep 0.8 1.0 uProgress in
  if Rlt_dec 0 windIntensity then
    let wind := sin (uTime * 2.0 + Vector3.y pos * 0.5) * 0.05 * windIntensity in
    Vector3.mk (Vector3.x pos + wind) (Vector3.y pos) (Vector3.z pos + wind)
  else pos.

End Foliage.

(** ** [Ribbon] (in [Foliage.tsx]) *)

Module Ribbon.

Import Types THREE.
Local Open Scope R_scope.

Definition turns : R := 5.5.
Definition pointsCount : nat := 400.

Section Curve.

Variable C : Constants.

Definition baseRadius : R := TREE_RADIUS C + 0.5.

(** Control point [i] of the spiral. *)
Definition curvePoint (i : nat) : Vector3.t :=
  let t := INR i / INR pointsCount in
  let angle := t * PI * 2 * turns in
  let y := lerp (-7.0) 8.5 t in
  let radius := (1 - t) * baseRadius + sin (t * 20) * 0.1 in
  Vector3.mk (cos angle * radius) y (sin angle * radius).

(** [for (let i = 0; i <= pointsCount; i++) points.push(...)] *)
Definition points : list Vector3.t := map curvePoint (seq 0 (S pointsCount)).

End Curve.

(** The fields of the mesh the frame callback writes. *)
Record Mesh : Type := { scale : R; visible : bool; rotation_y : R }.

(** The frame callback on a mounted mesh. *)
Definition useFrame (state : TreeState) (progress : R) (m : Mesh) : Mesh :=
  {| scale := lerp 0.01 1 progress;
     visible := match state with FORMED => true | CHAOS => false end;
     rotation_y := rotation_y m + 0.003 |}.

End Ribbon.

(** ** [Star] (in [Foliage.tsx]) *)

Module Star.

Import THREE.
Local Open Scope R_scope.

Record Mesh : Type := { position_y : R; scale : R; rotation_y : R }.

(** The frame callback on a mounted mesh, [p] being [progressRef.current]. *)
Definition useFrame (p : R) (m : Mesh) : Mesh :=
  {| position_y := lerp 15 7.5 p;
     scale := p;
     rotation_y := rotation_y m + 0.01 |}.

End Star.

(** ** [PhotoContent] (in [PhotoFrames.tsx]) *)

Module PhotoContent.

Local Open Scope Q_scope.

(** [texture.image]: its size in pixels. *)
Record Image : Type := { width : Q; height : Q }.

(** The fields of the texture the cover logic writes. *)
Record Texture : Type := {
  center : Q * Q;
  rotation : Q;
  repeat : Q * Q;
  offset : Q * Q
}.

(** Part 2 of the memo, "Aspect Ratio Cover logic": nothing when the
    texture has no image yet. *)
Definition cover (image : option Image) (texture : Texture) : Texture :=
  match image with
  | None => texture
  | Some img =>
      let imageAspect := width img / height img in
      let planeAspect := 1 in
      if Qlt_le_dec planeAspect imageAspect then
        {| center := (0.5, 0.5); rotation := 0;
           repeat := (planeAspect / imageAspect, 1);
           offset := ((1 - planeAspect / imageAspect) / 2, 0) |}
      else
        {| center := (0.5, 0.5); rotation := 0;
           repeat := (1, imageAspect / planeAspect);
           offset := (0, (1 - imageAspect / planeAspect) / 2) |}
  end.

End PhotoContent.

(** ** [SingleFrame] (in [PhotoFrames.tsx]) *)

Module SingleFrame.

Import THREE.
Local Open Scope R_scope.

(** The position and the scale of the frame's group.  Its quaternion,
    which the callback moves by three.js's [slerp], is left out. *)
Record Group : Type := { position : Vector3.t; scale : Vector3.t }.

(** The frame callback on a mounted group, for position and scale.
    [focus] is [Some targetLocalPos] in the branch
    [isFocused && parentGroup.current], where [targetLocalPos] is the point
    (0, 2, 18) taken into the tree group's local space by three.js. *)
Definition useFrame (data : PhotoFrames.Frame) (progress : R)
    (focus : option Vector3.t) (g : Group) : Group :=
  let vec3Dummy :=
    lerpVectors (PhotoFrames.chaosPos data) (PhotoFrames.targetPos data) progress in
  match focus with
  | Some targetLocalPos =>
      {| position := Vector3_lerp (position g) targetLocalPos 0.1;
         scale := Vector3_lerp (scale g) (Vector3.mk 2.5 2.5 2.5) 0.1 |}
  | None =>
      {| position := Vector3_lerp (position g) vec3Dummy 0.1;
         scale := Vector3_lerp (scale g) (Vector3.mk 1 1 1) 0.1 |}
  end.

End SingleFrame.

(** ** The window as event bus *)

Module Window.

Import Events.

(** [window.dispatchEvent] with the two listeners the components register:
    ['tree-spin'] reaches the tree's [onSpin], ['hand-move'] the dust's
    [onHandMove]. *)
Definition dispatchEvent (e : Event)
    (w : ChristmasTree.Tree * MagicalDust.HandTarget)
  : ChristmasTree.Tree * MagicalDust.HandTarget :=
  match e with
  | tree_spin velocity => (ChristmasTree.onSpin (Q2R velocity) (fst w), snd w)
  | hand_move detail => (fst w, MagicalDust.onHandMove detail (snd w))
  end.

(** The events of one run of the gesture mapper, dispatched in order. *)
Definition dispatchAll (es : list Event)
    (w : ChristmasTree.Tree * MagicalDust.HandTarget)
  : ChristmasTree.Tree * MagicalDust.HandTarget :=
  fold_left (fun w e => dispatchEvent e w) es w.

End Window.

(** ** The frame loop over the tree and the children that read its progress *)

Module Scene.

Import Types.

(** The tree component with the ribbon's and the star's meshes, both
    mounted. *)
Record t : Type := {
  tree : ChristmasTree.Tree;
  ribbon : Ribbon.Mesh;
  star : Star.Mesh
}.

(** One rendered frame.  [useFrame] subscribes its callback in an effect,
    and React runs the effects of [Ribbon] and [Star] before those of
    their parent [ChristmasTree]; the callbacks run in the order of
    subscription.  So in each frame the two children run first and read
    the [progressRef.current] the previous frame left, and the tree's
    callback writes the new one after them. *)
Definition frame (state : TreeState) (delta : R) (sc : t) : t :=
  let progress := ChristmasTree.progressRef (tree sc) in
  let ribbon' := Ribbon.useFrame state progress (ribbon sc) in
  let star' := Star.useFrame progress (star sc) in
  {| tree := ChristmasTree.useFrame state delta (tree sc);
     ribbon := ribbon';
     star := star' |}.

(** A run of frames, the tree state held fixed and no handler running in
    between. *)
Definition run (state : TreeState) (sc : t) (deltas : list R) : t :=
  fold_left (fun sc delta => frame state delta sc) deltas sc.

End Scene.

(** ** Auxiliary quantities *)

Module Derived.

(** The velocity of an axis of the tree after a frame of friction: the
    decay and the cut-off of [ChristmasTree.physics]. *)
Definition slow (v : R) : R := ChristmasTree.stopTiny (v * 0.98)%R.

(** An ornament instance that sits on its target: the target's position
    and rotation, and its scale on the three axes. *)
Definition atTarget (t : Ornaments.TargetDatum) : Ornaments.Object3D :=
  {| Ornaments.obj_position := Ornaments.pos t;
     Ornaments.obj_rotation := Ornaments.rot t;
     Ornaments.obj_scale :=
       THREE.Vector3.mk (Ornaments.scale t) (Ornaments.scale t) (Ornaments.scale t) |}.

(** The square of the distance of a point from the axis of the tree, and
    from the origin. *)
Definition axisDistance2 (v : THREE.Vector3.t) : R :=
  (THREE.Vector3.x v * THREE.Vector3.x v + THREE.Vector3.z v * THREE.Vector3.z v)%R.

Definition norm2 (v : THREE.Vector3.t) : R :=
  (THREE.Vector3.x v * THREE.Vector3.x v + THREE.Vector3.y v * THREE.Vector3.y v
   + THREE.Vector3.z v * THREE.Vector3.z v)%R.

(** The point at the fraction [k] of the way from [goal] to [v]. *)
Definition towards (goal v : THREE.Vector3.t) (k : R) : THREE.Vector3.t :=
  THREE.Vector3.mk
    (THREE.Vector3.x goal + (THREE.Vector3.x v - THREE.Vector3.x goal) * k)
    (THREE.Vector3.y goal + (THREE.Vector3.y v - THREE.Vector3.y goal) * k)
    (THREE.Vector3.z goal + (THREE.Vector3.z v - THREE.Vector3.z goal) * k)%R.

(** A dust particle that will not reach the floor without attraction: it
    is not below it, and the height its fall converges to is not below it
    either. *)
Definition glides (p : MagicalDust.Particle) : Prop :=
  (-15 <= MagicalDust.py p /\ -15 <= MagicalDust.py p + 19 * MagicalDust.vy p)%Q.

End Derived.

(** * Properties *)

(** ** Loops over a random source *)

Section ForEach.

Import Random.
Context {T A B : Type}.

(** A loop whose turn [i] computes an element from [draws] draws and pushes
    it on the accumulator. *)
Variable elem : nat -> Rand T B.
Variable push : A -> B -> A.
Variable draws : nat.
Variable body : A -> nat -> Rand T A.
Hypothesis elem_draws : forall i src n, snd (elem i src n) = (n + draws)%nat.
Hypothesis body_pushes :
  forall acc i src n, body acc i src n = (push acc (fst (elem i src n)), snd (elem i src n)).

(** The loop over [a, a+1, ..., a+m-1] pushes the elements of these
    indices, the element of the [j]-th turn being computed from the draws
    that start at [n + draws * j]. *)
Lemma forEach_seq (m a : nat) (acc : A) (src : nat -> T) (n : nat) :
  forEach body (seq a m) acc src n =
  (fold_left push
     (map (fun j => fst (elem (a + j) src (n + draws * j))) (seq 0 m)) acc,
   (n + draws * m)%nat).
Proof.
  revert a acc n; induction m as [|m IH]; intros a acc n.
  - cbn [seq forEach map fold_left]. unfold ret. f_equal. lia.
  - cbn [seq forEach map fold_left]. unfold bind.
    rewrite body_pushes, elem_draws, IH.
    rewrite Nat.add_0_r, Nat.mul_0_r, Nat.add_0_r.
    f_equal; [|lia]. f_equal.
    rewrite <- seq_shift, map_map. apply map_ext; intros j.
    f_equal. f_equal; lia.
Qed.

(** A list read off the accumulator, to which each push appends one
    value. *)
Variable C : Type.
Variable proj : A -> list C.
Variable value : B -> C.
Hypothesis proj_push : forall acc x, proj (push acc x) = proj acc ++ [value x].

Lemma fold_left_push (xs : list B) (acc : A) :
  proj (fold_left push xs acc) = proj acc ++ map value xs.
Proof.
  revert acc; induction xs as [|x xs IH]; intros acc; cbn [fold_left map].
  - now rewrite app_nil_r.
  - now rewrite IH, proj_push, <- app_assoc.
Qed.

(** The list after a loop from index 0 on an accumulator whose list is
    empty. *)
Lemma forEach_collects (m : nat) (acc : A) (src : nat -> T) (n : nat) :
  proj acc = [] ->
  proj (fst (forEach body (seq 0 m) acc src n)) =
  map (fun j => value (fst (elem j src (n + draws * j)))) (seq 0 m).
Proof.
  intros Hnil. rewrite forEach_seq. cbn [fst].
  now rewrite fold_left_push, Hnil, map_map.
Qed.

Lemma forEach_collects_nth (m i : nat) (acc : A) (src : nat -> T) (n : nat) :
  proj acc = [] -> (i < m)%nat ->
  nth_error (proj (fst (forEach body (seq 0 m) acc src n))) i =
  Some (value (fst (elem i src (n + draws * i)))).
Proof.
  intros Hnil Hi. rewrite forEach_collects by exact Hnil.
  rewrite nth_error_map, nth_error_nth' with (d := 0%nat) by (now rewrite length_seq).
  now rewrite seq_nth by exact Hi.
Qed.

End ForEach.

(** ** Bounds on pi *)

Lemma PI_lower : (3.14 < PI)%R.
Proof.
  pose proof (PI_2_3_7_ineq 1) as [H _].
  unfold sum_f_R0, tg_alt, PI_2_3_7_tg, Ratan_seq in H. simpl in H. lra.
Qed.

Lemma PI_upper : (PI < 3.15)%R.
Proof.
  pose proof (PI_2_3_7_ineq 1) as [_ H].
  unfold sum_f_R0, tg_alt, PI_2_3_7_tg, Ratan_seq in H. simpl in H. lra.
Qed.

(** No multiple of a full turn lies strictly between 134 and 136: 21 turns
    are less, 22 turns are more. *)
Lemma no_full_turns_near_135 (k : Z) (d : R) :
  (134 < d < 136)%R -> (d <> 2 * PI * IZR k)%R.
Proof.
  intros [Hlo Hhi] Heq.
  pose proof PI_lower as Hl. pose proof PI_upper as Hu.
  destruct (Z_le_gt_dec k 21) as [Hk|Hk].
  - apply IZR_le in Hk. nra.
  - assert (22 <= k)%Z as Hk' by lia. apply IZR_le in Hk'. nra.
Qed.

(** ** Ornaments: the angle of each entity *)

Section OrnamentAngles.

Import Types Random THREE Ornaments Spec.
Local Open Scope R_scope.

Variable C : Constants.
Variable count : nat.
Variable type : OrnamentType.

Lemma entity_draws (i : nat) (src : nat -> R) (n : nat) :
  snd (entity C count type i src n) = (n + 10)%nat.
Proof. unfold entity, bind, Math_random, ret; cbn [snd]. lia. Qed.

Lemma body_pushes (acc : TransformData) (i : nat) (src : nat -> R) (n : nat) :
  body C count type acc i src n =
  (push acc (fst (entity C count type i src n)), snd (entity C count type i src n)).
Proof.
  unfold body, bind, ret. now destruct (entity C count type i src n).
Qed.

Lemma targetData_push (acc : TransformData) (e : ChaosDatum * TargetDatum * option Color) :
  targetData (push acc e) = targetData acc ++ [targetOf e].
Proof. destruct e as [[chaos target] color]. reflexivity. Qed.

(** The target of the entity at index [i] is the one its turn computes,
    from the draws that start at [n + 10 i]. *)
Lemma generateTransformData_target (src : nat -> R) (n i : nat) :
  (i < count)%nat ->
  nth_error (targetData (fst (generateTransformData C count type src n))) i =
  Some (targetOf (fst (entity C count type i src (n + 10 * i)%nat))).
Proof.
  intros Hi. unfold generateTransformData.
  apply (forEach_collects_nth (entity C count type) push 10 (body C count type)
           entity_draws body_pushes TargetDatum targetData targetOf targetData_push);
    [reflexivity | exact Hi].
Qed.

(** The angle of that target is [i * 137.5], taken as radians, plus half
    of the eighth draw of the turn; its position is at that angle around
    the axis. *)
Lemma entity_angle (i : nat) (src : nat -> R) (n : nat) :
  let t := targetOf (fst (entity C count type i src n)) in
  let angle := INR i * 137.5 + src (n + 7)%nat * 0.5 in
  Euler.y (rot t) = angle
  /\ exists rAtHeight,
       Vector3.x (pos t) = cos angle * rAtHeight
       /\ Vector3.z (pos t) = sin angle * rAtHeight.
Proof.
  unfold entity, bind, Math_random, ret, targetOf; cbn.
  replace (S (S (S (S (S (S (S n))))))) with (n + 7)%nat by lia.
  split; [reflexivity|]. eexists; split; reflexivity.
Qed.

End OrnamentAngles.

(** ** Photo frames: angle and height of each frame *)

Section FrameTargets.

Import Types Random THREE PhotoFrames Spec.
Local Open Scope R_scope.

Variable C : Constants.

Lemma frame_draws (i : nat) (src : nat -> R) (n : nat) :
  snd (frame C i src n) = (n + 10)%nat.
Proof. unfold frame, bind, Math_random, ret; cbn [snd]. lia. Qed.

Lemma frames_body_pushes (data : list Frame) (i : nat) (src : nat -> R) (n : nat) :
  body C data i src n = (push data (fst (frame C i src n)), snd (frame C i src n)).
Proof. unfold body, bind, ret. now destruct (frame C i src n). Qed.

(** The frames are those the turns compute, in index order. *)
Lemma frames_collects (src : nat -> R) (n : nat) :
  fst (frames C src n) =
  map (fun j => fst (frame C j src (n + 10 * j)%nat)) (seq 0 (PHOTO_COUNT C)).
Proof.
  unfold frames, count.
  apply (forEach_collects (frame C) push 10 (body C) frame_draws frames_body_pushes
           Frame (fun data => data) (fun f => f));
    reflexivity.
Qed.

(** The target of frame [i]: at [i] golden angles around the axis, at a
    clamped height. *)
Lemma frame_target (i : nat) (src : nat -> R) (n : nat) :
  exists h finalRadius,
    targetPos (fst (frame C i src n)) =
    Vector3.mk (cos (INR i * goldenAngle) * finalRadius)
               (clampHeight C h)
               (sin (INR i * goldenAngle) * finalRadius).
Proof.
  unfold frame, bind, Math_random, ret; cbn.
  replace (INR i * goldenAngle) with (angleOf i)
    by (unfold angleOf, goldenAngle; ring).
  eexists; eexists; reflexivity.
Qed.

Lemma clampHeight_bounds (h : R) :
  3 <= TREE_HEIGHT C ->
  frameFloor C <= clampHeight C h <= frameCeiling C.
Proof.
  intros H3. unfold clampHeight, frameFloor, frameCeiling, height.
  split.
  - apply Rmax_l.
  - apply Rmax_lub; [lra | apply Rmin_l].
Qed.

End FrameTargets.

(** The photo frames do convert the increment: frame [i] of the memo sits
    at [i] golden angles. *)
Lemma PhotoFrames_angle_golden
    (C : Types.Constants) (src : nat -> R) (n i : nat) :
  (i < Types.PHOTO_COUNT C)%nat ->
  exists f finalRadius,
    nth_error (fst (PhotoFrames.frames C src n)) i = Some f
    /\ THREE.Vector3.x (PhotoFrames.targetPos f)
       = (cos (INR i * Spec.goldenAngle) * finalRadius)%R
    /\ THREE.Vector3.z (PhotoFrames.targetPos f)
       = (sin (INR i * Spec.goldenAngle) * finalRadius)%R.
Proof.
  intros Hi. rewrite frames_collects.
  destruct (frame_target C i src (n + 10 * i)) as (h & r & Hpos).
  exists (fst (PhotoFrames.frame C i src (n + 10 * i))), r.
  split.
  - rewrite nth_error_map, nth_error_nth' with (d := 0%nat) by (now rewrite length_seq).
    now rewrite seq_nth by exact Hi.
  - rewrite Hpos. split; reflexivity.
Qed.

(** C1 (fails for the ornaments).  In a sphere or box population of at
    least two ornaments, generated from draws in [0,1), the angle of the
    entity at index 1, which the code stores as [rot.y] and feeds to
    [cos] and [sin] for the position, is [137.5 + draw / 2]: the increment
    is used as radians.  That angle is not one golden angle (137.5
    degrees) plus a jitter of at most 0.5, not even up to full turns. *)
Theorem C1_ornament_angle_is_137_5_radians
    (C : Types.Constants) (count : nat) (type : Ornaments.OrnamentType)
    (src : nat -> R) (n : nat) :
  (forall m, 0 <= src m < 1)%R ->
  (1 < count)%nat ->
  exists (t : Ornaments.TargetDatum) (angle rAtHeight : R),
    nth_error (Ornaments.targetData
                 (fst (Ornaments.generateTransformData C count type src n))) 1
      = Some t
    /\ angle = (137.5 + src (n + 17)%nat * 0.5)%R
    /\ THREE.Euler.y (Ornaments.rot t) = angle
    /\ THREE.Vector3.x (Ornaments.pos t) = (cos angle * rAtHeight)%R
    /\ THREE.Vector3.z (Ornaments.pos t) = (sin angle * rAtHeight)%R
    /\ forall (jitter : R) (k : Z),
         (0 <= jitter <= 0.5)%R ->
         angle <> (1 * Spec.goldenAngle + jitter + 2 * PI * IZR k)%R.
Proof.
  intros Hsrc Hcount.
  destruct (entity_angle C count type 1 src (n + 10 * 1)) as (Hy & r & Hx & Hz).
  assert (Hangle : (INR 1 * 137.5 + src (n + 10 * 1 + 7)%nat * 0.5
                    = 137.5 + src (n + 17)%nat * 0.5)%R).
  { simpl INR. replace (n + 10 * 1 + 7)%nat with (n + 17)%nat by lia. ring. }
  rewrite Hangle in Hy, Hx, Hz.
  exists (Spec.targetOf (fst (Ornaments.entity C count type 1 src (n + 10 * 1)))).
  exists (137.5 + src (n + 17)%nat * 0.5)%R, r.
  split; [apply generateTransformData_target, Hcount|].
  split; [reflexivity|].
  split; [exact Hy|]. split; [exact Hx|]. split; [exact Hz|].
  intros jitter k Hj Heq.
  pose proof (Hsrc (n + 17)%nat) as Hr.
  pose proof PI_lower as Hl. pose proof PI_upper as Hu.
  apply (no_full_turns_near_135 k
           (137.5 + src (n + 17)%nat * 0.5 - 1 * Spec.goldenAngle - jitter)%R).
  - unfold Spec.goldenAngle. lra.
  - lra.
Qed.

(** The theorem above at two spheres and a source of zeros. *)
Lemma C1_ornament_angle_witness :
  exists (t : Ornaments.TargetDatum) (angle rAtHeight : R),
    nth_error (Ornaments.targetData
                 (fst (Ornaments.generateTransformData
                         {| Types.TREE_HEIGHT := 15; Types.TREE_RADIUS := 5;
                            Types.ORNAMENT_COUNT := 2; Types.PHOTO_COUNT := 2 |}
                         2 Ornaments.sphere (fun _ => 0%R) 0))) 1
      = Some t
    /\ angle = (137.5 + 0 * 0.5)%R
    /\ THREE.Euler.y (Ornaments.rot t) = angle
    /\ THREE.Vector3.x (Ornaments.pos t) = (cos angle * rAtHeight)%R
    /\ THREE.Vector3.z (Ornaments.pos t) = (sin angle * rAtHeight)%R
    /\ forall (jitter : R) (k : Z),
         (0 <= jitter <= 0.5)%R ->
         angle <> (1 * Spec.goldenAngle + jitter + 2 * PI * IZR k)%R.
Proof.
  apply (C1_ornament_angle_is_137_5_radians _ 2 Ornaments.sphere (fun _ => 0%R) 0).
  - intros _. lra.
  - lia.
Defined.



(** ** The progress controller *)

Section Progress.

Import Types THREE ChristmasTree Spec.
Local Open Scope R_scope.

Variable state : TreeState.

Lemma advance_formula (p delta : R) :
  advance state p delta = p + (target state - p) * (1 - exp (- (2 * delta))).
Proof.
  unfold advance, damp, lerp.
  replace 2.0 with 2 by lra.
  replace (Ropp 2 * delta) with (- (2 * delta)) by ring. ring.
Qed.

(** The distance to the target shrinks by the factor [exp (-2 delta)]. *)
Lemma advance_error (p delta : R) :
  advance state p delta - target state = (p - target state) * exp (- (2 * delta)).
Proof.
  rewrite advance_formula. ring.
Qed.

Lemma damping_factor (delta : R) : 0 <= delta -> 0 < exp (- (2 * delta)) <= 1.
Proof.
  intros Hd. split; [apply exp_pos|].
  rewrite <- exp_0. destruct Hd as [Hd|Hd].
  - left. apply exp_increasing. lra.
  - right. f_equal. lra.
Qed.

Lemma advance_between (p delta : R) :
  0 <= delta -> between p (advance state p delta) (target state).
Proof.
  intros Hd. pose proof (advance_error p delta) as He.
  pose proof (damping_factor delta Hd) as [H0 H1].
  unfold between.
  destruct (Rle_lt_dec p (target state)); [left | right]; nra.
Qed.

Lemma target_unit : 0 <= target state <= 1.
Proof. destruct state; simpl; lra. Qed.

Lemma advance_unit (p delta : R) :
  0 <= p <= 1 -> 0 <= delta -> 0 <= advance state p delta <= 1.
Proof.
  intros Hp Hd. pose proof target_unit as Ht.
  destruct (advance_between p delta Hd) as [H|H]; lra.
Qed.

Lemma trajectory_approaches (deltas : list R) (p : R) :
  Forall (fun d => 0 <= d) deltas ->
  approaches (target state) p (trajectory state p deltas).
Proof.
  intros Hd; revert p; induction Hd as [|d ds Hd _ IH]; intros p; simpl.
  - exact I.
  - split; [apply advance_between, Hd | apply IH].
Qed.

Lemma trajectory_unit (deltas : list R) (p : R) :
  0 <= p <= 1 ->
  Forall (fun d => 0 <= d) deltas ->
  Forall (fun q => 0 <= q <= 1) (trajectory state p deltas).
Proof.
  intros Hp Hd; revert p Hp; induction Hd as [|d ds Hd _ IH]; intros p Hp; simpl.
  - constructor.
  - pose proof (advance_unit p d Hp Hd) as Hq. constructor; [exact Hq | apply IH, Hq].
Qed.

(** After a run of frames the distance to the target is the initial one
    times [exp (-2 T)], [T] the simulated time of the run. *)
Lemma progressAfter_error (deltas : list R) (p : R) :
  progressAfter state p deltas - target state =
  (p - target state) * exp (- (2 * elapsed deltas)).
Proof.
  unfold progressAfter. revert p; induction deltas as [|d ds IH]; intros p; simpl.
  - replace (- (2 * 0)) with 0 by ring. rewrite exp_0. ring.
  - rewrite IH, advance_error.
    replace (- (2 * (d + elapsed ds))) with (- (2 * d) + - (2 * elapsed ds)) by ring.
    rewrite exp_plus. ring.
Qed.

Lemma progressAfter_distance (deltas : list R) (p : R) :
  0 <= p <= 1 ->
  Rabs (progressAfter state p deltas - target state) <= exp (- (2 * elapsed deltas)).
Proof.
  intros Hp. rewrite progressAfter_error, Rabs_mult.
  pose proof target_unit as Ht.
  rewrite (Rabs_right (exp _)) by (left; apply exp_pos).
  assert (Rabs (p - target state) <= 1) as Hle by (apply Rabs_le; lra).
  pose proof (exp_pos (- (2 * elapsed deltas))). nra.
Qed.

End Progress.

Lemma last_cons {A : Type} (l : list A) (a d : A) : last (a :: l) d = last l a.
Proof.
  revert a d; induction l as [|b l IH]; intros a d; [reflexivity|].
  change (last (a :: b :: l) d) with (last (b :: l) d).
  now rewrite (IH b d), (IH b a).
Qed.

(** [exp (-10) < 1/1000]: five seconds at rate 2 bring the progress within
    a thousandth of the target. *)
Lemma exp_minus_10 : (exp (- (2 * 5)) < 0.001)%R.
Proof.
  assert (2 < exp 1)%R as H2 by (pose proof (exp_ineq1 1); lra).
  assert (exp 10 = exp 1 ^ 10)%R as H10.
  { replace 10%R with (1 + 1 + 1 + 1 + 1 + 1 + 1 + 1 + 1 + 1)%R by lra.
    rewrite !exp_plus. simpl. ring. }
  assert (2 ^ 10 <= exp 1 ^ 10)%R as Hpow by (apply pow_incr; lra).
  assert (1024 <= exp 10)%R as H by (rewrite H10; simpl in Hpow |- *; lra).
  replace (- (2 * 5))%R with (Ropp 10) by lra.
  rewrite exp_Ropp.
  apply Rmult_lt_reg_r with (exp 10)%R; [lra|].
  rewrite Rinv_l by lra. lra.
Qed.

(** The frame callback writes [advance] to [progressRef.current], whether
    or not the group is mounted or dragged. *)
Lemma useFrame_progress (state : Types.TreeState) (delta : R) (s : ChristmasTree.Tree) :
  ChristmasTree.progressRef (ChristmasTree.useFrame state delta s)
  = ChristmasTree.advance state (ChristmasTree.progressRef s) delta.
Proof.
  unfold ChristmasTree.useFrame.
  destruct (ChristmasTree.groupRef s) as [r|]; [|reflexivity].
  destruct (ChristmasTree.isDragging s); [reflexivity|].
  destruct (ChristmasTree.physics state r (ChristmasTree.velocityY s)
              (ChristmasTree.velocityX s)) as [r' [vY' vX']].
  reflexivity.
Qed.

Lemma frames_progress (state : Types.TreeState) (deltas : list R) (s : ChristmasTree.Tree) :
  map ChristmasTree.progressRef (ChristmasTree.frames state s deltas)
  = ChristmasTree.trajectory state (ChristmasTree.progressRef s) deltas.
Proof.
  revert s; induction deltas as [|d ds IH]; intros s; [reflexivity|].
  cbn [ChristmasTree.frames ChristmasTree.trajectory map].
  now rewrite IH, useFrame_progress.
Qed.

Lemma run_progress (state : Types.TreeState) (deltas : list R) (s : ChristmasTree.Tree) :
  ChristmasTree.progressRef (ChristmasTree.run state s deltas)
  = ChristmasTree.progressAfter state (ChristmasTree.progressRef s) deltas.
Proof.
  unfold ChristmasTree.run, ChristmasTree.progressAfter.
  revert s; induction deltas as [|d ds IH]; intros s; [reflexivity|].
  cbn [fold_left]. now rewrite IH, useFrame_progress.
Qed.

Lemma progressAfter_last (state : Types.TreeState) (deltas : list R) (p : R) :
  ChristmasTree.progressAfter state p deltas
  = last (ChristmasTree.trajectory state p deltas) p.
Proof.
  unfold ChristmasTree.progressAfter.
  revert p; induction deltas as [|d ds IH]; intros p; [reflexivity|].
  cbn [fold_left ChristmasTree.trajectory]. now rewrite IH, last_cons.
Qed.

(** For every tolerance there is a simulated time after which the
    progress stays within it of the target. *)
Lemma progressAfter_converges (state : Types.TreeState) (p : R) :
  (0 <= p <= 1)%R ->
  forall eps : R, (0 < eps)%R ->
    exists T : R,
      forall run : list R,
        Forall (fun d => (0 <= d)%R) run ->
        (T <= ChristmasTree.elapsed run)%R ->
        (Rabs (ChristmasTree.progressAfter state p run
               - ChristmasTree.target state) < eps)%R.
Proof.
  intros Hp eps Heps. exists (1 - ln eps / 2)%R. intros run _ HT.
  apply Rle_lt_trans with (1 := progressAfter_distance state run p Hp).
  apply Rle_lt_trans with (exp (ln eps - 2)).
  - destruct (Rle_lt_or_eq_dec _ _ HT) as [Hlt|Heq].
    + left. apply exp_increasing. lra.
    + right. f_equal. lra.
  - unfold Rminus. rewrite exp_plus, exp_ln by exact Heps.
    assert (exp (Ropp 2) < 1)%R as H1.
    { rewrite <- exp_0. apply exp_increasing. lra. }
    pose proof (exp_pos (Ropp 2)). nra.
Qed.

Lemma progressAfter_five_seconds (state : Types.TreeState) (p : R) (deltas : list R) :
  (0 <= p <= 1)%R ->
  (5 <= ChristmasTree.elapsed deltas)%R ->
  (Rabs (ChristmasTree.progressAfter state p deltas
         - ChristmasTree.target state) < 0.001)%R.
Proof.
  intros Hp H5.
  apply Rle_lt_trans with (1 := progressAfter_distance state deltas p Hp).
  apply Rle_lt_trans with (2 := exp_minus_10).
  destruct (Rle_lt_or_eq_dec _ _ H5) as [Hlt|Heq].
  - left. apply exp_increasing. lra.
  - right. f_equal. lra.
Qed.

(** C2.  The update is
    [progress + (target - progress) * (1 - exp (-2 delta))] with target 1
    when FORMED and 0 when CHAOS.  From a progress in [0,1], over frames
    with non-negative [delta] and the tree state held fixed: each new
    progress lies between the previous one and the target (monotone, no
    overshoot), all stay in [0,1], and for every [eps > 0] there is a
    simulated time after which the progress is within [eps] of the target,
    5 seconds being enough for a thousandth.  This is what the frame
    callback leaves in [progressRef.current]: every run of it, on a group
    mounted or not, dragged or not, writes the update above, so the
    progress of a component after each frame of a run of callbacks is that
    sequence, with the same bounds and the same convergence. *)
Theorem C2_progress_damps_toward_target
    (state : Types.TreeState) (p : R) (deltas : list R) :
  (0 <= p <= 1)%R ->
  Forall (fun d => (0 <= d)%R) deltas ->
  (forall q delta,
      ChristmasTree.advance state q delta =
      (q + (ChristmasTree.target state - q) * (1 - exp (- (2 * delta))))%R)
  /\ ChristmasTree.target state
       = match state with Types.FORMED => 1%R | Types.CHAOS => 0%R end
  /\ Spec.approaches (ChristmasTree.target state) p
       (ChristmasTree.trajectory state p deltas)
  /\ Forall (fun q => (0 <= q <= 1)%R) (ChristmasTree.trajectory state p deltas)
  /\ ChristmasTree.progressAfter state p deltas
       = last (ChristmasTree.trajectory state p deltas) p
  /\ (forall eps : R, (0 < eps)%R ->
        exists T : R,
          forall run : list R,
            Forall (fun d => (0 <= d)%R) run ->
            (T <= ChristmasTree.elapsed run)%R ->
            (Rabs (ChristmasTree.progressAfter state p run
                   - ChristmasTree.target state) < eps)%R)
  /\ ((5 <= ChristmasTree.elapsed deltas)%R ->
      (Rabs (ChristmasTree.progressAfter state p deltas
             - ChristmasTree.target state) < 0.001)%R)
  /\ (forall (s : ChristmasTree.Tree) (delta : R),
        ChristmasTree.progressRef (ChristmasTree.useFrame state delta s)
        = (ChristmasTree.progressRef s
           + (ChristmasTree.target state - ChristmasTree.progressRef s)
             * (1 - exp (- (2 * delta))))%R)
  /\ (forall s : ChristmasTree.Tree,
        ChristmasTree.progressRef s = p ->
        map ChristmasTree.progressRef (ChristmasTree.frames state s deltas)
          = ChristmasTree.trajectory state p deltas
        /\ ChristmasTree.progressRef (ChristmasTree.run state s deltas)
          = ChristmasTree.progressAfter state p deltas
        /\ Spec.approaches (ChristmasTree.target state) (ChristmasTree.progressRef s)
             (map ChristmasTree.progressRef (ChristmasTree.frames state s deltas))
        /\ Forall (fun q => (0 <= q <= 1)%R)
             (map ChristmasTree.progressRef (ChristmasTree.frames state s deltas))
        /\ (forall eps : R, (0 < eps)%R ->
              exists T : R,
                forall later : list R,
                  Forall (fun d => (0 <= d)%R) later ->
                  (T <= ChristmasTree.elapsed later)%R ->
                  (Rabs (ChristmasTree.progressRef (ChristmasTree.run state s later)
                         - ChristmasTree.target state) < eps)%R)
        /\ ((5 <= ChristmasTree.elapsed deltas)%R ->
            (Rabs (ChristmasTree.progressRef (ChristmasTree.run state s deltas)
                   - ChristmasTree.target state) < 0.001)%R)).
Proof.
  intros Hp Hd.
  split; [intros q delta; apply advance_formula|].
  split; [destruct state; reflexivity|].
  split; [apply trajectory_approaches, Hd|].
  split; [apply trajectory_unit; assumption|].
  split; [apply progressAfter_last|].
  split; [apply progressAfter_converges, Hp|].
  split; [apply progressAfter_five_seconds, Hp|].
  split; [intros s delta; rewrite useFrame_progress; apply advance_formula|].
  intros s Hs.
  split; [rewrite frames_progress, Hs; reflexivity|].
  split; [rewrite run_progress, Hs; reflexivity|].
  split; [rewrite frames_progress, Hs; apply trajectory_approaches, Hd|].
  split; [rewrite frames_progress, Hs; apply trajectory_unit; assumption|].
  split.
  - intros eps Heps.
    destruct (progressAfter_converges state p Hp eps Heps) as [T HT].
    exists T. intros later Hl Hel. rewrite run_progress, Hs. now apply HT.
  - intros H5. rewrite run_progress, Hs. now apply progressAfter_five_seconds.
Qed.

(** The theorem above for a mounted tree being formed from progress 0
    over six frames of one second: the progress the callbacks leave rises
    towards 1 and ends within a thousandth of it. *)
Lemma C2_progress_witness :
  let s := {| ChristmasTree.velocityY := 0; ChristmasTree.velocityX := 0;
              ChristmasTree.isDragging := false;
              ChristmasTree.lastPointer := {| ChristmasTree.x := 0; ChristmasTree.y := 0 |};
              ChristmasTree.progressRef := 0;
              ChristmasTree.focusedPhotoIndex := None;
              ChristmasTree.groupRef :=
                Some {| ChristmasTree.rotation_x := 0;
                        ChristmasTree.rotation_y := 0 |} |}%R in
  (0 <= 0 <= 1)%R
  /\ Forall (fun d => (0 <= d)%R) [1; 1; 1; 1; 1; 1]%R
  /\ Spec.approaches 1%R 0%R
       (ChristmasTree.trajectory Types.FORMED 0%R [1; 1; 1; 1; 1; 1]%R)
  /\ (Rabs (ChristmasTree.progressAfter Types.FORMED 0%R [1; 1; 1; 1; 1; 1]%R - 1)
       < 0.001)%R
  /\ Spec.approaches 1%R 0%R
       (map ChristmasTree.progressRef
          (ChristmasTree.frames Types.FORMED s [1; 1; 1; 1; 1; 1]%R))
  /\ (Rabs (ChristmasTree.progressRef
              (ChristmasTree.run Types.FORMED s [1; 1; 1; 1; 1; 1]%R) - 1)
       < 0.001)%R.
Proof.
  intros s.
  assert (H0 : (0 <= 0 <= 1)%R) by lra.
  assert (Hd : Forall (fun d => (0 <= d)%R) [1; 1; 1; 1; 1; 1]%R)
    by (repeat constructor; lra).
  assert (He : (5 <= ChristmasTree.elapsed [1; 1; 1; 1; 1; 1]%R)%R)
    by (unfold ChristmasTree.elapsed; simpl; lra).
  destruct (C2_progress_damps_toward_target Types.FORMED 0%R
              [1; 1; 1; 1; 1; 1]%R H0 Hd)
    as (_ & _ & Happ & _ & _ & _ & H5 & _ & Hs).
  destruct (Hs s eq_refl) as (_ & _ & Happ' & _ & _ & H5').
  split; [exact H0|]. split; [exact Hd|]. split; [exact Happ|].
  split; [exact (H5 He)|]. split; [exact Happ' | exact (H5' He)].
Defined.

(** ** Drag physics *)

(** C4.  While dragging, a move event sets the yaw velocity to
    [deltaX * 0.0025] whatever the tree state; it sets the pitch velocity
    to [deltaY * 0.0025] when the tree is in CHAOS and leaves it as it was
    when the tree is FORMED. *)
Theorem C4_drag_sets_yaw_and_gates_pitch
    (state : Types.TreeState) (e : ChristmasTree.PointerEvent) (s : ChristmasTree.Tree) :
  ChristmasTree.isDragging s = true ->
  let deltaX := (ChristmasTree.clientX e
                 - ChristmasTree.x (ChristmasTree.lastPointer s))%R in
  let deltaY := (ChristmasTree.clientY e
                 - ChristmasTree.y (ChristmasTree.lastPointer s))%R in
  let s' := ChristmasTree.handlePointerMove state e s in
  ChristmasTree.velocityY s' = (deltaX * 0.0025)%R
  /\ ChristmasTree.velocityX s' =
       match state with
       | Types.CHAOS => (deltaY * 0.0025)%R
       | Types.FORMED => ChristmasTree.velocityX s
       end
  /\ ChristmasTree.isDragging s' = true.
Proof.
  intros Hdrag deltaX deltaY s'. subst s'.
  unfold ChristmasTree.handlePointerMove. rewrite Hdrag. cbn [negb].
  destruct state; cbn; repeat split; try reflexivity; exact Hdrag.
Qed.

(** The theorem above on a formed tree: a drag from (100, 100) to
    (140, 90) with pitch velocity 0.5. *)
Lemma C4_drag_witness :
  let s := {| ChristmasTree.velocityY := 0; ChristmasTree.velocityX := 0.5;
              ChristmasTree.isDragging := true;
              ChristmasTree.lastPointer :=
                {| ChristmasTree.x := 100; ChristmasTree.y := 100 |};
              ChristmasTree.progressRef := 1;
              ChristmasTree.focusedPhotoIndex := None;
              ChristmasTree.groupRef := None |}%R in
  let e := {| ChristmasTree.defaultPrevented := false;
              ChristmasTree.clientX := 140; ChristmasTree.clientY := 90 |}%R in
  ChristmasTree.isDragging s = true
  /\ ChristmasTree.velocityY (ChristmasTree.handlePointerMove Types.FORMED e s)
       = ((140 - 100) * 0.0025)%R
  /\ ChristmasTree.velocityX (ChristmasTree.handlePointerMove Types.FORMED e s)
       = 0.5%R.
Proof.
  intros s e.
  assert (Hd : ChristmasTree.isDragging s = true) by reflexivity.
  destruct (C4_drag_sets_yaw_and_gates_pitch Types.FORMED e s Hd) as (Hy & Hx & _).
  split; [exact Hd|]. split; [exact Hy | exact Hx].
Defined.

(** ** Focus selection *)

Lemma filter_eqb_NoDup (j : nat) (l : list nat) :
  NoDup l -> (length (filter (Nat.eqb j) l) <= 1)%nat.
Proof.
  induction 1 as [|a l Hnotin _ IH]; simpl; [lia|].
  destruct (Nat.eqb_spec j a) as [->|Hne]; [|exact IH].
  assert (filter (Nat.eqb a) l = []) as ->.
  { clear IH. induction l as [|b l IHl]; [reflexivity|]. simpl.
    destruct (Nat.eqb_spec a b) as [->|_].
    - exfalso. apply Hnotin. now left.
    - apply IHl. intros Hin. apply Hnotin. now right. }
  simpl. lia.
Qed.

(** At most one of the frames [0 .. count-1] has [isFocused] set. *)
Lemma focus_at_most_one (focusedIndex : option nat) (count : nat) :
  (length (filter (PhotoFrames.isFocused focusedIndex) (seq 0 count)) <= 1)%nat.
Proof.
  destruct focusedIndex as [j|]; simpl.
  - apply filter_eqb_NoDup, seq_NoDup.
  - induction (seq 0 count); simpl; [lia | assumption].
Qed.

(** C7 as stated fails: a background click during a drag keeps the
    selection.  Frame 0 is clicked, the pointer goes down on the tree, and
    the background click handler runs before the pointer is released. *)
Lemma C7_background_click_while_dragging_keeps_focus :
  let down := {| ChristmasTree.defaultPrevented := false;
                 ChristmasTree.clientX := 10; ChristmasTree.clientY := 10 |}%R in
  let s := ChristmasTree.handlePointerDown down
             (ChristmasTree.onFrameClick 0 ChristmasTree.initial) in
  ChristmasTree.focusedPhotoIndex s = Some 0%nat
  /\ ChristmasTree.focusedPhotoIndex (ChristmasTree.onBackgroundClick s) = Some 0%nat.
Proof. split; reflexivity. Qed.

(** C7 (amended).  The selection is one optional index, so at most one
    frame is focused; clicking frame [b] while another frame [a] is focused
    focuses exactly [b]; clicking the focused frame clears the selection; a
    background click clears it when no drag is in progress, and changes
    nothing during a drag. *)
Theorem C7_focus_is_exclusive
    (s : ChristmasTree.Tree) (a b count : nat) :
  ChristmasTree.focusedPhotoIndex s = Some a ->
  (forall t : ChristmasTree.Tree,
      (length (filter (PhotoFrames.isFocused (ChristmasTree.focusedPhotoIndex t))
                 (seq 0 count)) <= 1)%nat)
  /\ (a <> b ->
      let s' := ChristmasTree.onFrameClick b s in
      ChristmasTree.focusedPhotoIndex s' = Some b
      /\ PhotoFrames.isFocused (ChristmasTree.focusedPhotoIndex s') b = true
      /\ PhotoFrames.isFocused (ChristmasTree.focusedPhotoIndex s') a = false)
  /\ ChristmasTree.focusedPhotoIndex (ChristmasTree.onFrameClick a s) = None
  /\ (ChristmasTree.isDragging s = false ->
      ChristmasTree.focusedPhotoIndex (ChristmasTree.onBackgroundClick s) = None)
  /\ (ChristmasTree.isDragging s = true ->
      ChristmasTree.onBackgroundClick s = s).
Proof.
  intros Hfocus.
  split; [intros t; apply focus_at_most_one|].
  unfold ChristmasTree.onFrameClick, ChristmasTree.onBackgroundClick,
    PhotoFrames.onClick, PhotoFrames.isFocused.
  rewrite Hfocus. repeat split.
  - destruct (Nat.eqb_spec a b); [contradiction | reflexivity].
  - destruct (Nat.eqb_spec a b); [contradiction|]. cbn. apply Nat.eqb_refl.
  - destruct (Nat.eqb_spec a b); [contradiction|]. cbn.
    destruct (Nat.eqb_spec b a); [congruence | reflexivity].
  - rewrite Nat.eqb_refl. reflexivity.
  - intros ->. reflexivity.
  - intros ->. reflexivity.
Qed.

(** The theorem above with frame 2 focused, frame 5 clicked, among 8
    frames. *)
Lemma C7_focus_witness :
  let s := ChristmasTree.onFrameClick 2 ChristmasTree.initial in
  ChristmasTree.focusedPhotoIndex s = Some 2%nat
  /\ ChristmasTree.focusedPhotoIndex (ChristmasTree.onFrameClick 5 s) = Some 5%nat
  /\ ChristmasTree.focusedPhotoIndex (ChristmasTree.onFrameClick 2 s) = None
  /\ ChristmasTree.focusedPhotoIndex (ChristmasTree.onBackgroundClick s) = None.
Proof.
  intros s.
  assert (Hf : ChristmasTree.focusedPhotoIndex s = Some 2%nat) by reflexivity.
  destruct (C7_focus_is_exclusive s 2 5 8 Hf) as (_ & Hswitch & Hsame & Hback & _).
  split; [exact Hf|].
  split; [apply Hswitch; lia|].
  split; [exact Hsame | apply Hback; reflexivity].
Defined.

(** ** The gesture mapper *)

Section Gestures.

Import Types Events GestureController Spec.
Local Open Scope Q_scope.

(** A frame with one hand reaches the detection branch. *)
Lemma predictWebcam_oneHand (s : State) (name : string) (wrist middleFinger : Landmark) :
  predictWebcam s (oneHand name wrist middleFinger) =
  Some (detected {| categoryName := name |} wrist middleFinger s).
Proof. reflexivity. Qed.

(** What a run does, by the classification of its frame. *)
Lemma predictWebcam_cases (s s' : State) (f : VideoFrame) (es : list Event) :
  predictWebcam s f = Some (s', es) ->
  (f = stale /\ s' = s /\ es = [])
  \/ (noHand f /\ (s', es) = handLost s)
  \/ (exists gesture wrist middleFinger,
        classification f = Some (categoryName gesture)
        /\ handPosition f = Some (handX wrist middleFinger)
        /\ (s', es) = detected gesture wrist middleFinger s).
Proof.
  destruct f as [|[[gs ls]|]]; unfold predictWebcam, noHand, classification, handPosition;
    cbn [gestures landmarks]; intros H.
  - left. injection H as <- <-. auto.
  - destruct gs as [|g0 gs].
    { right; left. injection H as <- <-. split; [now left | reflexivity]. }
    destruct ls as [|l0 ls].
    { right; left. injection H as <- <-. split; [now right | reflexivity]. }
    destruct (nth_error g0 0) as [gesture|] eqn:Hg; [|discriminate].
    destruct (nth_error l0 0) as [wrist|]; [|discriminate].
    destruct (nth_error l0 9) as [middleFinger|]; [|discriminate].
    right; right. exists gesture, wrist, middleFinger.
    injection H as <- <-. repeat split.
  - right; left. injection H as <- <-. split; [exact I | reflexivity].
Qed.

Lemma classify_idempotent (name : string) (t : TreeState) :
  classify name (classify name t) = classify name t.
Proof.
  unfold classify.
  destruct (String.eqb name "Open_Palm"); [reflexivity|].
  destruct (String.eqb name "Closed_Fist"); reflexivity.
Qed.

(** [isSwipe] depends on the value of the delta only. *)
Lemma isSwipe_proper (a b : Q) : a == b -> isSwipe a = isSwipe b.
Proof.
  intros Hab. unfold isSwipe.
  destruct (Qlt_le_dec 0.008 (Qabs a)) as [Ha|Ha];
    destruct (Qlt_le_dec 0.008 (Qabs b)) as [Hb|Hb]; try reflexivity;
    rewrite Hab in Ha; exfalso; apply (Qlt_not_le _ _ Ha Hb) || apply (Qlt_not_le _ _ Hb Ha).
Qed.

Lemma isSwipe_true (delta : Q) : isSwipe delta = true <-> 0.008 < Qabs delta.
Proof.
  unfold isSwipe. destruct (Qlt_le_dec 0.008 (Qabs delta)) as [H|H].
  - tauto.
  - split; [discriminate | intros H'; exfalso; apply (Qlt_not_le _ _ H' H)].
Qed.

(** The spins a detection dispatches. *)
Lemma detected_spins (gesture : Category) (wrist middleFinger : Landmark) (s : State) :
  spins (snd (detected gesture wrist middleFinger s)) =
  swipe (previousHandX s) (handX wrist middleFinger).
Proof.
  unfold detected, spins, swipe, handX; simpl.
  destruct (previousHandX s) as [prev|]; [|reflexivity].
  destruct (isSwipe _); reflexivity.
Qed.

(** The hand position of a [handAt] frame is the given one. *)
Lemma handX_handAt (h : Q) :
  handX {| x := 1 - h; y := 0.5 |} {| x := 1 - h; y := 0.5 |} == h.
Proof. unfold handX; simpl. field. Qed.

(** Runs that detect no hand keep the swipe tracker empty and dispatch
    no spin. *)
Lemma quiet_run (s : State) (f : VideoFrame) :
  quiet f -> previousHandX s = None ->
  exists s' es,
    predictWebcam s f = Some (s', es) /\ previousHandX s' = None /\ spins es = [].
Proof.
  intros [->|Hno] Hprev.
  - exists s, []. repeat split; [exact Hprev].
  - exists (fst (handLost s)), (snd (handLost s)).
    destruct f as [|[[gs ls]|]]; simpl in Hno; [contradiction | |].
    + destruct Hno as [Hg|Hl]; [simpl in Hg | simpl in Hl]; subst; simpl.
      * repeat split.
      * destruct gs; repeat split.
    + repeat split.
Qed.

Lemma quiet_runs (gap : list VideoFrame) (s : State) :
  Forall quiet gap -> previousHandX s = None ->
  previousHandX (stateAfter s gap) = None.
Proof.
  unfold stateAfter. intros Hq; revert s; induction Hq as [|f gap Hf _ IH]; intros s Hprev.
  - exact Hprev.
  - destruct (quiet_run s f Hf Hprev) as (s' & es & Hrun & Hprev' & _).
    cbn [poll]. rewrite Hrun. cbn [map fst]. rewrite last_cons. apply IH, Hprev'.
Qed.

End Gestures.

Section GestureClaims.

Import Types Events GestureController Spec.
Local Open Scope Q_scope.

Lemma treeState_after (s s' : State) (f : VideoFrame) (es : list Event) :
  predictWebcam s f = Some (s', es) ->
  treeState s' =
    match classification f with
    | Some name => classify name (treeState s)
    | None => treeState s
    end.
Proof.
  intros H. pose proof (predictWebcam_cases s s' f es H) as Hc.
  destruct Hc as [(-> & -> & _) | [(Hno & Heq) | (g & w & m & Hcl & _ & Heq)]].
  - reflexivity.
  - injection Heq as -> _.
    destruct f as [|[[gs ls]|]]; simpl in Hno |- *; try contradiction; try reflexivity.
    destruct Hno as [Hg|Hl]; simpl in *; subst; [reflexivity|].
    destruct gs; reflexivity.
  - rewrite Hcl. injection Heq as -> _. reflexivity.
Qed.

Lemma no_spin_without_previous (s s' : State) (f : VideoFrame) (es : list Event) :
  previousHandX s = None -> predictWebcam s f = Some (s', es) -> spins es = [].
Proof.
  intros Hprev H.
  destruct (predictWebcam_cases s s' f es H)
    as [(_ & _ & ->) | [(_ & Heq) | (g & w & m & _ & _ & Heq)]].
  - reflexivity.
  - injection Heq as _ ->. reflexivity.
  - assert (es = snd (detected g w m s)) as -> by (now rewrite <- Heq).
    rewrite detected_spins, Hprev. reflexivity.
Qed.

Lemma noHand_handPosition (f : VideoFrame) : noHand f -> handPosition f = None.
Proof.
  destruct f as [|[[gs ls]|]]; cbn; intros H; try reflexivity.
  destruct H as [->| ->]; [reflexivity | now destruct gs].
Qed.

(** A run on a frame with a hand at [h]: it remembers [h] and dispatches
    the spins of the move from the remembered position to [h]. *)
Lemma detection_run (s s' : State) (f : VideoFrame) (es : list Event) (h : Q) :
  predictWebcam s f = Some (s', es) -> handPosition f = Some h ->
  previousHandX s' = Some h /\ spins es = swipe (previousHandX s) h.
Proof.
  intros H Hh.
  destruct (predictWebcam_cases s s' f es H)
    as [(-> & _) | [(Hno & _) | (g & w & m & _ & Hpos & Heq)]].
  - discriminate.
  - rewrite (noHand_handPosition f Hno) in Hh. discriminate.
  - rewrite Hpos in Hh. injection Hh as <-.
    assert (s' = fst (detected g w m s)) as -> by (now rewrite <- Heq).
    assert (es = snd (detected g w m s)) as -> by (now rewrite <- Heq).
    split; [reflexivity | apply detected_spins].
Qed.

(** A detection at hand position [h] (up to the value), after a detection
    that left [prev]: the spins, and the position left behind. *)
Lemma handAt_run (s : State) (name : string) (h prev d : Q) :
  previousHandX s = Some prev -> h - prev == d ->
  exists s' es prev',
    predictWebcam s (handAt name h) = Some (s', es)
    /\ previousHandX s' = Some prev' /\ prev' == h
    /\ spins es = (if isSwipe d then [tree_spin ((prev' - prev) * 1.2)] else [])
    /\ treeState s' = classify name (treeState s).
Proof.
  intros Hprev Hd. unfold handAt. rewrite predictWebcam_oneHand.
  set (p := {| x := 1 - h; y := 0.5 |}).
  exists (fst (detected {| categoryName := name |} p p s)),
         (snd (detected {| categoryName := name |} p p s)), (handX p p).
  split; [reflexivity|]. split; [reflexivity|].
  split; [apply handX_handAt|]. split; [|reflexivity].
  rewrite detected_spins, Hprev. unfold swipe.
  rewrite (isSwipe_proper _ d); [reflexivity|].
  subst p. rewrite handX_handAt. exact Hd.
Qed.

(** Four detections whose successive differences are 0.002, 0.003 and
    0.01. *)
Lemma swipe_scenario (s0 : State) (h0 h1 h2 h3 : Q) (k0 k1 k2 k3 : string) :
  h1 - h0 == 0.002 -> h2 - h1 == 0.003 -> h3 - h2 == 0.01 ->
  exists r0 r1 r2 r3 v,
    poll s0 [handAt k0 h0; handAt k1 h1; handAt k2 h2; handAt k3 h3]
      = [r0; r1; r2; r3]
    /\ spins (snd r1) = []
    /\ spins (snd r2) = []
    /\ spins (snd r3) = [tree_spin v]
    /\ v == 0.012.
Proof.
  intros Hd1 Hd2 Hd3.
  set (pt := {| x := 1 - h0; y := 0.5 |}).
  set (t0 := fst (detected {| categoryName := k0 |} pt pt s0)).
  set (e0 := snd (detected {| categoryName := k0 |} pt pt s0)).
  assert (Hr0 : predictWebcam s0 (handAt k0 h0) = Some (t0, e0)) by reflexivity.
  assert (Hp0 : previousHandX t0 = Some (handX pt pt)) by reflexivity.
  assert (Hq0 : handX pt pt == h0) by apply handX_handAt.
  assert (Hd1' : h1 - handX pt pt == 0.002) by (rewrite Hq0; exact Hd1).
  destruct (handAt_run t0 k1 h1 _ _ Hp0 Hd1')
    as (t1 & e1 & p1 & Hr1 & Hp1 & Hq1 & Hs1 & _).
  assert (Hd2' : h2 - p1 == 0.003) by (rewrite Hq1; exact Hd2).
  destruct (handAt_run t1 k2 h2 p1 _ Hp1 Hd2')
    as (t2 & e2 & p2 & Hr2 & Hp2 & Hq2 & Hs2 & _).
  assert (Hd3' : h3 - p2 == 0.01) by (rewrite Hq2; exact Hd3).
  destruct (handAt_run t2 k3 h3 p2 _ Hp2 Hd3')
    as (t3 & e3 & p3 & Hr3 & Hp3 & Hq3 & Hs3 & _).
  exists (t0, e0), (t1, e1), (t2, e2), (t3, e3), ((p3 - p2) * 1.2).
  cbn [poll]. rewrite Hr0, Hr1, Hr2, Hr3.
  split; [reflexivity|]. split; [exact Hs1|]. split; [exact Hs2|]. split; [exact Hs3|].
  rewrite Hq3, Hd3'. reflexivity.
Qed.

End GestureClaims.

(** C5.  A run of the mapper sets the tree state to CHAOS on [Open_Palm],
    to FORMED on [Closed_Fist], and leaves it as it is on any other
    classification or when no hand is classified; running again on the same
    frame changes nothing; the stream [Open_Palm, Open_Palm, Closed_Fist]
    yields the states CHAOS, CHAOS, FORMED. *)
Theorem C5_gesture_drives_tree_state
    (s s' : GestureController.State) (f : GestureController.VideoFrame)
    (es : list Events.Event) :
  GestureController.predictWebcam s f = Some (s', es) ->
  (Spec.classification f = Some "Open_Palm"%string ->
     GestureController.treeState s' = Types.CHAOS)
  /\ (Spec.classification f = Some "Closed_Fist"%string ->
     GestureController.treeState s' = Types.FORMED)
  /\ (Spec.classification f <> Some "Open_Palm"%string ->
      Spec.classification f <> Some "Closed_Fist"%string ->
      GestureController.treeState s' = GestureController.treeState s)
  /\ (forall s'' es',
        GestureController.predictWebcam s' f = Some (s'', es') ->
        GestureController.treeState s'' = GestureController.treeState s')
  /\ (forall s0 w1 m1 w2 m2 w3 m3,
        GestureController.treeState s0 = Types.CHAOS ->
        map (fun r => GestureController.treeState (fst r))
          (GestureController.poll s0
             [GestureController.oneHand "Open_Palm" w1 m1;
              GestureController.oneHand "Open_Palm" w2 m2;
              GestureController.oneHand "Closed_Fist" w3 m3])
        = [Types.CHAOS; Types.CHAOS; Types.FORMED]).
Proof.
  intros H. pose proof (treeState_after s s' f es H) as Hs.
  split; [intros Hc; rewrite Hs, Hc; reflexivity|].
  split; [intros Hc; rewrite Hs, Hc; reflexivity|].
  split.
  { intros Hopen Hfist. rewrite Hs.
    destruct (Spec.classification f) as [name|]; [|reflexivity].
    unfold GestureController.classify.
    destruct (String.eqb_spec name "Open_Palm") as [->|_]; [now contradiction Hopen|].
    destruct (String.eqb_spec name "Closed_Fist") as [->|_]; [now contradiction Hfist|].
    reflexivity. }
  split.
  { intros s'' es' H'. rewrite (treeState_after s' s'' f es' H'), Hs.
    destruct (Spec.classification f); [apply classify_idempotent | reflexivity]. }
  intros s0 w1 m1 w2 m2 w3 m3 _. reflexivity.
Qed.

(** The theorem above on a fist shown to a scattered tree. *)
Lemma C5_gesture_witness :
  let s := {| GestureController.treeState := Types.CHAOS;
              GestureController.previousHandX := None;
              GestureController.handPos := None;
              GestureController.detectedGesture := "" |} in
  let f := GestureController.handAt "Closed_Fist" 0.5%Q in
  exists s' es,
    GestureController.predictWebcam s f = Some (s', es)
    /\ GestureController.treeState s' = Types.FORMED.
Proof.
  intros s f.
  destruct (GestureController.predictWebcam s f) as [[s' es]|] eqn:H; [|discriminate].
  exists s', es. split; [reflexivity|].
  destruct (C5_gesture_drives_tree_state s s' f es H) as (_ & Hfist & _).
  apply Hfist. reflexivity.
Defined.

(** C6.  For two consecutive runs that each detect a hand, the second
    dispatches a ['tree-spin'] exactly when the absolute difference of the
    two horizontal hand positions exceeds 0.008, and its velocity is that
    difference times 1.2.  Hand positions whose successive differences are
    0.002, 0.003 and 0.01 give no spin, no spin, and one spin of velocity
    0.012. *)
Theorem C6_swipe_above_threshold_spins
    (s0 s1 s2 : GestureController.State) (es1 es2 : list Events.Event)
    (f1 f2 : GestureController.VideoFrame) (x1 x2 : Q) :
  GestureController.predictWebcam s0 f1 = Some (s1, es1) ->
  GestureController.predictWebcam s1 f2 = Some (s2, es2) ->
  Spec.handPosition f1 = Some x1 ->
  Spec.handPosition f2 = Some x2 ->
  let delta := (x2 - x1)%Q in
  ((0.008 < Qabs delta)%Q ->
     Spec.spins es2 = [Events.tree_spin (delta * 1.2)%Q])
  /\ ((Qabs delta <= 0.008)%Q -> Spec.spins es2 = [])
  /\ (forall (h0 h1 h2 h3 : Q) (k0 k1 k2 k3 : string),
        (h1 - h0 == 0.002)%Q -> (h2 - h1 == 0.003)%Q -> (h3 - h2 == 0.01)%Q ->
        exists r0 r1 r2 r3 v,
          GestureController.poll s0
            [GestureController.handAt k0 h0; GestureController.handAt k1 h1;
             GestureController.handAt k2 h2; GestureController.handAt k3 h3]
          = [r0; r1; r2; r3]
          /\ Spec.spins (snd r1) = []
          /\ Spec.spins (snd r2) = []
          /\ Spec.spins (snd r3) = [Events.tree_spin v]
          /\ (v == 0.012)%Q).
Proof.
  intros H1 H2 Hx1 Hx2 delta.
  destruct (detection_run s0 s1 f1 es1 x1 H1 Hx1) as [Hprev _].
  destruct (detection_run s1 s2 f2 es2 x2 H2 Hx2) as [_ Hspins].
  rewrite Hspins, Hprev. unfold GestureController.swipe. fold delta.
  split; [|split].
  - intros Hgt. apply isSwipe_true in Hgt. now rewrite Hgt.
  - intros Hle. destruct (GestureController.isSwipe delta) eqn:Hsw; [|reflexivity].
    apply isSwipe_true in Hsw. exfalso. apply (Qlt_not_le _ _ Hsw Hle).
  - apply swipe_scenario.
Qed.

(** The theorem above on a hand seen at 0.5 and then at 0.52. *)
Lemma C6_swipe_witness :
  let s0 := {| GestureController.treeState := Types.CHAOS;
               GestureController.previousHandX := None;
               GestureController.handPos := None;
               GestureController.detectedGesture := "" |} in
  let p := {| GestureController.x := 0.5; GestureController.y := 0.5 |}%Q in
  let q := {| GestureController.x := 0.48; GestureController.y := 0.5 |}%Q in
  let f1 := GestureController.oneHand "None" p p in
  let f2 := GestureController.oneHand "None" q q in
  exists s1 es1 s2 es2,
    GestureController.predictWebcam s0 f1 = Some (s1, es1)
    /\ GestureController.predictWebcam s1 f2 = Some (s2, es2)
    /\ Spec.handPosition f1 = Some (Spec.handX p p)
    /\ Spec.handPosition f2 = Some (Spec.handX q q)
    /\ (0.008 < Qabs (Spec.handX q q - Spec.handX p p))%Q
    /\ Spec.spins es2
       = [Events.tree_spin ((Spec.handX q q - Spec.handX p p) * 1.2)%Q].
Proof.
  intros s0 p q f1 f2.
  destruct (GestureController.predictWebcam s0 f1) as [[s1 es1]|] eqn:H1; [|discriminate].
  destruct (GestureController.predictWebcam s1 f2) as [[s2 es2]|] eqn:H2; [|discriminate].
  exists s1, es1, s2, es2.
  assert (Hx1 : Spec.handPosition f1 = Some (Spec.handX p p)) by reflexivity.
  assert (Hx2 : Spec.handPosition f2 = Some (Spec.handX q q)) by reflexivity.
  assert (Hgt : (0.008 < Qabs (Spec.handX q q - Spec.handX p p))%Q) by reflexivity.
  split; [reflexivity|]. split; [exact H2|]. split; [exact Hx1|]. split; [exact Hx2|].
  split; [exact Hgt|].
  exact (proj1 (C6_swipe_above_threshold_spins s0 s1 s2 es1 es2 f1 f2 _ _
                  H1 H2 Hx1 Hx2) Hgt).
Defined.

(** C8.  A processed frame without a hand dispatches ['hand-move'] with
    [active: false], which clears the dust's attraction flag, and empties
    the swipe tracker; after it, and after any further runs without a hand,
    the next run dispatches no ['tree-spin'], wherever the hand
    reappears. *)
Theorem C8_hand_loss_resets_tracking
    (s : GestureController.State) (f next : GestureController.VideoFrame)
    (gap : list GestureController.VideoFrame) :
  Spec.noHand f ->
  Forall Spec.quiet gap ->
  GestureController.predictWebcam s f = Some (GestureController.handLost s)
  /\ snd (GestureController.handLost s) = [Events.hand_move Events.inactive]
  /\ (forall h, MagicalDust.active (MagicalDust.onHandMove Events.inactive h) = false)
  /\ GestureController.previousHandX (fst (GestureController.handLost s)) = None
  /\ (forall s' es,
        GestureController.predictWebcam (Spec.stateAfter s (f :: gap)) next
          = Some (s', es) ->
        Spec.spins es = []).
Proof.
  intros Hno Hgap.
  assert (Hrun : GestureController.predictWebcam s f
                 = Some (GestureController.handLost s)).
  { destruct f as [|[[gs ls]|]]; simpl in Hno; [contradiction | | reflexivity].
    destruct Hno as [Hg|Hl]; [simpl in Hg | simpl in Hl]; subst; [reflexivity|].
    destruct gs; reflexivity. }
  split; [exact Hrun|]. split; [reflexivity|]. split; [reflexivity|].
  split; [reflexivity|].
  intros s' es Hnext.
  apply (no_spin_without_previous (Spec.stateAfter s (f :: gap)) s' next es);
    [|exact Hnext].
  assert (Hstep : Spec.stateAfter s (f :: gap)
                  = Spec.stateAfter (fst (GestureController.handLost s)) gap).
  { unfold Spec.stateAfter. cbn [GestureController.poll]. rewrite Hrun.
    unfold GestureController.handLost at 1. cbn [map fst]. apply last_cons. }
  rewrite Hstep. apply (quiet_runs gap _ Hgap). reflexivity.
Qed.

(** The theorem above: the hand is at 0.1, is lost for a failed
    recognition and a stale poll, and reappears at 0.9. *)
Lemma C8_hand_loss_witness :
  let s := {| GestureController.treeState := Types.CHAOS;
              GestureController.previousHandX := Some 0.1%Q;
              GestureController.handPos := Some (0.1, 0.5)%Q;
              GestureController.detectedGesture := "None" |} in
  let lost := GestureController.fresh None in
  let gap := [GestureController.stale] in
  Spec.noHand lost /\ Forall Spec.quiet gap
  /\ forall s' es,
       GestureController.predictWebcam (Spec.stateAfter s (lost :: gap))
         (GestureController.handAt "None" 0.9%Q) = Some (s', es) ->
       Spec.spins es = [].
Proof.
  intros s lost gap.
  assert (Hno : Spec.noHand lost) by exact I.
  assert (Hgap : Forall Spec.quiet gap) by (repeat constructor).
  split; [exact Hno|]. split; [exact Hgap|].
  exact (proj2 (proj2 (proj2 (proj2
           (C8_hand_loss_resets_tracking s lost (GestureController.handAt "None" 0.9%Q)
              gap Hno Hgap))))).
Defined.

(** ** The ambient dust *)

Section Dust.

Import Random Events MagicalDust Spec.
Local Open Scope Q_scope.

Lemma Qltb_true (a b : Q) : Qltb a b = true <-> a < b.
Proof.
  unfold Qltb. destruct (Qlt_le_dec a b) as [H|H].
  - tauto.
  - split; [discriminate | intros H'; exfalso; apply (Qlt_not_le _ _ H' H)].
Qed.

Lemma Qltb_false (a b : Q) : Qltb a b = false <-> ~ a < b.
Proof.
  rewrite <- Qltb_true. destruct (Qltb a b); split; intros H.
  - discriminate.
  - exfalso. now apply H.
  - intros H'. discriminate.
  - reflexivity.
Qed.

Lemma nonzero_false (a : Q) : a == 0 -> nonzero a = false.
Proof.
  intros H. unfold nonzero. apply (proj2 (Qeq_bool_iff a 0)) in H. now rewrite H.
Qed.

(** No gesture target and the pointer at the origin: no active source. *)
Lemma attraction_idle (viewport : Viewport) (pointer : Pointer) (h : HandTarget) :
  active h = false -> pointer_x pointer == 0 -> pointer_y pointer == 0 ->
  attraction viewport pointer h = (0, 0, false).
Proof.
  intros Hh Hx Hy. unfold attraction.
  now rewrite Hh, (nonzero_false _ Hx), (nonzero_false _ Hy).
Qed.

(** An active gesture target decides the attraction point, whatever the
    pointer. *)
Lemma attraction_gesture (viewport : Viewport) (pointer : Pointer) (h : HandTarget) :
  active h = true ->
  attraction viewport pointer h =
    (x h * width viewport / 2, y h * height viewport / 2, true).
Proof. intros Hh. unfold attraction. now rewrite Hh. Qed.

(** Without an active source the loop body decays the velocity, draws
    nothing, integrates, and applies the respawn rule. *)
Lemma stepParticle_idle (handActive : bool) (tx ty : Q) (p : Particle)
    (src : nat -> Q) (n : nat) :
  stepParticle handActive false tx ty p src n = respawn (py p) (decayed p) src n.
Proof. reflexivity. Qed.

(** The respawn rule looks at the height the particle had when the loop
    body started: a particle that started at or above the floor is not
    respawned, wherever the integration takes it. *)
Lemma respawn_skipped (py0 : Q) (p : Particle) (src : nat -> Q) (n : nat) :
  ~ py0 < -15 -> respawn py0 p src n = (p, n).
Proof.
  intros H. unfold respawn. apply Qltb_false in H. now rewrite H.
Qed.

(** A particle that started below the floor is respawned: height 15,
    fresh [x] and [z], velocity zero. *)
Lemma respawn_done (py0 : Q) (p : Particle) (src : nat -> Q) (n : nat) :
  py0 < -15 ->
  respawn py0 p src n =
    ({| px := (src n - 0.5) * 20; py := 15; pz := (src (S n) - 0.5) * 20;
        vx := 0; vy := 0; vz := 0 |}, S (S n)).
Proof.
  intros H. unfold respawn. apply Qltb_true in H. now rewrite H.
Qed.

(** So a particle that starts a frame at or above the floor leaves it
    where the integration put it, below the floor or not. *)
Lemma stepParticle_started_above (handActive isActive : bool) (tx ty : Q)
    (p : Particle) (src : nat -> Q) (n : nat) :
  ~ py p < -15 ->
  stepParticle handActive isActive tx ty p src n =
  (integrate p (fst (updateVelocity handActive isActive tx ty p src n)),
   snd (updateVelocity handActive isActive tx ty p src n)).
Proof.
  intros H. unfold stepParticle, bind.
  destruct (updateVelocity handActive isActive tx ty p src n) as [v n'].
  cbn [fst snd]. apply respawn_skipped.
  destruct v as [[vx' vy'] vz']. exact H.
Qed.

Lemma stepAll_idle (handActive : bool) (tx ty : Q) (ps : list Particle)
    (src : nat -> Q) (n : nat) :
  Forall (fun p => ~ py p < -15) ps ->
  stepAll handActive false tx ty ps src n = (map decayed ps, n).
Proof.
  intros H; induction H as [|p ps Hp _ IH]; [reflexivity|].
  cbn [stepAll map]. unfold bind at 1.
  rewrite stepParticle_idle, (respawn_skipped _ _ _ _ Hp).
  unfold bind at 1. rewrite IH. reflexivity.
Qed.

End Dust.

(** C10.  With no active gesture target and the pointer at (0,0), the
    frame has no active source: the velocity update of every particle is
    the decay by 0.95 on each axis, with no other term and no draw; the
    decayed velocity is integrated and the respawn rule follows, so a
    particle at or above the floor ends the frame with its position
    advanced by the decayed velocity.  An active gesture target sets the
    attraction point whatever the pointer. *)
Theorem C10_idle_pointer_only_decays
    (viewport : MagicalDust.Viewport) (pointer : MagicalDust.Pointer)
    (d : MagicalDust.Dust) (src : nat -> Q) (n : nat) :
  MagicalDust.active (MagicalDust.handTarget d) = false ->
  (MagicalDust.pointer_x pointer == 0)%Q ->
  (MagicalDust.pointer_y pointer == 0)%Q ->
  MagicalDust.attraction viewport pointer (MagicalDust.handTarget d)
    = (0%Q, 0%Q, false)
  /\ (forall p m,
        MagicalDust.updateVelocity false false 0 0 p src m
        = ((MagicalDust.vx p * 0.95, MagicalDust.vy p * 0.95,
            MagicalDust.vz p * 0.95)%Q, m))
  /\ (forall p m,
        MagicalDust.stepParticle false false 0 0 p src m
        = MagicalDust.respawn (MagicalDust.py p) (Spec.decayed p) src m)
  /\ (MagicalDust.meshRef d = true ->
      Forall (fun p => ~ (MagicalDust.py p < -15)%Q) (MagicalDust.particles d) ->
      MagicalDust.useFrame viewport pointer d src n
      = ({| MagicalDust.meshRef := true;
            MagicalDust.particles := map Spec.decayed (MagicalDust.particles d);
            MagicalDust.handTarget := MagicalDust.handTarget d |}, n))
  /\ (forall (h : MagicalDust.HandTarget) (anywhere : MagicalDust.Pointer),
        MagicalDust.active h = true ->
        MagicalDust.attraction viewport anywhere h
        = ((MagicalDust.x h * MagicalDust.width viewport / 2)%Q,
           (MagicalDust.y h * MagicalDust.height viewport / 2)%Q, true)).
Proof.
  intros Hh Hx Hy.
  split; [apply attraction_idle; assumption|].
  split; [reflexivity|].
  split; [reflexivity|].
  split; [|intros h anywhere; apply attraction_gesture].
  intros Hmesh Hps. unfold MagicalDust.useFrame.
  rewrite Hmesh, (attraction_idle _ _ _ Hh Hx Hy), Hh. cbn [negb].
  unfold Random.bind. rewrite (stepAll_idle _ _ _ _ _ _ Hps). reflexivity.
Qed.

(** The theorem above on one particle drifting at height 3, the pointer
    never moved. *)
Lemma C10_idle_pointer_witness :
  let p := {| MagicalDust.px := 1; MagicalDust.py := 3; MagicalDust.pz := -2;
              MagicalDust.vx := 0.2; MagicalDust.vy := -0.1;
              MagicalDust.vz := 0 |}%Q in
  let d := {| MagicalDust.meshRef := true; MagicalDust.particles := [p];
              MagicalDust.handTarget := MagicalDust.initialHandTarget |} in
  let viewport := {| MagicalDust.width := 30; MagicalDust.height := 20 |}%Q in
  let pointer := {| MagicalDust.pointer_x := 0; MagicalDust.pointer_y := 0 |}%Q in
  MagicalDust.active (MagicalDust.handTarget d) = false
  /\ (MagicalDust.pointer_x pointer == 0)%Q
  /\ (MagicalDust.pointer_y pointer == 0)%Q
  /\ MagicalDust.useFrame viewport pointer d (fun _ => 0.5%Q) 0
     = ({| MagicalDust.meshRef := true;
           MagicalDust.particles := [Spec.decayed p];
           MagicalDust.handTarget := MagicalDust.initialHandTarget |}, 0%nat).
Proof.
  intros p d viewport pointer.
  assert (Hh : MagicalDust.active (MagicalDust.handTarget d) = false) by reflexivity.
  assert (Hx : (MagicalDust.pointer_x pointer == 0)%Q) by reflexivity.
  assert (Hy : (MagicalDust.pointer_y pointer == 0)%Q) by reflexivity.
  split; [exact Hh|]. split; [exact Hx|]. split; [exact Hy|].
  destruct (C10_idle_pointer_only_decays viewport pointer d (fun _ => 0.5%Q) 0 Hh Hx Hy)
    as (_ & _ & _ & Hframe & _).
  apply Hframe; [reflexivity|].
  constructor; [|constructor]. intros H. vm_compute in H. discriminate.
Defined.

(** C3 (fails).  A particle at height -14.99 falling at 0.1 per frame
    crosses the floor in this frame's integration and is not respawned:
    the frame leaves it at -15.085, below the floor, with its velocity
    intact.  The respawn comes one frame late, because the test reads the
    height from before the integration. *)
Theorem C3_crossing_particle_is_not_respawned
    (viewport : MagicalDust.Viewport) (src : nat -> Q) (n : nat) :
  let p := {| MagicalDust.px := 0; MagicalDust.py := -14.99; MagicalDust.pz := 0;
              MagicalDust.vx := 0; MagicalDust.vy := -0.1; MagicalDust.vz := 0 |}%Q in
  let d := {| MagicalDust.meshRef := true; MagicalDust.particles := [p];
              MagicalDust.handTarget := MagicalDust.initialHandTarget |} in
  let pointer := {| MagicalDust.pointer_x := 0; MagicalDust.pointer_y := 0 |}%Q in
  exists p' n' p'',
    MagicalDust.useFrame viewport pointer d src n
      = ({| MagicalDust.meshRef := true; MagicalDust.particles := [p'];
            MagicalDust.handTarget := MagicalDust.initialHandTarget |}, n')
    /\ ~ (MagicalDust.py p < -15)%Q
    /\ (MagicalDust.py p' == -15.085)%Q
    /\ (MagicalDust.py p' < -15)%Q
    /\ (MagicalDust.vy p' == -0.095)%Q
    /\ MagicalDust.particles
         (fst (MagicalDust.useFrame viewport pointer
                 {| MagicalDust.meshRef := true; MagicalDust.particles := [p'];
                    MagicalDust.handTarget := MagicalDust.initialHandTarget |}
                 src n')) = [p'']
    /\ MagicalDust.py p'' = 15%Q
    /\ (MagicalDust.vx p'', MagicalDust.vy p'', MagicalDust.vz p'') = (0, 0, 0)%Q.
Proof.
  intros p d pointer.
  exists (Spec.decayed p), n.
  exists {| MagicalDust.px := (src n - 0.5) * 20; MagicalDust.py := 15;
            MagicalDust.pz := (src (S n) - 0.5) * 20;
            MagicalDust.vx := 0; MagicalDust.vy := 0; MagicalDust.vz := 0 |}%Q.
  split; [reflexivity|].
  split; [intros H; vm_compute in H; discriminate|].
  split; [reflexivity|].
  split; [reflexivity|].
  split; [reflexivity|].
  split; [reflexivity|].
  split; reflexivity.
Qed.

(** * Further properties of the components *)

(** ** The progress controller and the drag physics *)

(** X1.  The progress update does not depend on how time is cut into
    frames: two frames of [d1] and [d2] seconds give the progress of one
    frame of [d1 + d2] seconds; a frame of zero seconds changes nothing,
    and a progress that has reached the target stays there. *)
Theorem advance_is_frame_rate_independent
    (state : Types.TreeState) (p d1 d2 : R) :
  ChristmasTree.advance state (ChristmasTree.advance state p d1) d2
    = ChristmasTree.advance state p (d1 + d2)%R
  /\ ChristmasTree.advance state p 0 = p
  /\ ChristmasTree.advance state (ChristmasTree.target state) d1
     = ChristmasTree.target state.
Proof.
  pose proof (advance_error state) as He.
  assert (Hkey : forall a b : R,
             (a - ChristmasTree.target state = b - ChristmasTree.target state)%R -> a = b)
    by (intros a b H; lra).
  split; [|split]; apply Hkey.
  - rewrite !He.
    replace (- (2 * (d1 + d2)))%R with (- (2 * d1) + - (2 * d2))%R by ring.
    rewrite exp_plus. ring.
  - rewrite He. replace (- (2 * 0))%R with 0%R by ring. rewrite exp_0. ring.
  - rewrite He. ring.
Qed.

Section Coasting.

Import Types THREE ChristmasTree.
Local Open Scope R_scope.

Import Derived.

Lemma stopTiny_cases (v : R) :
  (Rabs v < 0.0001 /\ stopTiny v = 0) \/ (0.0001 <= Rabs v /\ stopTiny v = v).
Proof.
  unfold stopTiny. destruct (Rlt_dec (Rabs v) 0.0001) as [H|H]; [left | right];
    split; try reflexivity; lra.
Qed.

Lemma stopTiny_0 : stopTiny 0 = 0.
Proof.
  destruct (stopTiny_cases 0) as [[_ H]|[H _]]; [exact H|].
  rewrite Rabs_R0 in H. lra.
Qed.

(** A frame on a mounted tree that is not dragged. *)
Lemma useFrame_released (state : TreeState) (delta : R) (s : Tree) (r : Rotation) :
  groupRef s = Some r -> isDragging s = false ->
  velocityY (useFrame state delta s) = slow (velocityY s)
  /\ velocityX (useFrame state delta s) = slow (velocityX s)
  /\ isDragging (useFrame state delta s) = false
  /\ groupRef (useFrame state delta s)
     = Some (fst (physics state r (velocityY s) (velocityX s))).
Proof.
  intros Hg Hd. unfold useFrame. rewrite Hg, Hd.
  unfold physics, slow. cbn. repeat split.
Qed.





End Coasting.



Section Dragging.

Import Types ChristmasTree.
Local Open Scope R_scope.

Lemma formed_moves_keep_pitch (moves : list PointerEvent) (s : Tree) :
  isDragging s = true -> velocityX s = 0 ->
  let s' := fold_left (fun t e => handlePointerMove FORMED e t) moves s in
  velocityX s' = 0 /\ isDragging s' = true
  /\ option_map rotation_x (groupRef s') = option_map rotation_x (groupRef s).
Proof.
  revert s; induction moves as [|e moves IH]; intros s Hd Hv; cbn [fold_left].
  - auto.
  - assert (Hd' : isDragging (handlePointerMove FORMED e s) = true).
    { unfold handlePointerMove. rewrite Hd. reflexivity. }
    assert (Hv' : velocityX (handlePointerMove FORMED e s) = 0).
    { unfold handlePointerMove. rewrite Hd. cbn. exact Hv. }
    destruct (IH _ Hd' Hv') as (H1 & H2 & H3).
    split; [exact H1|]. split; [exact H2|]. rewrite H3.
    unfold handlePointerMove. rewrite Hd. cbn. rewrite Hv.
    destruct (groupRef s) as [r|]; cbn; [f_equal; ring | reflexivity].
Qed.

End Dragging.

(** X3.  A drag of a formed tree never tips it: from the pointer-down
    that starts the drag, through any number of move events, the pitch
    velocity is zero and the pitch of the group is the one it had. *)
Theorem formed_drag_never_pitches
    (down : ChristmasTree.PointerEvent) (moves : list ChristmasTree.PointerEvent)
    (s : ChristmasTree.Tree) :
  ChristmasTree.defaultPrevented down = false ->
  let s' := fold_left (fun t e => ChristmasTree.handlePointerMove Types.FORMED e t)
              moves (ChristmasTree.handlePointerDown down s) in
  ChristmasTree.velocityX s' = 0%R
  /\ ChristmasTree.isDragging s' = true
  /\ option_map ChristmasTree.rotation_x (ChristmasTree.groupRef s')
     = option_map ChristmasTree.rotation_x (ChristmasTree.groupRef s).
Proof.
  intros Hdown.
  assert (Hstart : ChristmasTree.handlePointerDown down s
                   = {| ChristmasTree.velocityY := 0; ChristmasTree.velocityX := 0;
                        ChristmasTree.isDragging := true;
                        ChristmasTree.lastPointer :=
                          {| ChristmasTree.x := ChristmasTree.clientX down;
                             ChristmasTree.y := ChristmasTree.clientY down |};
                        ChristmasTree.progressRef := ChristmasTree.progressRef s;
                        ChristmasTree.focusedPhotoIndex := ChristmasTree.focusedPhotoIndex s;
                        ChristmasTree.groupRef := ChristmasTree.groupRef s |}).
  { unfold ChristmasTree.handlePointerDown. now rewrite Hdown. }
  intros s'. subst s'. rewrite Hstart.
  match goal with
  | |- context [fold_left _ moves ?start] =>
      exact (formed_moves_keep_pitch moves start eq_refl eq_refl)
  end.
Qed.

(** The theorem above: a tilted tree dragged down and to the right in two
    moves. *)
Lemma formed_drag_never_pitches_witness :
  let s := {| ChristmasTree.velocityY := 0.02; ChristmasTree.velocityX := 0.01;
              ChristmasTree.isDragging := false;
              ChristmasTree.lastPointer :=
                {| ChristmasTree.x := 0; ChristmasTree.y := 0 |};
              ChristmasTree.progressRef := 1;
              ChristmasTree.focusedPhotoIndex := None;
              ChristmasTree.groupRef :=
                Some {| ChristmasTree.rotation_x := 0.3;
                        ChristmasTree.rotation_y := 1 |} |}%R in
  let ev := fun a b => {| ChristmasTree.defaultPrevented := false;
                          ChristmasTree.clientX := a; ChristmasTree.clientY := b |} in
  let s' := fold_left (fun t e => ChristmasTree.handlePointerMove Types.FORMED e t)
              [ev 120 140; ev 150 200]%R
              (ChristmasTree.handlePointerDown (ev 100 100)%R s) in
  ChristmasTree.velocityX s' = 0%R
  /\ option_map ChristmasTree.rotation_x (ChristmasTree.groupRef s') = Some 0.3%R.
Proof.
  intros s ev s'.
  destruct (formed_drag_never_pitches (ev 100 100)%R [ev 120 140; ev 150 200]%R s eq_refl)
    as (Hv & _ & Hr).
  split; [exact Hv | exact Hr].
Defined.

(** X4.  With both velocities at zero, a released, mounted tree drifts:
    when formed, each frame adds 0.001 to the yaw and multiplies the pitch
    by 0.95, so the pitch goes back to level geometrically; in chaos, each
    frame adds 0.0005 to the yaw and 0.0003 to the pitch.  The velocities
    stay zero. *)
Theorem idle_tree_drifts
    (state : Types.TreeState) (delta : R) (n : nat)
    (s : ChristmasTree.Tree) (r : ChristmasTree.Rotation) :
  ChristmasTree.groupRef s = Some r ->
  ChristmasTree.isDragging s = false ->
  ChristmasTree.velocityY s = 0%R ->
  ChristmasTree.velocityX s = 0%R ->
  let s' := Nat.iter n (ChristmasTree.useFrame state delta) s in
  ChristmasTree.groupRef s' =
    Some match state with
         | Types.FORMED =>
             {| ChristmasTree.rotation_x := ChristmasTree.rotation_x r * 0.95 ^ n;
                ChristmasTree.rotation_y := ChristmasTree.rotation_y r + INR n * 0.001 |}
         | Types.CHAOS =>
             {| ChristmasTree.rotation_x := ChristmasTree.rotation_x r + INR n * 0.0003;
                ChristmasTree.rotation_y := ChristmasTree.rotation_y r + INR n * 0.0005 |}
         end%R
  /\ ChristmasTree.velocityY s' = 0%R
  /\ ChristmasTree.velocityX s' = 0%R
  /\ ChristmasTree.isDragging s' = false.
Proof.
  intros Hg Hd Hy Hx. induction n as [|n (Hgn & Hyn & Hxn & Hdn)].
  - cbn zeta. change (Nat.iter 0 (ChristmasTree.useFrame state delta) s) with s.
    rewrite Hg. repeat split; try assumption.
    destruct r as [rx ry]; destruct state; cbn; do 2 f_equal; ring.
  - cbn zeta. rewrite Nat.iter_succ. cbn zeta in Hgn, Hyn, Hxn, Hdn.
    set (t := Nat.iter n (ChristmasTree.useFrame state delta) s) in *.
    destruct (useFrame_released state delta t _ Hgn Hdn) as (Hy' & Hx' & Hd' & Hg').
    rewrite Hy', Hx', Hg', Hyn, Hxn.
    assert (Hslow : Derived.slow 0 = 0%R).
    { unfold Derived.slow. rewrite Rmult_0_l. apply stopTiny_0. }
    rewrite Hslow. repeat split; [|exact Hd'].
    unfold ChristmasTree.physics.
    replace (ChristmasTree.stopTiny (0 * 0.98)) with 0%R
      by (symmetry; rewrite Rmult_0_l; apply stopTiny_0).
    destruct (Rlt_dec (Rabs 0) 0.001) as [_|Hn]; [|exfalso; rewrite Rabs_R0 in Hn; lra].
    cbn [fst]. rewrite S_INR.
    destruct state; cbn; unfold THREE.lerp; do 2 f_equal; try lra; nra.
Qed.

(** The theorem above: a formed tree left tilted by 0.4 for ten frames. *)
Lemma idle_tree_drifts_witness :
  let s := {| ChristmasTree.velocityY := 0; ChristmasTree.velocityX := 0;
              ChristmasTree.isDragging := false;
              ChristmasTree.lastPointer :=
                {| ChristmasTree.x := 0; ChristmasTree.y := 0 |};
              ChristmasTree.progressRef := 1;
              ChristmasTree.focusedPhotoIndex := None;
              ChristmasTree.groupRef :=
                Some {| ChristmasTree.rotation_x := 0.4;
                        ChristmasTree.rotation_y := 2 |} |}%R in
  ChristmasTree.groupRef (Nat.iter 10 (ChristmasTree.useFrame Types.FORMED (/ 60)%R) s)
  = Some {| ChristmasTree.rotation_x := 0.4 * 0.95 ^ 10;
            ChristmasTree.rotation_y := 2 + INR 10 * 0.001 |}%R.
Proof.
  intros s.
  exact (proj1 (idle_tree_drifts Types.FORMED (/ 60)%R 10 s _
                  eq_refl eq_refl eq_refl eq_refl)).
Defined.

(** ** Ornaments: the generated populations and their instances *)

Section OrnamentPopulations.

Import Types Random THREE Ornaments Spec Derived.
Local Open Scope R_scope.

Variable C : Constants.
Variable count : nat.
Variable type : OrnamentType.

Lemma chaosData_push (acc : TransformData) (e : ChaosDatum * TargetDatum * option Color) :
  chaosData (push acc e) = chaosData acc ++ [fst (fst e)].
Proof. destruct e as [[chaos target] color]. reflexivity. Qed.

Lemma colors_push (acc : TransformData) (e : ChaosDatum * TargetDatum * option Color) :
  colors (push acc e) = colors acc ++ [snd e].
Proof. destruct e as [[chaos target] color]. reflexivity. Qed.

Lemma generateTransformData_draws (src : nat -> R) (n : nat) :
  snd (generateTransformData C count type src n) = (n + 10 * count)%nat.
Proof.
  unfold generateTransformData.
  now rewrite (forEach_seq (entity C count type) push 10 (body C count type)
                 (entity_draws C count type) (body_pushes C count type)).
Qed.

Lemma generateTransformData_chaos (src : nat -> R) (n i : nat) :
  (i < count)%nat ->
  nth_error (chaosData (fst (generateTransformData C count type src n))) i =
  Some (fst (fst (fst (entity C count type i src (n + 10 * i)%nat)))).
Proof.
  intros Hi. unfold generateTransformData.
  apply (forEach_collects_nth (entity C count type) push 10 (body C count type)
           (entity_draws C count type) (body_pushes C count type)
           ChaosDatum chaosData (fun e => fst (fst e)) chaosData_push);
    [reflexivity | exact Hi].
Qed.

Lemma generateTransformData_color (src : nat -> R) (n i : nat) :
  (i < count)%nat ->
  nth_error (colors (fst (generateTransformData C count type src n))) i =
  Some (snd (fst (entity C count type i src (n + 10 * i)%nat))).
Proof.
  intros Hi. unfold generateTransformData.
  apply (forEach_collects_nth (entity C count type) push 10 (body C count type)
           (entity_draws C count type) (body_pushes C count type)
           (option Color) colors (fun e => snd e) colors_push);
    [reflexivity | exact Hi].
Qed.

Lemma generateTransformData_lengths (src : nat -> R) (n : nat) :
  let d := fst (generateTransformData C count type src n) in
  length (chaosData d) = count /\ length (targetData d) = count
  /\ length (colors d) = count.
Proof.
  unfold generateTransformData.
  pose proof (forEach_collects (entity C count type) push 10 (body C count type)
                (entity_draws C count type) (body_pushes C count type)) as H.
  cbn zeta. split; [|split].
  - rewrite (H ChaosDatum chaosData (fun e => fst (fst e)) chaosData_push) by reflexivity.
    now rewrite length_map, length_seq.
  - rewrite (H TargetDatum targetData targetOf targetData_push) by reflexivity.
    now rewrite length_map, length_seq.
  - rewrite (H (option Color) colors (fun e => snd e) colors_push) by reflexivity.
    now rewrite length_map, length_seq.
Qed.

End OrnamentPopulations.

(** [sphereCount] is [floor (0.75 * ORNAMENT_COUNT)]: the largest number
    whose four-fold is at most three times the count; the boxes are the
    rest. *)
Lemma sphere_box_split (C : Types.Constants) :
  (Ornaments.sphereCount C + Ornaments.boxCount C = Types.ORNAMENT_COUNT C)%nat
  /\ (4 * Ornaments.sphereCount C <= 3 * Types.ORNAMENT_COUNT C)%nat
  /\ (3 * Types.ORNAMENT_COUNT C < 4 * (Ornaments.sphereCount C + 1))%nat.
Proof.
  unfold Ornaments.boxCount, Ornaments.sphereCount.
  pose proof (Nat.Div0.mul_div_le (3 * Types.ORNAMENT_COUNT C) 4) as H.
  pose proof (Nat.mul_succ_div_gt (3 * Types.ORNAMENT_COUNT C) 4) as H'.
  lia.
Qed.

(** The two populations, one after the other on the same random source. *)
Lemma populations_generated (C : Types.Constants) (src : nat -> R) (n : nat) :
  Ornaments.populations C src n
  = ((fst (Ornaments.generateTransformData C (Ornaments.sphereCount C)
             Ornaments.sphere src n),
      fst (Ornaments.generateTransformData C (Ornaments.boxCount C)
             Ornaments.box src (n + 10 * Ornaments.sphereCount C))),
     (n + 10 * Ornaments.sphereCount C + 10 * Ornaments.boxCount C)%nat).
Proof.
  unfold Ornaments.populations, Random.bind, Random.ret.
  pose proof (generateTransformData_draws C (Ornaments.sphereCount C)
                Ornaments.sphere src n) as Hs.
  destruct (Ornaments.generateTransformData C (Ornaments.sphereCount C)
              Ornaments.sphere src n) as [spheres n1].
  cbn [fst snd] in Hs |- *. subst n1.
  pose proof (generateTransformData_draws C (Ornaments.boxCount C)
                Ornaments.box src (n + 10 * Ornaments.sphereCount C)) as Hb.
  destruct (Ornaments.generateTransformData C (Ornaments.boxCount C)
              Ornaments.box src (n + 10 * Ornaments.sphereCount C)) as [boxes n2].
  cbn [fst snd] in Hb |- *. now subst n2.
Qed.

Lemma populations_lengths (C : Types.Constants) (src : nat -> R) (n : nat) :
  let spheres := fst (fst (Ornaments.populations C src n)) in
  let boxes := snd (fst (Ornaments.populations C src n)) in
  (length (Ornaments.chaosData spheres) = Ornaments.sphereCount C
   /\ length (Ornaments.targetData spheres) = Ornaments.sphereCount C
   /\ length (Ornaments.colors spheres) = Ornaments.sphereCount C)
  /\ (length (Ornaments.chaosData boxes) = Ornaments.boxCount C
      /\ length (Ornaments.targetData boxes) = Ornaments.boxCount C
      /\ length (Ornaments.colors boxes) = Ornaments.boxCount C).
Proof.
  cbn zeta. rewrite populations_generated. cbn [fst snd].
  split; apply generateTransformData_lengths.
Qed.

(** X5.  The component builds one sphere population and one box
    population whose sizes add up to [ORNAMENT_COUNT].  The number of
    spheres is the integer part of three quarters of [ORNAMENT_COUNT]: four
    times it is at most three times the count, and four times the next
    number is more; so the boxes are a quarter of the count, rounded up.
    In each population the three arrays (chaos data, target data, colours)
    have the population's size, and the two populations use 10 draws per
    ornament, the boxes drawing after the spheres. *)
Theorem ornament_populations_are_complete
    (C : Types.Constants) (src : nat -> R) (n : nat) :
  let spheres := fst (fst (Ornaments.populations C src n)) in
  let boxes := snd (fst (Ornaments.populations C src n)) in
  (Ornaments.sphereCount C + Ornaments.boxCount C = Types.ORNAMENT_COUNT C)%nat
  /\ (4 * Ornaments.sphereCount C <= 3 * Types.ORNAMENT_COUNT C)%nat
  /\ (3 * Types.ORNAMENT_COUNT C < 4 * (Ornaments.sphereCount C + 1))%nat
  /\ (Types.ORNAMENT_COUNT C <= 4 * Ornaments.boxCount C)%nat
  /\ (4 * Ornaments.boxCount C < Types.ORNAMENT_COUNT C + 4)%nat
  /\ (INR (Ornaments.sphereCount C)
      = IZR (Int_part (0.75 * INR (Types.ORNAMENT_COUNT C))))%R
  /\ length (Ornaments.chaosData spheres) = Ornaments.sphereCount C
  /\ length (Ornaments.targetData spheres) = Ornaments.sphereCount C
  /\ length (Ornaments.colors spheres) = Ornaments.sphereCount C
  /\ length (Ornaments.chaosData boxes) = Ornaments.boxCount C
  /\ length (Ornaments.targetData boxes) = Ornaments.boxCount C
  /\ length (Ornaments.colors boxes) = Ornaments.boxCount C
  /\ spheres = fst (Ornaments.generateTransformData C (Ornaments.sphereCount C)
                      Ornaments.sphere src n)
  /\ boxes = fst (Ornaments.generateTransformData C (Ornaments.boxCount C)
                    Ornaments.box src (n + 10 * Ornaments.sphereCount C))
  /\ snd (Ornaments.populations C src n) = (n + 10 * Types.ORNAMENT_COUNT C)%nat.
Proof.
  destruct (sphere_box_split C) as (Hsum & Hq & Hq').
  destruct (populations_lengths C src n) as ((? & ? & ?) & (? & ? & ?)).
  cbn zeta.
  split; [exact Hsum|]. split; [exact Hq|]. split; [exact Hq'|].
  split; [lia|]. split; [lia|].
  split.
  { rewrite INR_IZR_INZ. f_equal. apply Int_part_spec.
    rewrite <- INR_IZR_INZ.
    apply le_INR in Hq. apply lt_INR in Hq'.
    rewrite !mult_INR in Hq, Hq'. rewrite plus_INR in Hq'.
    assert (INR 4 = 4%R /\ INR 3 = 3%R /\ INR 1 = 1%R) as (Ei4 & Ei3 & Ei1)
      by (cbn [INR]; lra).
    rewrite ?Ei4, ?Ei3, ?Ei1 in Hq, Hq'. lra. }
  repeat (split; [assumption|]).
  rewrite populations_generated. cbn [fst snd].
  split; [reflexivity|]. split; [reflexivity|]. lia.
Qed.

Section OrnamentGeometry.

Import Types Random THREE Ornaments Spec Derived.
Local Open Scope R_scope.

Lemma index_fraction (i count : nat) :
  (i < count)%nat -> 0 <= INR i / INR count < 1.
Proof.
  intros Hi.
  assert (0 < INR count) by (apply lt_0_INR; lia).
  assert (0 <= INR i) by apply pos_INR.
  assert (INR i < INR count) by (apply lt_INR; exact Hi).
  split.
  - unfold Rdiv. apply Rmult_le_pos; [assumption|].
    left. apply Rinv_0_lt_compat. assumption.
  - apply (Rmult_lt_reg_r (INR count)); [assumption|].
    unfold Rdiv. rewrite Rmult_assoc, Rinv_l by lra. lra.
Qed.

(** [Math.pow(t, 1.1)] stays below [t] on [0,1): the bias of the boxes is
    toward the base. *)
Lemma Math_pow_bias (t : R) : 0 <= t < 1 -> 0 <= Math_pow t 1.1 <= t.
Proof.
  intros [H0 H1]. unfold Math_pow.
  destruct (Req_dec_T t 0) as [->|Hne]; [lra|].
  assert (Hpos : 0 < t) by lra.
  unfold Rpower. split; [left; apply exp_pos|].
  assert (Hln : ln t < 0) by (rewrite <- ln_1; apply ln_increasing; lra).
  rewrite <- (exp_ln t Hpos) at 2.
  left. apply exp_increasing. nra.
Qed.

Lemma circle_point (a r : R) :
  cos a * r * (cos a * r) + sin a * r * (sin a * r) = r * r.
Proof.
  replace (cos a * r * (cos a * r) + sin a * r * (sin a * r))
    with (r * r * ((sin a)² + (cos a)²)) by (unfold Rsqr; ring).
  rewrite sin2_cos2. ring.
Qed.

Lemma sphere_point (rho phi theta : R) :
  rho * sin phi * cos theta * (rho * sin phi * cos theta)
  + rho * cos phi * (rho * cos phi)
  + rho * sin phi * sin theta * (rho * sin phi * sin theta) = rho * rho.
Proof.
  replace (rho * sin phi * cos theta * (rho * sin phi * cos theta)
           + rho * cos phi * (rho * cos phi)
           + rho * sin phi * sin theta * (rho * sin phi * sin theta))
    with (rho * rho * ((sin phi)² * ((sin theta)² + (cos theta)²) + (cos phi)²))
    by (unfold Rsqr; ring).
  rewrite sin2_cos2, Rmult_1_r, sin2_cos2. ring.
Qed.

Variable C : Constants.
Variable count : nat.
Variable type : OrnamentType.

Lemma entity_on_cone (i : nat) (src : nat -> R) (n : nat) :
  TREE_HEIGHT C <> 0 ->
  let t := targetOf (fst (entity C count type i src n)) in
  let hN := if isBox type then Math_pow (INR i / INR count) 1.1
            else INR i / INR count in
  Vector3.y (pos t) = hN * TREE_HEIGHT C - TREE_HEIGHT C / 2
  /\ axisDistance2 (pos t) = (1 - hN) * radius C type * ((1 - hN) * radius C type).
Proof.
  intros HH. unfold entity, bind, Math_random, ret, targetOf, axisDistance2; cbn.
  unfold height. split; [reflexivity|].
  rewrite circle_point. f_equal; f_equal; field; exact HH.
Qed.

Lemma entity_on_shell (i : nat) (src : nat -> R) (n : nat) :
  0 <= src n < 1 ->
  let c := fst (fst (fst (entity C count type i src n))) in
  exists chaosR, 12 <= chaosR < 20 /\ norm2 (chaos_pos c) = chaosR * chaosR.
Proof.
  intros Hr. unfold entity, bind, Math_random, ret, norm2; cbn.
  exists (12 + src n * 8). split; [lra | apply sphere_point].
Qed.

Lemma palette_pick (r : R) :
  0 <= r < 1 ->
  exists c, nth_error (palette type) (Math_floor (r * INR (length (palette type)))) = Some c
            /\ In c (palette type).
Proof.
  intros [H0 H1].
  set (len := length (palette type)).
  assert (Hlen : (0 < len)%nat) by (subst len; destruct type; cbn; lia).
  assert (HlenR : 0 < INR len) by (apply lt_0_INR; exact Hlen).
  destruct (base_Int_part (r * INR len)) as [Hle Hgt].
  assert (Hlt : (Int_part (r * INR len) < Z.of_nat len)%Z).
  { apply lt_IZR. rewrite <- INR_IZR_INZ. nra. }
  assert (Hge : (-1 < Int_part (r * INR len))%Z).
  { apply lt_IZR. assert (0 <= r * INR len) by nra. lra. }
  assert (Hidx : (Math_floor (r * INR len) < len)%nat) by (unfold Math_floor; lia).
  destruct (nth_error (palette type) (Math_floor (r * INR len))) as [c|] eqn:Hc.
  - exists c. split; [reflexivity | exact (nth_error_In _ _ Hc)].
  - apply nth_error_None in Hc. fold len in Hc. lia.
Qed.

Lemma entity_color (i : nat) (src : nat -> R) (n : nat) :
  0 <= src (n + 9)%nat < 1 ->
  exists c, snd (fst (entity C count type i src n)) = Some c /\ In c (palette type).
Proof.
  intros Hr. unfold entity, bind, Math_random, ret; cbn [fst snd].
  replace (S (S (S (S (S (S (S (S (S n))))))))) with (n + 9)%nat by lia.
  apply palette_pick, Hr.
Qed.

End OrnamentGeometry.

(** X6.  With a tree of non-zero height, the target of ornament [i] of a
    population lies on a cone around the vertical axis: at normalized
    height [hN] its height is [hN * TREE_HEIGHT - TREE_HEIGHT / 2] and its
    distance from the axis is [(1 - hN) * radius], with [hN = i / count]
    for a sphere and [hN = (i / count) ^ 1.1], which is at most [i / count],
    for a box. *)
Theorem ornament_targets_lie_on_cone
    (C : Types.Constants) (count : nat) (type : Ornaments.OrnamentType)
    (src : nat -> R) (n i : nat) :
  Types.TREE_HEIGHT C <> 0%R ->
  (i < count)%nat ->
  exists (t : Ornaments.TargetDatum) (hN : R),
    nth_error (Ornaments.targetData
                 (fst (Ornaments.generateTransformData C count type src n))) i = Some t
    /\ hN = (if Ornaments.isBox type
             then Ornaments.Math_pow (INR i / INR count) 1.1
             else INR i / INR count)%R
    /\ (0 <= hN <= INR i / INR count)%R
    /\ (INR i / INR count < 1)%R
    /\ THREE.Vector3.y (Ornaments.pos t)
       = (hN * Types.TREE_HEIGHT C - Types.TREE_HEIGHT C / 2)%R
    /\ Derived.axisDistance2 (Ornaments.pos t)
       = ((1 - hN) * Ornaments.radius C type * ((1 - hN) * Ornaments.radius C type))%R.
Proof.
  intros HH Hi.
  destruct (entity_on_cone C count type i src (n + 10 * i) HH) as [Hy Hd].
  pose proof (index_fraction i count Hi) as Ht.
  eexists; eexists.
  split; [apply generateTransformData_target, Hi|].
  split; [reflexivity|].
  split; [|split; [apply Ht | split; [exact Hy | exact Hd]]].
  destruct type; cbn [Ornaments.isBox]; [lra | apply Math_pow_bias, Ht].
Qed.

(** The theorem above for the third of four boxes on a tree of height 15. *)
Lemma ornament_targets_lie_on_cone_witness :
  let C := {| Types.TREE_HEIGHT := 15; Types.TREE_RADIUS := 5;
              Types.ORNAMENT_COUNT := 16; Types.PHOTO_COUNT := 3 |} in
  exists (t : Ornaments.TargetDatum) (hN : R),
    nth_error (Ornaments.targetData
                 (fst (Ornaments.generateTransformData C 4 Ornaments.box
                         (fun _ => 0.5%R) 0))) 2 = Some t
    /\ (0 <= hN <= INR 2 / INR 4)%R
    /\ THREE.Vector3.y (Ornaments.pos t) = (hN * 15 - 15 / 2)%R.
Proof.
  intros C.
  assert (HH : Types.TREE_HEIGHT C <> 0%R) by (cbn; lra).
  assert (Hi : (2 < 4)%nat) by lia.
  destruct (ornament_targets_lie_on_cone C 4 Ornaments.box (fun _ => 0.5%R) 0 2 HH Hi)
    as (t & hN & Ht & _ & Hb & _ & Hy & _).
  exists t, hN. split; [exact Ht|]. split; [exact Hb | exact Hy].
Defined.

(** X7.  With draws in [0,1), every ornament starts, in chaos, on a sphere
    around the origin whose radius lies in [12, 20), and its colour is one
    of the palette of its kind, so never undefined, and never emerald for
    a sphere. *)
Theorem ornament_chaos_shell_and_palette
    (C : Types.Constants) (count : nat) (type : Ornaments.OrnamentType)
    (src : nat -> R) (n i : nat) :
  (forall m, 0 <= src m < 1)%R ->
  (i < count)%nat ->
  let d := fst (Ornaments.generateTransformData C count type src n) in
  (exists (c : Ornaments.ChaosDatum) (chaosR : R),
      nth_error (Ornaments.chaosData d) i = Some c
      /\ (12 <= chaosR < 20)%R
      /\ Derived.norm2 (Ornaments.chaos_pos c) = (chaosR * chaosR)%R)
  /\ (exists col : Types.Color,
        nth_error (Ornaments.colors d) i = Some (Some col)
        /\ In col (Ornaments.palette type)
        /\ (type = Ornaments.sphere -> col <> Types.emerald)).
Proof.
  intros Hsrc Hi d. subst d. split.
  - destruct (entity_on_shell C count type i src (n + 10 * i) (Hsrc _))
      as (chaosR & Hr & Hn).
    eexists; exists chaosR.
    split; [apply generateTransformData_chaos, Hi|]. split; [exact Hr | exact Hn].
  - destruct (entity_color C count type i src (n + 10 * i) (Hsrc _)) as (col & Hc & Hin).
    exists col. split; [|split; [exact Hin|]].
    + rewrite generateTransformData_color by exact Hi. now rewrite Hc.
    + intros ->. cbn in Hin. intros ->.
      repeat (destruct Hin as [Hin|Hin]; [discriminate|]). exact Hin.
Qed.

(** The theorem above for the second of three spheres, all draws 0.99. *)
Lemma ornament_chaos_shell_and_palette_witness :
  let C := {| Types.TREE_HEIGHT := 15; Types.TREE_RADIUS := 5;
              Types.ORNAMENT_COUNT := 4; Types.PHOTO_COUNT := 3 |} in
  let d := fst (Ornaments.generateTransformData C 3 Ornaments.sphere
                  (fun _ => 0.99%R) 0) in
  exists col : Types.Color,
    nth_error (Ornaments.colors d) 1 = Some (Some col)
    /\ In col (Ornaments.palette Ornaments.sphere)
    /\ col <> Types.emerald.
Proof.
  intros C d.
  assert (Hsrc : forall m : nat, (0 <= (fun _ : nat => 0.99%R) m < 1)%R)
    by (intros _; lra).
  assert (Hi : (1 < 3)%nat) by lia.
  destruct (proj2 (ornament_chaos_shell_and_palette C 3 Ornaments.sphere
                     (fun _ => 0.99%R) 0 1 Hsrc Hi))
    as (col & Hc & Hin & Hne).
  exists col. split; [exact Hc|]. split; [exact Hin | exact (Hne eq_refl)].
Defined.

Section OrnamentInstances.

Import Types THREE Ornaments Derived.
Local Open Scope R_scope.

Variable transform : nat -> ChaosDatum -> TargetDatum -> Object3D.
Variable d : TransformData.

(** The loop over a range of indices that the two arrays cover writes one
    instance per index, computed from the entries of that index. *)
Lemma setMatrices_range (cs : list ChaosDatum) (ts : list TargetDatum) :
  forall (pre_c : list ChaosDatum) (pre_t : list TargetDatum),
  length pre_c = length pre_t -> length cs = length ts ->
  chaosData d = pre_c ++ cs -> targetData d = pre_t ++ ts ->
  exists l,
    setMatrices transform d (seq (length pre_c) (length ts)) = Some l
    /\ Forall2 (fun t o => exists i c, o = transform i c t) ts l.
Proof.
  revert cs; induction ts as [|t ts IH]; intros cs pre_c pre_t Hpre Hlen Hc Ht.
  - exists []. split; [reflexivity | constructor].
  - destruct cs as [|c cs]; [discriminate|]. cbn [length seq setMatrices].
    assert (Hnc : nth_error (chaosData d) (length pre_c) = Some c).
    { rewrite Hc, nth_error_app2, Nat.sub_diag by lia. reflexivity. }
    assert (Hnt : nth_error (targetData d) (length pre_c) = Some t).
    { rewrite Ht, Hpre, nth_error_app2, Nat.sub_diag by lia. reflexivity. }
    rewrite Hnc, Hnt.
    destruct (IH cs (pre_c ++ [c]) (pre_t ++ [t])) as (l & Hl & Hall).
    + rewrite !length_app. cbn. lia.
    + cbn in Hlen. lia.
    + rewrite Hc, <- app_assoc. reflexivity.
    + rewrite Ht, <- app_assoc. reflexivity.
    + rewrite length_app in Hl. cbn [length] in Hl.
      rewrite Nat.add_1_r in Hl. rewrite Hl. cbn [option_map].
      eexists. split; [reflexivity|].
      constructor; [exists (length pre_c), c; reflexivity | exact Hall].
Qed.

Lemma setMatrices_all :
  length (chaosData d) = length (targetData d) ->
  exists l,
    setMatrices transform d (seq 0 (length (targetData d))) = Some l
    /\ Forall2 (fun t o => exists i c, o = transform i c t) (targetData d) l.
Proof.
  intros Hlen.
  exact (setMatrices_range (chaosData d) (targetData d) [] [] eq_refl Hlen eq_refl eq_refl).
Qed.

End OrnamentInstances.

Lemma Forall2_map_eq {A B : Type} (g : A -> B) (xs : list A) (ys : list B) :
  Forall2 (fun x y => y = g x) xs ys -> ys = map g xs.
Proof. induction 1; cbn; congruence. Qed.

Lemma sphereTransform_formed (time : R) (i : nat)
    (c : Ornaments.ChaosDatum) (t : Ornaments.TargetDatum) :
  Ornaments.sphereTransform 1 time i c t = Derived.atTarget t.
Proof.
  unfold Ornaments.sphereTransform, Derived.atTarget, THREE.lerp, THREE.lerpVectors.
  destruct t as [[px py pz] [rx ry rz] sc]; cbn.
  f_equal; f_equal; ring.
Qed.

Lemma boxTransform_formed (time : R) (i : nat)
    (c : Ornaments.ChaosDatum) (t : Ornaments.TargetDatum) :
  Ornaments.boxTransform 1 time i c t = Derived.atTarget t.
Proof.
  unfold Ornaments.boxTransform, Derived.atTarget, THREE.lerp, THREE.lerpVectors.
  destruct t as [[px py pz] [rx ry rz] sc]; cbn.
  f_equal; f_equal; ring.
Qed.

Lemma setMatrices_formed
    (transform : nat -> Ornaments.ChaosDatum -> Ornaments.TargetDatum -> Ornaments.Object3D)
    (d : Ornaments.TransformData) (count : nat) :
  (forall i c t, transform i c t = Derived.atTarget t) ->
  length (Ornaments.chaosData d) = count ->
  length (Ornaments.targetData d) = count ->
  Ornaments.setMatrices transform d (seq 0 count)
  = Some (map Derived.atTarget (Ornaments.targetData d)).
Proof.
  intros Htr Hc Ht.
  destruct (setMatrices_all transform d) as (l & Hl & Hall); [congruence|].
  rewrite Ht in Hl. rewrite Hl. f_equal. apply Forall2_map_eq.
  eapply Forall2_impl; [|exact Hall].
  intros t o (i & c & ->). apply Htr.
Qed.

(** X8.  Once the progress is 1, the frame callback writes every
    ornament of both populations exactly at its target: the target's
    position, rotation and scale, with no wobble or tumble left, whatever
    the time.  For any progress it writes one instance per ornament and
    never reads past the arrays. *)
Theorem formed_ornaments_sit_on_targets
    (C : Types.Constants) (src : nat -> R) (n : nat) (progress time : R) :
  let spheres := fst (fst (Ornaments.populations C src n)) in
  let boxes := snd (fst (Ornaments.populations C src n)) in
  Ornaments.updateSpheres C 1 time spheres
    = Some (map Derived.atTarget (Ornaments.targetData spheres))
  /\ Ornaments.updateBoxes C 1 time boxes
    = Some (map Derived.atTarget (Ornaments.targetData boxes))
  /\ (exists l, Ornaments.updateSpheres C progress time spheres = Some l
                /\ length l = Ornaments.sphereCount C)
  /\ (exists l, Ornaments.updateBoxes C progress time boxes = Some l
                /\ length l = Ornaments.boxCount C).
Proof.
  intros spheres boxes.
  destruct (populations_lengths C src n) as ((Hsc & Hst & _) & (Hbc & Hbt & _)).
  fold spheres in Hsc, Hst. fold boxes in Hbc, Hbt.
  unfold Ornaments.updateSpheres, Ornaments.updateBoxes.
  split; [apply setMatrices_formed; [apply sphereTransform_formed | exact Hsc | exact Hst]|].
  split; [apply setMatrices_formed; [apply boxTransform_formed | exact Hbc | exact Hbt]|].
  split.
  - destruct (setMatrices_all (Ornaments.sphereTransform progress time) spheres)
      as (l & Hl & Hall); [congruence|].
    exists l. rewrite Hst in Hl. split; [exact Hl|].
    rewrite <- (Forall2_length Hall). exact Hst.
  - destruct (setMatrices_all (Ornaments.boxTransform progress time) boxes)
      as (l & Hl & Hall); [congruence|].
    exists l. rewrite Hbt in Hl. split; [exact Hl|].
    rewrite <- (Forall2_length Hall). exact Hbt.
Qed.

(** ** Photo frames: photos, geometry, crop and approach *)

(** X9.  Without uploaded photos no frame shows one.  Otherwise every
    frame shows one of the photos, frame [i] the photo of index
    [i mod number of photos]: the first frames show the photos in order,
    and the assignment repeats with the number of photos as period. *)
Theorem photos_cycle_over_frames (userPhotos : list string) (i : nat) :
  PhotoFrames.photoUrl [] i = None
  /\ (userPhotos <> [] ->
      exists url,
        PhotoFrames.photoUrl userPhotos i = Some url
        /\ In url userPhotos
        /\ PhotoFrames.photoUrl userPhotos (i + length userPhotos)
           = PhotoFrames.photoUrl userPhotos i)
  /\ ((i < length userPhotos)%nat ->
      PhotoFrames.photoUrl userPhotos i = nth_error userPhotos i).
Proof.
  split; [reflexivity|]. unfold PhotoFrames.photoUrl. split.
  - intros Hne.
    assert (Hlen : (0 < length userPhotos)%nat)
      by (destruct userPhotos; [contradiction | cbn; lia]).
    rewrite (proj2 (Nat.ltb_lt _ _) Hlen).
    assert (Hmod : (i mod length userPhotos < length userPhotos)%nat)
      by (apply Nat.mod_upper_bound; lia).
    destruct (nth_error userPhotos (i mod length userPhotos)) as [url|] eqn:Hu.
    + exists url. split; [reflexivity|]. split; [exact (nth_error_In _ _ Hu)|].
      rewrite <- Hu. f_equal.
      rewrite <- (Nat.mul_1_l (length userPhotos)) at 1.
      apply Nat.Div0.mod_add.
    + apply nth_error_None in Hu. lia.
  - intros Hi.
    rewrite (proj2 (Nat.ltb_lt 0 (length userPhotos))) by lia.
    now rewrite Nat.mod_small by exact Hi.
Qed.

(** The theorem above with three photos, at frame 4. *)
Lemma photos_cycle_over_frames_witness :
  exists url,
    PhotoFrames.photoUrl ["a.jpg"; "b.jpg"; "c.jpg"]%string 4 = Some url
    /\ In url ["a.jpg"; "b.jpg"; "c.jpg"]%string
    /\ PhotoFrames.photoUrl ["a.jpg"; "b.jpg"; "c.jpg"]%string (4 + 3)
       = PhotoFrames.photoUrl ["a.jpg"; "b.jpg"; "c.jpg"]%string 4.
Proof.
  apply (proj1 (proj2 (photos_cycle_over_frames ["a.jpg"; "b.jpg"; "c.jpg"]%string 4))).
  discriminate.
Defined.

Section FrameGeometry.

Import Types Random THREE PhotoFrames Spec Derived.
Local Open Scope R_scope.

Variable C : Constants.

Lemma frame_geometry (i : nat) (src : nat -> R) (n : nat) :
  let f := fst (frame C i src n) in
  let h := clampHeight C (rawHeight C i ((src (n + 6)%nat - 0.5) * 1.5)) in
  let finalRadius :=
    (1 - (h + TREE_HEIGHT C / 2) / TREE_HEIGHT C) * (TREE_RADIUS C + 0.8)
    + (src (n + 7)%nat - 0.5) * 0.4 in
  Vector3.y (targetPos f) = h
  /\ axisDistance2 (targetPos f) = finalRadius * finalRadius
  /\ norm2 (chaosPos f) = (15 + src n * 10) * (15 + src n * 10).
Proof.
  unfold frame, bind, Math_random, ret, axisDistance2, norm2; cbn.
  replace (S (S (S (S (S (S n)))))) with (n + 6)%nat by lia.
  replace (S (n + 6)) with (n + 7)%nat by lia.
  unfold height, baseRadius.
  split; [reflexivity|]. split; [apply circle_point | apply sphere_point].
Qed.

End FrameGeometry.

(** X10.  With a tree at least 3 units high, a non-negative radius and
    draws in [0,1), every photo frame starts, in chaos, on a sphere around
    the origin of radius in [15, 25), and hangs, on the tree, at a distance
    from the axis between [2 (TREE_RADIUS + 0.8) / TREE_HEIGHT - 0.2] and
    [(1 - 1 / TREE_HEIGHT) (TREE_RADIUS + 0.8) + 0.2]. *)
Theorem photo_frames_hang_around_the_cone
    (C : Types.Constants) (src : nat -> R) (n i : nat) :
  (3 <= Types.TREE_HEIGHT C)%R ->
  (0 <= Types.TREE_RADIUS C)%R ->
  (forall m, 0 <= src m < 1)%R ->
  (i < Types.PHOTO_COUNT C)%nat ->
  exists (f : PhotoFrames.Frame) (chaosR finalRadius : R),
    nth_error (fst (PhotoFrames.frames C src n)) i = Some f
    /\ (15 <= chaosR < 25)%R
    /\ Derived.norm2 (PhotoFrames.chaosPos f) = (chaosR * chaosR)%R
    /\ (2 * (Types.TREE_RADIUS C + 0.8) / Types.TREE_HEIGHT C - 0.2
          <= finalRadius
          < (1 - 1 / Types.TREE_HEIGHT C) * (Types.TREE_RADIUS C + 0.8) + 0.2)%R
    /\ Derived.axisDistance2 (PhotoFrames.targetPos f)
       = (finalRadius * finalRadius)%R.
Proof.
  intros HH HR Hsrc Hi.
  destruct (frame_geometry C i src (n + 10 * i)) as (Hy & Hd & Hc).
  set (h := PhotoFrames.clampHeight C
              (PhotoFrames.rawHeight C i ((src (n + 10 * i + 6)%nat - 0.5) * 1.5))) in *.
  pose proof (clampHeight_bounds C
                (PhotoFrames.rawHeight C i ((src (n + 10 * i + 6)%nat - 0.5) * 1.5)) HH)
    as [Hlo Hhi].
  fold h in Hlo, Hhi. unfold Spec.frameFloor, Spec.frameCeiling in Hlo, Hhi.
  eexists; eexists; eexists.
  split.
  { rewrite frames_collects.
    rewrite nth_error_map, nth_error_nth' with (d := 0%nat) by (now rewrite length_seq).
    now rewrite seq_nth by exact Hi. }
  split; [|split; [exact Hc | split; [|exact Hd]]].
  - pose proof (Hsrc (n + 10 * i)%nat). lra.
  - pose proof (Hsrc (n + 10 * i + 7)%nat) as Hj.
    set (H := Types.TREE_HEIGHT C) in *. set (B := (Types.TREE_RADIUS C + 0.8)%R).
    assert (HB : (0 <= B)%R) by (unfold B; lra).
    assert (Hinv : (0 < / H)%R) by (apply Rinv_0_lt_compat; lra).
    assert (Hone : (H * / H = 1)%R) by (apply Rinv_r; lra).
    assert (Hfrac : (2 * / H <= 1 - (h + H / 2) / H <= 1 - / H)%R).
    { unfold Rdiv. split; nra. }
    unfold Rdiv in *. split; nra.
Qed.

(** The theorem above for the second of three frames on a tree of height
    15 and radius 5. *)
Lemma photo_frames_hang_around_the_cone_witness :
  let C := {| Types.TREE_HEIGHT := 15; Types.TREE_RADIUS := 5;
              Types.ORNAMENT_COUNT := 4; Types.PHOTO_COUNT := 3 |} in
  exists (f : PhotoFrames.Frame) (finalRadius : R),
    nth_error (fst (PhotoFrames.frames C (fun _ => 0.25%R) 0)) 1 = Some f
    /\ (2 * (5 + 0.8) / 15 - 0.2 <= finalRadius)%R
    /\ Derived.axisDistance2 (PhotoFrames.targetPos f)
       = (finalRadius * finalRadius)%R.
Proof.
  intros C.
  assert (HH : (3 <= Types.TREE_HEIGHT C)%R) by (cbn; lra).
  assert (HR : (0 <= Types.TREE_RADIUS C)%R) by (cbn; lra).
  assert (Hsrc : forall m : nat, (0 <= (fun _ : nat => 0.25%R) m < 1)%R)
    by (intros _; lra).
  assert (Hi : (1 < Types.PHOTO_COUNT C)%nat) by (cbn; lia).
  destruct (photo_frames_hang_around_the_cone C (fun _ => 0.25%R) 0 1 HH HR Hsrc Hi)
    as (f & chaosR & fr & Hf & _ & _ & Hb & Hd).
  exists f, fr. split; [exact Hf|]. split; [exact (proj1 Hb) | exact Hd].
Defined.

Section CoverCrop.

Import PhotoContent.
Local Open Scope Q_scope.

Lemma Qpos_neq0 (a : Q) : 0 < a -> ~ a == 0.
Proof. intros H E. rewrite E in H. apply (Qlt_irrefl 0 H). Qed.

Lemma aspect_pos (w h : Q) : 0 < w -> 0 < h -> 0 < w / h.
Proof.
  intros Hw Hh. apply Qlt_shift_div_l; [exact Hh|]. now rewrite Qmult_0_l.
Qed.

Lemma aspect_times_height (w h : Q) : 0 < h -> w / h * h == w.
Proof. intros Hh. field. apply Qpos_neq0, Hh. Qed.

Lemma inverse_aspect (w h : Q) : 0 < w -> 0 < h -> 1 / (w / h) == h / w.
Proof. intros Hw Hh. field. split; apply Qpos_neq0; assumption. Qed.

End CoverCrop.

(** X11.  The cover logic leaves a texture without image alone.  For an
    image of positive width and height it selects a window of the texture
    that lies inside it ([0 < repeat <= 1], [0 <= offset]), is centred on
    both axes ([offset + repeat / 2 = 1/2]), spans the whole shorter side,
    and is a square in pixels ([repeat.x * width = repeat.y * height]). *)
Theorem cover_selects_a_centred_square
    (img : PhotoContent.Image) (texture : PhotoContent.Texture) :
  (0 < PhotoContent.width img)%Q ->
  (0 < PhotoContent.height img)%Q ->
  let t := PhotoContent.cover (Some img) texture in
  let rx := fst (PhotoContent.repeat t) in
  let ry := snd (PhotoContent.repeat t) in
  let ox := fst (PhotoContent.offset t) in
  let oy := snd (PhotoContent.offset t) in
  PhotoContent.cover None texture = texture
  /\ (0 < rx <= 1)%Q /\ (0 < ry <= 1)%Q
  /\ (0 <= ox)%Q /\ (0 <= oy)%Q
  /\ (ox + rx / 2 == 1 / 2)%Q /\ (oy + ry / 2 == 1 / 2)%Q
  /\ (rx * PhotoContent.width img == ry * PhotoContent.height img)%Q
  /\ (rx = 1%Q \/ ry = 1%Q).
Proof.
  intros Hw Hh. cbn zeta. split; [reflexivity|].
  pose proof (aspect_pos _ _ Hw Hh) as Ha.
  pose proof (aspect_times_height (PhotoContent.width img) _ Hh) as Hah.
  unfold PhotoContent.cover.
  set (a := (PhotoContent.width img / PhotoContent.height img)%Q) in *.
  destruct (Qlt_le_dec 1 a) as [Hwide|Htall]; cbn [PhotoContent.repeat
    PhotoContent.offset fst snd].
  - pose proof (inverse_aspect _ _ Hw Hh) as Hinv. fold a in Hinv.
    assert (Hlt : (PhotoContent.height img < PhotoContent.width img)%Q).
    { apply (Qmult_lt_r _ _ _ Hh) in Hwide. rewrite Hah in Hwide. Lqa.lra. }
    assert (Hr : (0 < 1 / a <= 1)%Q).
    { rewrite Hinv. split.
      - apply Qlt_shift_div_l; Lqa.lra.
      - apply Qle_shift_div_r; Lqa.lra. }
    assert (Hsq : (1 / a * PhotoContent.width img == 1 * PhotoContent.height img)%Q).
    { rewrite Hinv. field. apply Qpos_neq0, Hw. }
    revert Hr Hsq. generalize (1 / a)%Q. intros r Hr Hsq.
    unfold Qdiv. cbn [Qinv Qnum Qden].
    repeat split; try Lqa.lra; try exact Hsq. now right.
  - assert (Hsq : (1 * PhotoContent.width img == a / 1 * PhotoContent.height img)%Q).
    { unfold Qdiv. cbn [Qinv Qnum Qden]. rewrite Qmult_1_r, Qmult_1_l.
      symmetry. exact Hah. }
    assert (Hr : (0 < a / 1 <= 1)%Q).
    { unfold Qdiv. cbn [Qinv Qnum Qden]. Lqa.lra. }
    revert Hr Hsq. generalize (a / 1)%Q. intros r Hr Hsq.
    unfold Qdiv. cbn [Qinv Qnum Qden].
    repeat split; try Lqa.lra; try exact Hsq. now left.
Qed.

(** The theorem above on a landscape image of 1600 by 900 pixels. *)
Lemma cover_selects_a_centred_square_witness :
  let img := {| PhotoContent.width := 1600; PhotoContent.height := 900 |}%Q in
  let blank := {| PhotoContent.center := (0, 0); PhotoContent.rotation := 0;
                  PhotoContent.repeat := (1, 1); PhotoContent.offset := (0, 0) |}%Q in
  let t := PhotoContent.cover (Some img) blank in
  (fst (PhotoContent.repeat t) * 1600 == snd (PhotoContent.repeat t) * 900)%Q
  /\ (fst (PhotoContent.offset t) + fst (PhotoContent.repeat t) / 2 == 1 / 2)%Q.
Proof.
  intros img blank t.
  assert (Hw : (0 < PhotoContent.width img)%Q) by reflexivity.
  assert (Hh : (0 < PhotoContent.height img)%Q) by reflexivity.
  destruct (cover_selects_a_centred_square img blank Hw Hh)
    as (_ & _ & _ & _ & _ & Hc & _ & Hsq & _).
  split; [exact Hsq | exact Hc].
Defined.

Lemma Vector3_lerp_towards (goal v0 : THREE.Vector3.t) (k : R) :
  THREE.Vector3_lerp (Derived.towards goal v0 k) goal 0.1
  = Derived.towards goal v0 (0.9 * k).
Proof.
  unfold THREE.Vector3_lerp, Derived.towards; cbn. f_equal; nra.
Qed.

(** X12.  Frame after frame, the position and the scale of a photo frame
    close a tenth of the remaining gap to their goal: the blend of chaos
    and target positions and scale 1 when the frame is not focused, the
    focus point and scale 2.5 when it is.  After [n] frames with the same
    goal the remaining gap is [0.9 ^ n] of the initial one, so the frame
    never overshoots. *)
Theorem photo_frame_approaches_its_goal
    (data : PhotoFrames.Frame) (progress : R) (focus : option THREE.Vector3.t)
    (g : SingleFrame.Group) (n : nat) :
  let goalPosition :=
    match focus with
    | Some targetLocalPos => targetLocalPos
    | None => THREE.lerpVectors (PhotoFrames.chaosPos data)
                (PhotoFrames.targetPos data) progress
    end in
  let goalScale :=
    match focus with
    | Some _ => THREE.Vector3.mk 2.5 2.5 2.5
    | None => THREE.Vector3.mk 1 1 1
    end%R in
  let g' := Nat.iter n (SingleFrame.useFrame data progress focus) g in
  SingleFrame.position g'
    = Derived.towards goalPosition (SingleFrame.position g) (0.9 ^ n)%R
  /\ SingleFrame.scale g'
    = Derived.towards goalScale (SingleFrame.scale g) (0.9 ^ n)%R.
Proof.
  cbn zeta. induction n as [|n [IHp IHs]].
  - change (Nat.iter 0 (SingleFrame.useFrame data progress focus) g) with g.
    destruct g as [[px py pz] [sx sy sz]]; unfold Derived.towards; cbn.
    split; f_equal; ring.
  - rewrite Nat.iter_succ.
    set (t := Nat.iter n (SingleFrame.useFrame data progress focus) g) in *.
    change (0.9 ^ S n)%R with (0.9 * 0.9 ^ n)%R.
    unfold SingleFrame.useFrame.
    destruct focus as [targetLocalPos|]; cbn [SingleFrame.position SingleFrame.scale];
      rewrite IHp, IHs; split; apply Vector3_lerp_towards.
Qed.

(** ** The ribbon, the star and the foliage *)

(** The tree of the scene runs its own frame callbacks, whatever the
    children do. *)
Lemma Scene_run_tree (state : Types.TreeState) (deltas : list R) (sc : Scene.t) :
  Scene.tree (Scene.run state sc deltas)
  = ChristmasTree.run state (Scene.tree sc) deltas.
Proof.
  unfold Scene.run, ChristmasTree.run.
  revert sc; induction deltas as [|d ds IH]; intros sc; [reflexivity|].
  cbn [fold_left]. now rewrite IH.
Qed.

Lemma Scene_run_snoc (state : Types.TreeState) (deltas : list R) (delta : R)
    (sc : Scene.t) :
  Scene.run state sc (deltas ++ [delta])
  = Scene.frame state delta (Scene.run state sc deltas).
Proof. unfold Scene.run. now rewrite fold_left_app. Qed.

(** X13.  The star and the ribbon show the shared progress one frame
    late: their callbacks run before the tree's, so after a frame they show
    the progress the frame started with, while [progressRef] already holds
    the next one; a first frame from progress 0 leaves the star at height
    15 with size 0, however long it took.  Each frame turns the star by
    0.01 and the ribbon by 0.003.  When the tree has been FORMED
    for 5 seconds of frames, from any progress in [0,1], and one more frame
    is rendered, the star is within 0.0075 of its place at height 7.5 and
    at more than 0.999 of its size, and the ribbon is shown at more than
    0.999 of its size.  When it has been in CHAOS for as long, the star is
    within 0.0075 of height 15 and smaller than 0.001; the ribbon is hidden
    in CHAOS by the first frame, whatever the progress. *)
Theorem star_and_ribbon_settle
    (sc : Scene.t) (deltas : list R) (next : R) :
  (0 <= ChristmasTree.progressRef (Scene.tree sc) <= 1)%R ->
  Forall (fun d => (0 <= d)%R) deltas ->
  (5 <= ChristmasTree.elapsed deltas)%R ->
  let shown state := Scene.run state sc (deltas ++ [next]) in
  (forall state delta sc0,
      let p := ChristmasTree.progressRef (Scene.tree sc0) in
      let sc1 := Scene.frame state delta sc0 in
      Star.position_y (Scene.star sc1) = THREE.lerp 15 7.5 p
      /\ Star.scale (Scene.star sc1) = p
      /\ Ribbon.scale (Scene.ribbon sc1) = THREE.lerp 0.01 1 p
      /\ ChristmasTree.progressRef (Scene.tree sc1)
         = (p + (ChristmasTree.target state - p) * (1 - exp (- (2 * delta))))%R
      /\ (p = 0%R ->
          Star.position_y (Scene.star sc1) = 15%R
          /\ Star.scale (Scene.star sc1) = 0%R)
      /\ Star.rotation_y (Scene.star sc1)
         = (Star.rotation_y (Scene.star sc0) + 0.01)%R
      /\ Ribbon.rotation_y (Scene.ribbon sc1)
         = (Ribbon.rotation_y (Scene.ribbon sc0) + 0.003)%R)
  /\ (forall state,
        Star.scale (Scene.star (shown state))
        = ChristmasTree.progressRef (ChristmasTree.run state (Scene.tree sc) deltas))
  /\ (Rabs (Star.position_y (Scene.star (shown Types.FORMED)) - 7.5) < 0.0075)%R
  /\ (0.999 < Star.scale (Scene.star (shown Types.FORMED)))%R
  /\ Ribbon.visible (Scene.ribbon (shown Types.FORMED)) = true
  /\ (0.999 < Ribbon.scale (Scene.ribbon (shown Types.FORMED)))%R
  /\ (Rabs (Star.position_y (Scene.star (shown Types.CHAOS)) - 15) < 0.0075)%R
  /\ (Star.scale (Scene.star (shown Types.CHAOS)) < 0.001)%R
  /\ (forall delta sc0,
        Ribbon.visible (Scene.ribbon (Scene.frame Types.CHAOS delta sc0)) = false).
Proof.
  intros Hp Hd H5. cbn zeta.
  pose proof (progressAfter_five_seconds Types.FORMED _ deltas Hp H5) as Hf.
  pose proof (progressAfter_five_seconds Types.CHAOS _ deltas Hp H5) as Hc.
  rewrite <- run_progress in Hf, Hc.
  cbn [ChristmasTree.target] in Hf, Hc.
  apply Rabs_def2 in Hf. apply Rabs_def2 in Hc.
  split.
  { intros state delta sc0.
    unfold Scene.frame; cbn [Scene.star Scene.ribbon Scene.tree].
    unfold Star.useFrame, Ribbon.useFrame; cbn [Star.position_y Star.scale Ribbon.scale].
    split; [reflexivity|]. split; [reflexivity|]. split; [reflexivity|].
    split; [rewrite useFrame_progress; apply advance_formula|].
    split; [|split; reflexivity].
    intros ->. unfold THREE.lerp. split; [lra | reflexivity]. }
  rewrite !Scene_run_snoc.
  unfold Scene.frame; cbn [Scene.star Scene.ribbon Scene.tree].
  rewrite !Scene_run_tree.
  unfold Star.useFrame, Ribbon.useFrame, THREE.lerp;
    cbn [Star.position_y Star.scale Ribbon.scale Ribbon.visible].
  split; [intros state; rewrite Scene_run_snoc; unfold Scene.frame;
          cbn [Scene.star Star.useFrame Star.scale]; now rewrite Scene_run_tree|].
  split; [apply Rabs_def1; lra|]. split; [lra|]. split; [reflexivity|].
  split; [lra|]. split; [apply Rabs_def1; lra|]. split; [lra|].
  reflexivity.
Qed.

(** The theorem above for a tree at progress 0 with the star at rest
    above it: six frames of one second and one more frame bring the star
    to its place and the ribbon to its size, while the first frame alone
    leaves the star where it was. *)
Lemma star_and_ribbon_settle_witness :
  let sc := {| Scene.tree := ChristmasTree.initial;
               Scene.ribbon := {| Ribbon.scale := 0.01; Ribbon.visible := false;
                                  Ribbon.rotation_y := 0 |};
               Scene.star := {| Star.position_y := 15; Star.scale := 0;
                                Star.rotation_y := 0 |} |}%R in
  let shown := Scene.run Types.FORMED sc ([1; 1; 1; 1; 1; 1] ++ [1])%R in
  (Rabs (Star.position_y (Scene.star shown) - 7.5) < 0.0075)%R
  /\ (0.999 < Ribbon.scale (Scene.ribbon shown))%R
  /\ Star.position_y (Scene.star (Scene.frame Types.FORMED 5%R sc)) = 15%R.
Proof.
  intros sc shown.
  assert (Hp : (0 <= ChristmasTree.progressRef (Scene.tree sc) <= 1)%R)
    by (cbn; lra).
  assert (Hd : Forall (fun d => (0 <= d)%R) [1; 1; 1; 1; 1; 1]%R)
    by (repeat constructor; lra).
  assert (H5 : (5 <= ChristmasTree.elapsed [1; 1; 1; 1; 1; 1]%R)%R)
    by (unfold ChristmasTree.elapsed; simpl; lra).
  destruct (star_and_ribbon_settle sc [1; 1; 1; 1; 1; 1]%R 1%R Hp Hd H5)
    as (Hlag & _ & Hs & _ & _ & Hr & _).
  split; [exact Hs|]. split; [exact Hr|].
  destruct (Hlag Types.FORMED 5%R sc) as (_ & _ & _ & _ & Hfirst & _).
  exact (proj1 (Hfirst eq_refl)).
Defined.

Lemma INR_pointsCount : INR Ribbon.pointsCount = 400%R.
Proof. unfold Ribbon.pointsCount. rewrite INR_IZR_INZ. reflexivity. Qed.

Lemma curvePoint_height (C : Types.Constants) (i : nat) :
  THREE.Vector3.y (Ribbon.curvePoint C i) = (-7 + 15.5 * (INR i / 400))%R.
Proof.
  unfold Ribbon.curvePoint, THREE.lerp; cbn [THREE.Vector3.y].
  rewrite INR_pointsCount. lra.
Qed.

(** X14.  The ribbon's curve has 401 control points.  Point [i] is at
    height [-7 + 15.5 * i / 400], so the points climb strictly from -7 to
    8.5; with a non-negative tree radius its distance from the axis is at
    most [(1 - i / 400) * (TREE_RADIUS + 0.5) + 0.1], which leaves at most
    0.1 at the top. *)
Theorem ribbon_spiral_climbs_and_tapers (C : Types.Constants) (i : nat) :
  (0 <= Types.TREE_RADIUS C)%R ->
  (i <= 400)%nat ->
  length (Ribbon.points C) = 401%nat
  /\ (exists (p : THREE.Vector3.t) (r : R),
        nth_error (Ribbon.points C) i = Some p
        /\ THREE.Vector3.y p = (-7 + 15.5 * (INR i / 400))%R
        /\ (-7 <= THREE.Vector3.y p <= 8.5)%R
        /\ Derived.axisDistance2 p = (r * r)%R
        /\ (Rabs r <= (1 - INR i / 400) * (Types.TREE_RADIUS C + 0.5) + 0.1)%R)
  /\ (forall j, (j < i)%nat ->
        (THREE.Vector3.y (Ribbon.curvePoint C j)
         < THREE.Vector3.y (Ribbon.curvePoint C i))%R).
Proof.
  intros HR Hi.
  assert (Hfrac : (0 <= INR i / 400 <= 1)%R).
  { assert (0 <= INR i)%R by apply pos_INR.
    assert (INR i <= 400)%R
      by (rewrite <- INR_pointsCount; apply le_INR; exact Hi).
    lra. }
  split; [|split].
  - unfold Ribbon.points. now rewrite length_map, length_seq.
  - exists (Ribbon.curvePoint C i).
    exists ((1 - INR i / 400) * (Types.TREE_RADIUS C + 0.5)
            + sin (INR i / 400 * 20) * 0.1)%R.
    split.
    { unfold Ribbon.points.
      rewrite nth_error_map, nth_error_nth' with (d := 0%nat)
        by (rewrite length_seq; unfold Ribbon.pointsCount; lia).
      rewrite seq_nth by (unfold Ribbon.pointsCount; lia). reflexivity. }
    split; [apply curvePoint_height|].
    split; [rewrite curvePoint_height; lra|].
    split.
    + unfold Ribbon.curvePoint, Derived.axisDistance2, Ribbon.baseRadius;
        cbn [THREE.Vector3.x THREE.Vector3.z].
      rewrite INR_pointsCount. apply circle_point.
    + pose proof (SIN_bound (INR i / 400 * 20)) as Hs.
      apply Rabs_le. nra.
  - intros j Hj. rewrite !curvePoint_height.
    apply lt_INR in Hj. lra.
Qed.

(** The theorem above at the top of the ribbon of a tree of radius 5. *)
Lemma ribbon_spiral_climbs_and_tapers_witness :
  let C := {| Types.TREE_HEIGHT := 15; Types.TREE_RADIUS := 5;
              Types.ORNAMENT_COUNT := 4; Types.PHOTO_COUNT := 3 |} in
  exists (p : THREE.Vector3.t) (r : R),
    nth_error (Ribbon.points C) 400 = Some p
    /\ THREE.Vector3.y p = (-7 + 15.5 * (INR 400 / 400))%R
    /\ Derived.axisDistance2 p = (r * r)%R
    /\ (Rabs r <= (1 - INR 400 / 400) * (5 + 0.5) + 0.1)%R.
Proof.
  intros C.
  assert (HR : (0 <= Types.TREE_RADIUS C)%R) by (cbn; lra).
  destruct (ribbon_spiral_climbs_and_tapers C 400 HR (le_n 400))
    as (_ & (p & r & Hp & Hy & _ & Hd & Hr) & _).
  exists p, r. split; [exact Hp|]. split; [exact Hy|]. split; [exact Hd | exact Hr].
Defined.

Section FoliageCloud.

Import Types Random THREE Foliage Derived.
Local Open Scope R_scope.

Lemma Math_cbrt_unit (a : R) : 0 <= a < 1 -> 0 <= Math_cbrt a <= 1.
Proof.
  intros [H0 H1]. unfold Math_cbrt.
  destruct (Req_dec_T a 0) as [_|Hne]; [lra|].
  destruct (Rlt_dec a 0) as [Hneg|_]; [lra|].
  assert (Hpos : 0 < a) by lra.
  unfold Rpower. split; [left; apply exp_pos|].
  assert (Hln : ln a < 0) by (rewrite <- ln_1; apply ln_increasing; lra).
  rewrite <- exp_0. left. apply exp_increasing. nra.
Qed.

Lemma sqrt_unit (a : R) : 0 <= a < 1 -> 0 <= sqrt a <= 1.
Proof.
  intros [H0 H1]. split; [apply sqrt_pos|].
  rewrite <- sqrt_1. apply sqrt_le_1_alt. lra.
Qed.

Variable C : Constants.

Lemma point_draws (src : nat -> R) (n : nat) : snd (point C src n) = (n + 7)%nat.
Proof. unfold point, bind, Math_random, ret; cbn [snd]. lia. Qed.

Lemma cloud_body_pushes (ps : list Point) (i : nat) (src : nat -> R) (n : nat) :
  body C ps i src n = (push ps (fst (point C src n)), snd (point C src n)).
Proof. unfold body, bind, ret. now destruct (point C src n). Qed.

Lemma cloud_collects (count : nat) (src : nat -> R) (n : nat) :
  fst (cloud C count src n) = map (fun j => fst (point C src (n + 7 * j)%nat)) (seq 0 count).
Proof.
  unfold cloud.
  apply (forEach_collects (fun _ => point C) push 7 (body C)
           (fun _ => point_draws) cloud_body_pushes Point (fun ps => ps) (fun p => p));
    reflexivity.
Qed.

Lemma point_geometry (src : nat -> R) (n : nat) :
  (forall m, 0 <= src m < 1) -> 0 <= TREE_RADIUS C ->
  let p := fst (point C src n) in
  let h := src (n + 3)%nat in
  norm2 (aChaosPos p) <= 18 * 18
  /\ Vector3.y (aTargetPos p) = h * TREE_HEIGHT C - TREE_HEIGHT C / 2
  /\ axisDistance2 (aTargetPos p)
     <= (1 - h) * TREE_RADIUS C * ((1 - h) * TREE_RADIUS C)
  /\ aRandom p = src (n + 6)%nat.
Proof.
  intros Hsrc HR. unfold point, bind, Math_random, ret, norm2, axisDistance2; cbn.
  replace (S (S (S n))) with (n + 3)%nat by lia.
  replace (S (S (S (n + 3)))) with (n + 6)%nat by lia.
  replace (S (S (n + 3))) with (n + 5)%nat by lia.
  unfold radius, height.
  pose proof (Math_cbrt_unit (src n) (Hsrc n)) as Hc.
  pose proof (sqrt_unit (src (n + 5)%nat) (Hsrc _)) as Hs.
  pose proof (Hsrc (n + 3)%nat) as Hh.
  split; [|split; [reflexivity | split; [|reflexivity]]].
  - set (rho := Math_cbrt (src n) * 18) in *.
    set (phi := acos (src (S (S n)) * 2 - 1)).
    set (theta := src (S n) * PI * 2).
    replace (rho * sin phi * cos theta * (rho * sin phi * cos theta)
             + rho * sin phi * sin theta * (rho * sin phi * sin theta)
             + rho * cos phi * (rho * cos phi))
      with (rho * rho) by (rewrite <- (sphere_point rho phi theta); ring).
    unfold rho. nra.
  - rewrite circle_point.
    set (coneR := (1 - src (n + 3)%nat) * TREE_RADIUS C) in *.
    assert (Hcone : 0 <= coneR) by (unfold coneR; nra).
    set (dist := sqrt (src (n + 5)%nat) * coneR).
    assert (Hdist : 0 <= dist <= coneR) by (unfold dist; nra).
    nra.
Qed.

End FoliageCloud.

(** X15.  With draws in [0,1) and a non-negative tree radius, the cloud
    has one point per index; in chaos every point is within 18 units of
    the origin, and on the tree it lies inside the cone: at height
    [h * TREE_HEIGHT - TREE_HEIGHT / 2] for a drawn [h] in [0,1), no farther
    from the axis than [(1 - h) * TREE_RADIUS]. *)
Theorem foliage_fills_ball_and_cone
    (C : Types.Constants) (count : nat) (src : nat -> R) (n i : nat) :
  (forall m, 0 <= src m < 1)%R ->
  (0 <= Types.TREE_RADIUS C)%R ->
  (i < count)%nat ->
  length (fst (Foliage.cloud C count src n)) = count
  /\ exists (p : Foliage.Point) (h : R),
       nth_error (fst (Foliage.cloud C count src n)) i = Some p
       /\ (Derived.norm2 (Foliage.aChaosPos p) <= 18 * 18)%R
       /\ (0 <= h < 1)%R
       /\ THREE.Vector3.y (Foliage.aTargetPos p)
          = (h * Types.TREE_HEIGHT C - Types.TREE_HEIGHT C / 2)%R
       /\ (Derived.axisDistance2 (Foliage.aTargetPos p)
           <= (1 - h) * Types.TREE_RADIUS C * ((1 - h) * Types.TREE_RADIUS C))%R
       /\ (0 <= Foliage.aRandom p < 1)%R.
Proof.
  intros Hsrc HR Hi. rewrite cloud_collects. split.
  - now rewrite length_map, length_seq.
  - destruct (point_geometry C src (n + 7 * i) Hsrc HR) as (Hc & Hy & Hd & Hrnd).
    exists (fst (Foliage.point C src (n + 7 * i))), (src (n + 7 * i + 3)%nat).
    split.
    { rewrite nth_error_map, nth_error_nth' with (d := 0%nat) by (now rewrite length_seq).
      now rewrite seq_nth by exact Hi. }
    split; [exact Hc|]. split; [apply Hsrc|]. split; [exact Hy|].
    split; [exact Hd|]. rewrite Hrnd. apply Hsrc.
Qed.

(** The theorem above for the second of two points on a tree of height 15
    and radius 5, all draws 0.5. *)
Lemma foliage_fills_ball_and_cone_witness :
  let C := {| Types.TREE_HEIGHT := 15; Types.TREE_RADIUS := 5;
              Types.ORNAMENT_COUNT := 4; Types.PHOTO_COUNT := 3 |} in
  exists (p : Foliage.Point),
    nth_error (fst (Foliage.cloud C 2 (fun _ => 0.5%R) 0)) 1 = Some p
    /\ (Derived.norm2 (Foliage.aChaosPos p) <= 18 * 18)%R.
Proof.
  intros C.
  assert (Hsrc : forall m : nat, (0 <= (fun _ : nat => 0.5%R) m < 1)%R)
    by (intros _; lra).
  assert (HR : (0 <= Types.TREE_RADIUS C)%R) by (cbn; lra).
  assert (Hi : (1 < 2)%nat) by lia.
  destruct (proj2 (foliage_fills_ball_and_cone C 2 (fun _ => 0.5%R) 0 1 Hsrc HR Hi))
    as (p & h & Hp & Hc & _).
  exists p. split; [exact Hp | exact Hc].
Defined.

Section FoliageShader.

Import THREE Foliage.
Local Open Scope R_scope.

Lemma clamp_unit (a : R) : 0 <= clamp a 0 1 <= 1.
Proof.
  unfold clamp. split.
  - apply Rmin_glb; [apply Rmax_r | lra].
  - apply Rmin_r.
Qed.

Lemma smoothstep_unit (edge0 edge1 a : R) : 0 <= smoothstep edge0 edge1 a <= 1.
Proof.
  unfold smoothstep. pose proof (clamp_unit ((a - edge0) / (edge1 - edge0))) as H.
  cbn zeta. set (t := clamp _ 0 1) in *.
  assert (H1 : 0 <= t * t) by nra.
  assert (H2 : 0 <= (1 - t) * (1 - t)) by nra.
  assert (H3 : 0 <= t * t * (3 - 2 * t)) by (apply Rmult_le_pos; lra).
  assert (H4 : 0 <= (1 - t) * (1 - t) * (1 + 2 * t)) by (apply Rmult_le_pos; lra).
  split; [exact H3|].
  replace (t * t * (3 - 2 * t)) with (1 - (1 - t) * (1 - t) * (1 + 2 * t)) by ring.
  lra.
Qed.

(** No wind up to a progress of 0.8. *)
Lemma smoothstep_early (a : R) : a <= 0.8 -> smoothstep 0.8 1.0 a = 0.
Proof.
  intros Ha. unfold smoothstep.
  assert (Hc : clamp ((a - 0.8) / (1.0 - 0.8)) 0 1 = 0).
  { assert ((a - 0.8) / (1.0 - 0.8) <= 0).
    { unfold Rdiv.
      assert (0 < / (1.0 - 0.8)) by (apply Rinv_0_lt_compat; lra). nra. }
    unfold clamp. rewrite Rmax_right by assumption. apply Rmin_left. lra. }
  rewrite Hc. ring.
Qed.

End FoliageShader.

(** X16.  The vertex shader places a foliage point on the blend of its
    chaos and target positions, moved by the wind along [x] and [z] only,
    by the same amount on both and by at most 0.05.  Up to a progress of
    0.8 there is no wind at all, so at progress 0 the point is exactly at
    its chaos position. *)
Theorem foliage_wind_is_late_and_small
    (uProgress uTime : R) (p : Foliage.Point) :
  let v := Foliage.vertexShader uProgress uTime p in
  let blend := fun (axis : THREE.Vector3.t -> R) =>
    Foliage.mix (axis (Foliage.aChaosPos p)) (axis (Foliage.aTargetPos p)) uProgress in
  THREE.Vector3.y v = blend THREE.Vector3.y
  /\ (THREE.Vector3.x v - blend THREE.Vector3.x
      = THREE.Vector3.z v - blend THREE.Vector3.z)%R
  /\ (Rabs (THREE.Vector3.x v - blend THREE.Vector3.x) <= 0.05)%R
  /\ ((uProgress <= 0.8)%R ->
      v = THREE.Vector3.mk (blend THREE.Vector3.x) (blend THREE.Vector3.y)
            (blend THREE.Vector3.z))
  /\ (uProgress = 0%R -> v = Foliage.aChaosPos p).
Proof.
  cbn zeta. unfold Foliage.vertexShader.
  pose proof (smoothstep_unit 0.8 1.0 uProgress) as Hw.
  set (w := Foliage.smoothstep 0.8 1.0 uProgress) in *.
  set (mx := Foliage.mix (THREE.Vector3.x (Foliage.aChaosPos p))
               (THREE.Vector3.x (Foliage.aTargetPos p)) uProgress).
  set (my := Foliage.mix (THREE.Vector3.y (Foliage.aChaosPos p))
               (THREE.Vector3.y (Foliage.aTargetPos p)) uProgress).
  set (mz := Foliage.mix (THREE.Vector3.z (Foliage.aChaosPos p))
               (THREE.Vector3.z (Foliage.aTargetPos p)) uProgress).
  assert (Hearly : (uProgress <= 0.8)%R ->
            (if Rlt_dec 0 w
             then THREE.Vector3.mk
                    (mx + sin (uTime * 2.0 + my * 0.5) * 0.05 * w) my
                    (mz + sin (uTime * 2.0 + my * 0.5) * 0.05 * w)
             else THREE.Vector3.mk mx my mz)%R
            = THREE.Vector3.mk mx my mz).
  { intros He. unfold w. rewrite (smoothstep_early _ He).
    destruct (Rlt_dec 0 0); [lra | reflexivity]. }
  cbn [THREE.Vector3.x THREE.Vector3.y THREE.Vector3.z] in *.
  split; [|split; [|split; [|split]]].
  - destruct (Rlt_dec 0 w); reflexivity.
  - destruct (Rlt_dec 0 w); cbn; ring.
  - destruct (Rlt_dec 0 w); cbn.
    + pose proof (SIN_bound (uTime * 2.0 + my * 0.5)) as Hs.
      apply Rabs_le. nra.
    + apply Rabs_le. lra.
  - exact Hearly.
  - intros H0. rewrite Hearly by lra.
    unfold mx, my, mz, Foliage.mix. rewrite H0.
    destruct (Foliage.aChaosPos p) as [cx cy cz]; cbn. f_equal; ring.
Qed.

(** The theorem above for a point half-way between a chaos and a target
    position. *)
Lemma foliage_wind_is_late_and_small_witness :
  let p := {| Foliage.aChaosPos := THREE.Vector3.mk 10 (-4) 6;
              Foliage.aTargetPos := THREE.Vector3.mk 1 3 (-2);
              Foliage.aRandom := 0.3 |}%R in
  Foliage.vertexShader 0.5%R 12%R p
  = THREE.Vector3.mk (Foliage.mix 10 1 0.5) (Foliage.mix (-4) 3 0.5)
      (Foliage.mix 6 (-2) 0.5)%R.
Proof.
  intros p.
  apply (proj1 (proj2 (proj2 (proj2 (foliage_wind_is_late_and_small 0.5%R 12%R p))))).
  lra.
Defined.

(** ** The gesture mapper and its listeners *)

(** X17.  For a hand whose landmarks 0 and 9 lie in the unit square, the
    run publishes first a ['hand-move'] that is active and whose
    coordinates lie in [-1, 1]; the cursor position it stores lies in the
    unit square and is the same point: [x = 2 * cursor.x - 1], mirrored
    like the preview, and [y = 1 - 2 * cursor.y], pointing up.  The only
    other events are the spins of the swipe. *)
Theorem hand_move_is_normalized
    (s : GestureController.State) (name : string)
    (wrist middleFinger : GestureController.Landmark) :
  (0 <= GestureController.x wrist <= 1)%Q ->
  (0 <= GestureController.y wrist <= 1)%Q ->
  (0 <= GestureController.x middleFinger <= 1)%Q ->
  (0 <= GestureController.y middleFinger <= 1)%Q ->
  exists s' nx ny cx cy,
    GestureController.predictWebcam s (GestureController.oneHand name wrist middleFinger)
      = Some (s', Events.hand_move (Events.active_at nx ny)
                    :: GestureController.swipe (GestureController.previousHandX s) cx)
    /\ (-1 <= nx <= 1)%Q /\ (-1 <= ny <= 1)%Q
    /\ GestureController.handPos s' = Some (cx, cy)
    /\ (0 <= cx <= 1)%Q /\ (0 <= cy <= 1)%Q
    /\ (nx == 2 * cx - 1)%Q /\ (ny == 1 - 2 * cy)%Q
    /\ GestureController.previousHandX s' = Some cx
    /\ GestureController.detectedGesture s' = name.
Proof.
  intros Hwx Hwy Hmx Hmy.
  rewrite predictWebcam_oneHand. unfold GestureController.detected.
  cbn [GestureController.categoryName].
  eexists; eexists; eexists; eexists; eexists.
  split; [reflexivity|].
  cbn [GestureController.handPos GestureController.previousHandX
       GestureController.detectedGesture].
  unfold Qdiv. cbn [Qinv Qnum Qden].
  repeat split; try Lqa.lra.
Qed.

(** The theorem above for an open palm in the upper left of the image. *)
Lemma hand_move_is_normalized_witness :
  let s := {| GestureController.treeState := Types.FORMED;
              GestureController.previousHandX := None;
              GestureController.handPos := None;
              GestureController.detectedGesture := "" |} in
  let wrist := {| GestureController.x := 0.2; GestureController.y := 0.4 |}%Q in
  let middleFinger := {| GestureController.x := 0.3; GestureController.y := 0.2 |}%Q in
  exists s' nx ny cx cy,
    GestureController.predictWebcam s
      (GestureController.oneHand "Open_Palm" wrist middleFinger)
      = Some (s', Events.hand_move (Events.active_at nx ny)
                    :: GestureController.swipe (GestureController.previousHandX s) cx)
    /\ (-1 <= nx <= 1)%Q /\ (-1 <= ny <= 1)%Q
    /\ GestureController.handPos s' = Some (cx, cy)
    /\ (nx == 2 * cx - 1)%Q /\ (ny == 1 - 2 * cy)%Q.
Proof.
  intros s wrist middleFinger.
  destruct (hand_move_is_normalized s "Open_Palm" wrist middleFinger)
    as (s' & nx & ny & cx & cy & Hrun & Hnx & Hny & Hpos & _ & _ & Hx & Hy & _);
    try (split; discriminate).
  exists s', nx, ny, cx, cy. repeat split; try assumption; apply Hnx || apply Hny.
Defined.

Section Listeners.

Import Events GestureController Spec Window.

Lemma dispatch_swipe (previous : option Q) (h : Q)
    (tree : ChristmasTree.Tree) (dust : MagicalDust.HandTarget) :
  dispatchAll (swipe previous h) (tree, dust)
  = (match previous with
     | Some prev =>
         if isSwipe (h - prev)
         then ChristmasTree.onSpin (Q2R ((h - prev) * 1.2)) tree
         else tree
     | None => tree
     end, dust).
Proof.
  unfold swipe. destruct previous as [prev|]; [|reflexivity].
  destruct (isSwipe (h - prev)); reflexivity.
Qed.

End Listeners.

Lemma isSwipe_above (delta : Q) :
  (0.008 < Qabs delta)%Q -> GestureController.isSwipe delta = true.
Proof.
  intros H. unfold GestureController.isSwipe.
  destruct (Qlt_le_dec 0.008 (Qabs delta)) as [_|Hle]; [reflexivity|].
  exfalso. exact (Qlt_not_le _ _ H Hle).
Qed.

Lemma isSwipe_below (delta : Q) :
  (Qabs delta <= 0.008)%Q -> GestureController.isSwipe delta = false.
Proof.
  intros H. unfold GestureController.isSwipe.
  destruct (Qlt_le_dec 0.008 (Qabs delta)) as [Hlt|_]; [|reflexivity].
  exfalso. exact (Qlt_not_le _ _ Hlt H).
Qed.

(** The velocity of a spin as a real number: 1.2 times the move. *)
Lemma spin_velocity (h prev : Q) :
  Q2R ((h - prev) * 1.2) = (1.2 * (Q2R h - Q2R prev))%R.
Proof.
  rewrite Qreals.Q2R_mult, Qreals.Q2R_minus.
  replace (Q2R 1.2) with 1.2%R by (unfold Q2R; cbn; lra).
  ring.
Qed.

(** X18.  The events of a run reach exactly their listeners.  A run that
    processes no frame changes neither tree nor dust.  A run without a hand
    switches the dust's target off, keeping its coordinates, and leaves the
    tree alone.  A run with a hand at [h] switches the dust's target on, at
    the horizontal coordinate [2 h - 1] and the vertical coordinate
    [1 - 2 cy], [(h, cy)] being the cursor position the run stores.  When the hand moved by more than
    0.008 since the previous detection and the tree is not being dragged,
    the yaw velocity of the tree grows by 1.2 times the move, and nothing
    else of the tree changes.  The tree is left as it was when the move is
    at most 0.008, when there was no previous detection, and when it is
    being dragged. *)
Theorem gesture_events_reach_their_listeners
    (s s' : GestureController.State) (f : GestureController.VideoFrame)
    (es : list Events.Event)
    (tree : ChristmasTree.Tree) (dust : MagicalDust.HandTarget) :
  GestureController.predictWebcam s f = Some (s', es) ->
  let after := Window.dispatchAll es (tree, dust) in
  (f = GestureController.stale -> after = (tree, dust))
  /\ (Spec.noHand f ->
      after
      = (tree, {| MagicalDust.x := MagicalDust.x dust;
                  MagicalDust.y := MagicalDust.y dust;
                  MagicalDust.active := false |}))
  /\ (forall h, Spec.handPosition f = Some h ->
        MagicalDust.active (snd after) = true
        /\ (MagicalDust.x (snd after) == 2 * h - 1)%Q
        /\ (exists cy,
              GestureController.handPos s' = Some (h, cy)
              /\ (MagicalDust.y (snd after) == 1 - 2 * cy)%Q)
        /\ (forall prev,
              GestureController.previousHandX s = Some prev ->
              (0.008 < Qabs (h - prev))%Q ->
              ChristmasTree.isDragging tree = false ->
              fst after
              = {| ChristmasTree.velocityY :=
                     (ChristmasTree.velocityY tree + 1.2 * (Q2R h - Q2R prev))%R;
                   ChristmasTree.velocityX := ChristmasTree.velocityX tree;
                   ChristmasTree.isDragging := false;
                   ChristmasTree.lastPointer := ChristmasTree.lastPointer tree;
                   ChristmasTree.progressRef := ChristmasTree.progressRef tree;
                   ChristmasTree.focusedPhotoIndex :=
                     ChristmasTree.focusedPhotoIndex tree;
                   ChristmasTree.groupRef := ChristmasTree.groupRef tree |})
        /\ (forall prev,
              GestureController.previousHandX s = Some prev ->
              (Qabs (h - prev) <= 0.008)%Q ->
              fst after = tree)
        /\ (GestureController.previousHandX s = None -> fst after = tree)
        /\ (ChristmasTree.isDragging tree = true -> fst after = tree)
        /\ fst after
           = match GestureController.previousHandX s with
             | Some prev =>
                 if GestureController.isSwipe (h - prev)
                 then ChristmasTree.onSpin (Q2R ((h - prev) * 1.2)) tree
                 else tree
             | None => tree
             end).
Proof.
  intros H. cbn zeta.
  destruct (predictWebcam_cases s s' f es H)
    as [(Hf & _ & Hes) | [(Hno & Heq) | (g & w & m & _ & Hpos & Heq)]].
  - subst es. split; [reflexivity|]. split.
    + subst f. contradiction.
    + intros h Hh. subst f. discriminate.
  - assert (es = [Events.hand_move Events.inactive]) as ->
      by (injection Heq as _ ->; reflexivity).
    split; [intros ->; contradiction|]. split; [reflexivity|].
    intros h Hh. rewrite (noHand_handPosition f Hno) in Hh. discriminate.
  - assert (Hes : es = snd (GestureController.detected g w m s)) by (now rewrite <- Heq).
    split; [intros ->; discriminate|]. split.
    { intros Hno. rewrite (noHand_handPosition f Hno) in Hpos. discriminate. }
    intros h Hh. rewrite Hpos in Hh. injection Hh as <-.
    rewrite Hes. unfold GestureController.detected. cbn [snd].
    unfold Window.dispatchAll. cbn [fold_left Window.dispatchEvent fst snd].
    fold (Window.dispatchAll
            (GestureController.swipe (GestureController.previousHandX s) (Spec.handX w m))
            (tree, MagicalDust.onHandMove
                     (Events.active_at
                        ((1 - (GestureController.x w + GestureController.x m) / 2) * 2 - 1)
                        (- ((GestureController.y w + GestureController.y m) / 2 * 2 - 1)))
                     dust)).
    rewrite dispatch_swipe. cbn [fst snd]. unfold Spec.handX.
    split; [reflexivity|].
    split.
    { cbn [MagicalDust.onHandMove MagicalDust.x]. ring. }
    split.
    { exists ((GestureController.y w + GestureController.y m) / 2)%Q.
      assert (s' = fst (GestureController.detected g w m s)) as ->
        by (now rewrite <- Heq).
      split; [reflexivity|].
      cbn [MagicalDust.onHandMove MagicalDust.y]. ring. }
    split.
    { intros prev -> Hmove Hdrag. rewrite (isSwipe_above _ Hmove).
      unfold ChristmasTree.onSpin. rewrite Hdrag, spin_velocity. reflexivity. }
    split.
    { intros prev -> Hmove. now rewrite (isSwipe_below _ Hmove). }
    split; [intros ->; reflexivity|].
    split; [|reflexivity].
    intros Hdrag. destruct (GestureController.previousHandX s) as [prev|]; [|reflexivity].
    destruct (GestureController.isSwipe _); [|reflexivity].
    unfold ChristmasTree.onSpin. now rewrite Hdrag.
Qed.

(** The theorem above: a hand seen at 0.1 is seen again at 0.2 over a tree
    at rest, which gains the yaw velocity [1.2 * (0.2 - 0.1)]. *)
Lemma gesture_events_reach_their_listeners_witness :
  let s := {| GestureController.treeState := Types.CHAOS;
              GestureController.previousHandX := Some 0.1%Q;
              GestureController.handPos := Some (0.1, 0.5)%Q;
              GestureController.detectedGesture := "None" |} in
  let dust := {| MagicalDust.x := 0.4; MagicalDust.y := -0.2;
                 MagicalDust.active := false |}%Q in
  let f := GestureController.handAt "None" 0.2%Q in
  exists s' es,
    GestureController.predictWebcam s f = Some (s', es)
    /\ ChristmasTree.velocityY (fst (Window.dispatchAll es (ChristmasTree.initial, dust)))
       = (0 + 1.2 * (Q2R 0.2 - Q2R 0.1))%R
    /\ MagicalDust.active (snd (Window.dispatchAll es (ChristmasTree.initial, dust)))
       = true.
Proof.
  intros s dust f.
  destruct (GestureController.predictWebcam s f) as [[s' es]|] eqn:Hrun;
    [|discriminate Hrun].
  exists s', es. split; [reflexivity|].
  destruct (gesture_events_reach_their_listeners s s' f es
              ChristmasTree.initial dust Hrun) as (_ & _ & Hhand).
  assert (Hpos : Spec.handPosition f = Some (1 - (1 - 0.2 + (1 - 0.2)) / 2)%Q)
    by reflexivity.
  destruct (Hhand _ Hpos) as (Hactive & _ & _ & Hspin & _).
  split; [|exact Hactive].
  rewrite (Hspin 0.1%Q eq_refl); [|reflexivity|reflexivity].
  cbn [ChristmasTree.velocityY ChristmasTree.initial].
  f_equal. f_equal. f_equal. apply Qreals.Qeq_eqR. reflexivity.
Defined.

(** ** The ambient dust: respawn, rest and the initial cloud *)

(** X19.  With draws in [0,1), a particle that starts a frame below the
    floor ends it respawned, in every mode of the frame: at height 15, with
    [x] and [z] in [-10, 10) and all three velocity components zero. *)
Theorem particle_below_floor_respawns
    (handActive isActive : bool) (targetX targetY : Q)
    (p : MagicalDust.Particle) (src : nat -> Q) (n : nat) :
  (forall m, 0 <= src m < 1)%Q ->
  (MagicalDust.py p < -15)%Q ->
  let p' := fst (MagicalDust.stepParticle handActive isActive targetX targetY p src n) in
  MagicalDust.py p' = 15%Q
  /\ (MagicalDust.vx p', MagicalDust.vy p', MagicalDust.vz p') = (0, 0, 0)%Q
  /\ (-10 <= MagicalDust.px p' < 10)%Q
  /\ (-10 <= MagicalDust.pz p' < 10)%Q.
Proof.
  intros Hsrc Hbelow. cbn zeta. unfold MagicalDust.stepParticle, Random.bind.
  destruct (MagicalDust.updateVelocity handActive isActive targetX targetY p src n)
    as [v n'].
  rewrite (respawn_done _ _ src n' Hbelow). cbn [fst MagicalDust.px MagicalDust.py
    MagicalDust.pz MagicalDust.vx MagicalDust.vy MagicalDust.vz].
  pose proof (Hsrc n') as H1. pose proof (Hsrc (S n')) as H2.
  repeat split; Lqa.lra.
Qed.

(** The theorem above for a particle at height -15.085, attraction on. *)
Lemma particle_below_floor_respawns_witness :
  let p := {| MagicalDust.px := 0; MagicalDust.py := -15.085; MagicalDust.pz := 0;
              MagicalDust.vx := 0; MagicalDust.vy := -0.095; MagicalDust.vz := 0 |}%Q in
  let p' := fst (MagicalDust.stepParticle true true 3 2 p (fun _ => 0.25%Q) 0) in
  MagicalDust.py p' = 15%Q
  /\ (MagicalDust.vx p', MagicalDust.vy p', MagicalDust.vz p') = (0, 0, 0)%Q.
Proof.
  intros p p'.
  assert (Hsrc : forall m : nat, (0 <= (fun _ : nat => 0.25%Q) m < 1)%Q)
    by (intros _; split; discriminate || reflexivity).
  assert (Hb : (MagicalDust.py p < -15)%Q) by reflexivity.
  destruct (particle_below_floor_respawns true true 3 2 p (fun _ => 0.25%Q) 0 Hsrc Hb)
    as (Hy & Hv & _).
  split; [exact Hy | exact Hv].
Defined.

Section IdleDust.

Import Random MagicalDust Spec Derived.
Local Open Scope Q_scope.

Lemma pow95_succ (n : nat) : 0.95 ^ Z.of_nat (S n) == 0.95 * 0.95 ^ Z.of_nat n.
Proof.
  rewrite Nat2Z.inj_succ. unfold Z.succ.
  rewrite Qpower.Qpower_plus by discriminate.
  change (0.95 ^ 1) with 0.95. ring.
Qed.

Lemma glides_decayed (p : Particle) : glides p -> glides (decayed p).
Proof.
  unfold glides, decayed; cbn. intros [H1 H2]. split; Lqa.lra.
Qed.

Lemma idle_step (p : Particle) (src : nat -> Q) (m : nat) :
  glides p -> fst (stepParticle false false 0 0 p src m) = decayed p.
Proof.
  intros [H _]. rewrite stepParticle_idle, respawn_skipped; [reflexivity|].
  intros Hlt. apply (Qlt_not_le _ _ Hlt H).
Qed.

Lemma idle_steps (n : nat) (p : Particle) (src : nat -> Q) (m : nat) :
  glides p ->
  Nat.iter n (fun q => fst (stepParticle false false 0 0 q src m)) p
  = Nat.iter n decayed p
  /\ glides (Nat.iter n decayed p).
Proof.
  intros Hg. induction n as [|n [IH IHg]]; [split; [reflexivity | exact Hg]|].
  rewrite !Nat.iter_succ, IH. split; [apply idle_step, IHg | apply glides_decayed, IHg].
Qed.

Lemma decayed_iter (n : nat) (p : Particle) :
  let q := Nat.iter n decayed p in
  vx q == vx p * 0.95 ^ Z.of_nat n
  /\ vy q == vy p * 0.95 ^ Z.of_nat n
  /\ vz q == vz p * 0.95 ^ Z.of_nat n
  /\ px q + 19 * vx q == px p + 19 * vx p
  /\ py q + 19 * vy q == py p + 19 * vy p
  /\ pz q + 19 * vz q == pz p + 19 * vz p.
Proof.
  cbn zeta. induction n as [|n (Hx & Hy & Hz & Cx & Cy & Cz)].
  - change (Nat.iter 0 decayed p) with p. change (0.95 ^ Z.of_nat 0) with 1.
    repeat split; ring.
  - rewrite Nat.iter_succ. set (q := Nat.iter n decayed p) in *.
    unfold decayed at 1 2 3 4 5 6 7 8 9; cbn [px py pz vx vy vz].
    rewrite pow95_succ, Hx, Hy, Hz.
    repeat split; try ring.
    + rewrite <- Cx, Hx. ring.
    + rewrite <- Cy, Hy. ring.
    + rewrite <- Cz, Hz. ring.
Qed.

End IdleDust.

(** X20.  Without an attraction source, a particle that will not reach
    the floor (it is at or above -15, and so is its height plus 19 times
    its vertical velocity) is never respawned and glides to rest: after [n]
    frames each velocity component is [0.95 ^ n] of the initial one, and on
    each axis the position plus 19 times the velocity is what it was at
    the start, so the particle stops 19 velocities away from where it
    started. *)
Theorem idle_dust_glides_to_rest
    (p : MagicalDust.Particle) (src : nat -> Q) (m n : nat) :
  (-15 <= MagicalDust.py p)%Q ->
  (-15 <= MagicalDust.py p + 19 * MagicalDust.vy p)%Q ->
  let q := Nat.iter n
             (fun q => fst (MagicalDust.stepParticle false false 0 0 q src m)) p in
  (MagicalDust.vx q == MagicalDust.vx p * 0.95 ^ Z.of_nat n)%Q
  /\ (MagicalDust.vy q == MagicalDust.vy p * 0.95 ^ Z.of_nat n)%Q
  /\ (MagicalDust.vz q == MagicalDust.vz p * 0.95 ^ Z.of_nat n)%Q
  /\ (MagicalDust.px q + 19 * MagicalDust.vx q
      == MagicalDust.px p + 19 * MagicalDust.vx p)%Q
  /\ (MagicalDust.py q + 19 * MagicalDust.vy q
      == MagicalDust.py p + 19 * MagicalDust.vy p)%Q
  /\ (MagicalDust.pz q + 19 * MagicalDust.vz q
      == MagicalDust.pz p + 19 * MagicalDust.vz p)%Q
  /\ (-15 <= MagicalDust.py q)%Q.
Proof.
  intros H1 H2. cbn zeta.
  destruct (idle_steps n p src m (conj H1 H2)) as [Heq [Hfloor _]].
  rewrite Heq.
  destruct (decayed_iter n p) as (Hx & Hy & Hz & Cx & Cy & Cz).
  repeat split; assumption.
Qed.

(** The theorem above for a particle falling from height 0 at 0.5 per
    frame, after 40 frames. *)
Lemma idle_dust_glides_to_rest_witness :
  let p := {| MagicalDust.px := 1; MagicalDust.py := 0; MagicalDust.pz := 2;
              MagicalDust.vx := 0.1; MagicalDust.vy := -0.5; MagicalDust.vz := 0 |}%Q in
  let q := Nat.iter 40
             (fun q => fst (MagicalDust.stepParticle false false 0 0 q
                              (fun _ => 0.5%Q) 0)) p in
  (MagicalDust.vy q == -0.5 * 0.95 ^ 40)%Q
  /\ (MagicalDust.py q + 19 * MagicalDust.vy q == 0 + 19 * -0.5)%Q.
Proof.
  intros p q.
  assert (H1 : (-15 <= MagicalDust.py p)%Q) by discriminate.
  assert (H2 : (-15 <= MagicalDust.py p + 19 * MagicalDust.vy p)%Q) by discriminate.
  destruct (idle_dust_glides_to_rest p (fun _ => 0.5%Q) 0 40 H1 H2)
    as (_ & Hy & _ & _ & Cy & _).
  split; [exact Hy | exact Cy].
Defined.

Section InitialDust.

Import Random MagicalDust Spec Derived.
Local Open Scope Q_scope.

Lemma initParticle_spec (src : nat -> Q) (n : nat) :
  (forall m, 0 <= src m < 1) ->
  let p := fst (initParticle src n) in
  snd (initParticle src n) = (n + 3)%nat
  /\ (vx p, vy p, vz p) = (0, 0, 0)
  /\ -12.5 <= px p < 12.5 /\ -12.5 <= py p < 12.5 /\ -12.5 <= pz p < 12.5.
Proof.
  intros Hsrc. unfold initParticle, bind, Math_random, ret; cbn.
  pose proof (Hsrc n). pose proof (Hsrc (S n)). pose proof (Hsrc (S (S n))).
  repeat split; try Lqa.lra. lia.
Qed.

Lemma initParticles_succ (count : nat) (src : nat -> Q) (n : nat) :
  initParticles (S count) src n
  = (fst (initParticle src n) :: fst (initParticles count src (n + 3)%nat),
     snd (initParticles count src (n + 3)%nat)).
Proof.
  cbn [initParticles]. unfold bind, ret.
  assert (Hn : snd (initParticle src n) = (n + 3)%nat)
    by (unfold initParticle, bind, Math_random, ret; cbn; lia).
  destruct (initParticle src n) as [p n1]; cbn [fst snd] in *. subst n1.
  now destruct (initParticles count src (n + 3)%nat).
Qed.

Lemma initParticles_spec (count : nat) (src : nat -> Q) (n : nat) :
  (forall m, 0 <= src m < 1) ->
  snd (initParticles count src n) = (n + 3 * count)%nat
  /\ length (fst (initParticles count src n)) = count
  /\ Forall (fun p => (vx p, vy p, vz p) = (0, 0, 0)
                      /\ -12.5 <= px p < 12.5 /\ -12.5 <= py p < 12.5
                      /\ -12.5 <= pz p < 12.5)
       (fst (initParticles count src n)).
Proof.
  intros Hsrc. revert n; induction count as [|count IH]; intros n.
  - cbn. repeat split; [lia | constructor].
  - rewrite initParticles_succ. cbn [fst snd length].
    destruct (IH (n + 3)%nat) as (Hn' & Hlen & Hall).
    destruct (initParticle_spec src n Hsrc) as (_ & Hp).
    rewrite Hn', Hlen. split; [lia|]. split; [reflexivity|].
    constructor; assumption.
Qed.

End InitialDust.

(** X21.  With draws in [0,1), the dust starts as [count] particles at
    rest inside the cube of side 25 around the origin, built from 3 draws
    each.  None of them is below the floor, so as long as there is no
    attraction source a frame draws nothing and leaves every particle at
    rest where it is. *)
Theorem initial_dust_is_still
    (count : nat) (src : nat -> Q) (n m : nat) :
  (forall k, 0 <= src k < 1)%Q ->
  let ps := fst (MagicalDust.initParticles count src n) in
  length ps = count
  /\ snd (MagicalDust.initParticles count src n) = (n + 3 * count)%nat
  /\ Forall (fun p =>
        (MagicalDust.vx p, MagicalDust.vy p, MagicalDust.vz p) = (0, 0, 0)%Q
        /\ (-12.5 <= MagicalDust.px p < 12.5)%Q
        /\ (-12.5 <= MagicalDust.py p < 12.5)%Q
        /\ (-12.5 <= MagicalDust.pz p < 12.5)%Q) ps
  /\ exists ps',
       MagicalDust.stepAll false false 0 0 ps src m = (ps', m)
       /\ Forall2 (fun p p' =>
            (MagicalDust.px p' == MagicalDust.px p)%Q
            /\ (MagicalDust.py p' == MagicalDust.py p)%Q
            /\ (MagicalDust.pz p' == MagicalDust.pz p)%Q
            /\ (MagicalDust.vx p' == 0)%Q /\ (MagicalDust.vy p' == 0)%Q
            /\ (MagicalDust.vz p' == 0)%Q) ps ps'.
Proof.
  intros Hsrc. cbn zeta.
  destruct (initParticles_spec count src n Hsrc) as (Hn & Hlen & Hall).
  split; [exact Hlen|]. split; [exact Hn|]. split; [exact Hall|].
  exists (map Spec.decayed (fst (MagicalDust.initParticles count src n))).
  split.
  - apply stepAll_idle. eapply Forall_impl; [|exact Hall].
    intros p (_ & _ & [Hy _] & _) Hlt. apply (Qlt_not_le _ _ Hlt). Lqa.lra.
  - clear Hn Hlen.
    induction Hall as [|p ps (Hv & _) _ IH]; cbn [map]; constructor; [|exact IH].
    injection Hv as Hx Hy Hz. unfold Spec.decayed; cbn. rewrite Hx, Hy, Hz.
    repeat split; ring.
Qed.

(** The theorem above for three particles, all draws 0.3. *)
Lemma initial_dust_is_still_witness :
  let src := fun _ : nat => 0.3%Q in
  let ps := fst (MagicalDust.initParticles 3 src 0) in
  length ps = 3%nat
  /\ exists ps',
       MagicalDust.stepAll false false 0 0 ps src 9 = (ps', 9%nat)
       /\ Forall2 (fun p p' =>
            (MagicalDust.px p' == MagicalDust.px p)%Q
            /\ (MagicalDust.py p' == MagicalDust.py p)%Q
            /\ (MagicalDust.pz p' == MagicalDust.pz p)%Q
            /\ (MagicalDust.vx p' == 0)%Q /\ (MagicalDust.vy p' == 0)%Q
            /\ (MagicalDust.vz p' == 0)%Q) ps ps'.
Proof.
  intros src ps.
  assert (Hsrc : forall k : nat, (0 <= src k < 1)%Q)
    by (intros k; unfold src; split; [discriminate | reflexivity]).
  destruct (initial_dust_is_still 3 src 0 9 Hsrc) as (Hlen & _ & _ & Hstill).
  split; [exact Hlen | exact Hstill].
Defined.
